(** * Planning-poker bot (pokerplan.py): sessions, votes and the results report

    A shallow embedding of [src/pokerplan.py].  The three SQLite tables are
    lists of rows in insertion order, read back in the order SQLite returns
    them, the handlers are programs of a small
    state monad over the store and the log of transport calls, and the
    floating-point numbers of the statistics are the rationals they denote,
    rounded to binary64 where Python rounds. *)

From Stdlib Require Import ZArith QArith Qround Qabs Qpower Lia Lqa Ascii.
From stdpp Require Import base gmap sets list strings pretty sorting.

Local Open Scope Z_scope.

(** ** Configuration (lines 31-37) *)

Definition VOTE_OPTIONS : list string :=
  ["0"; "½"; "1"; "2"; "3"; "5"; "8"; "13"; "20"; "40"; "100"; "?"].

(** ** The store (lines 46-78)

    One record per table row, columns in the order of the CREATE TABLE
    statements.  [types.User] is the part of the Telegram user the code
    reads. *)

Record User := mkUser {
  id : Z;
  username : option string;
  full_name : string }.

Record session_row := mkSession {
  s_id : string;
  s_creator_id : Z;
  s_creator_name : string;
  s_title : string;
  s_description : string;
  s_created_at : string;
  s_status : string (* open|closed *) }.

Record member_row := mkMember {
  m_session_id : string;
  m_user_id : Z;
  m_username : string;
  m_first_name : string;
  m_joined_at : string }.

Record vote_row := mkVote {
  v_session_id : string;
  v_user_id : Z;
  v_value : string;
  v_voted_at : string }.

Record database := mkDb {
  sessions : list session_row;
  session_members : list member_row;
  votes : list vote_row }.

(** The primary keys: [id] for sessions, [(session_id, user_id)] for the
    other two tables. *)
Definition member_key (r : member_row) : string * Z := (m_session_id r, m_user_id r).
Definition vote_key (r : vote_row) : string * Z := (v_session_id r, v_user_id r).

(** [x or ""] on an optional string. *)
Definition or_empty (o : option string) : string := default "" o.

Definition is_empty_string (s : string) : bool :=
  match s with EmptyString => true | _ => false end.

(** *** Statements on the tables

    Plain INSERT fails on a taken primary key (the driver raises), INSERT
    OR IGNORE leaves the table as it is, INSERT OR REPLACE deletes the old
    row and adds the new one. *)

Definition db_insert_session (r : session_row) (d : database) : option database :=
  if decide (s_id r ∈ map s_id (sessions d)) then None
  else Some (mkDb (sessions d ++ [r]) (session_members d) (votes d)).

Definition db_insert_or_ignore_member (r : member_row) (d : database) : database :=
  if decide (member_key r ∈ map member_key (session_members d)) then d
  else mkDb (sessions d) (session_members d ++ [r]) (votes d).

Definition db_insert_or_replace_vote (r : vote_row) (d : database) : database :=
  mkDb (sessions d) (session_members d)
       (filter (λ x, vote_key x ≠ vote_key r) (votes d) ++ [r]).

(** SELECT ... FROM sessions WHERE id = ?, then fetchone (lines 113-120). *)
Definition db_get_session (session_id : string) (d : database) : option session_row :=
  head (filter (λ r, s_id r = session_id) (sessions d)).

(** *** The order of the rows of a session

    The two statements that select by session_id alone have no ORDER BY.
    SQLite answers them through the index it keeps for the primary key
    [(session_id, user_id)] of the table, so the rows of a session come
    back by ascending user_id, not in the order of their insertion; rows
    with one user_id, which a table that respects its key does not have,
    would follow in the order of insertion. *)
Fixpoint insert_by_user_id {A} (user_id : A → Z) (x : A) (l : list A) : list A :=
  match l with
  | [] => [x]
  | y :: l' =>
      if decide (user_id x ≤ user_id y) then x :: l
      else y :: insert_by_user_id user_id x l'
  end.

Definition by_user_id {A} (user_id : A → Z) (rows : list A) : list A :=
  foldr (insert_by_user_id user_id) [] rows.

(** SELECT ... FROM session_members WHERE session_id = ? (lines 122-127);
    the rows keep their session_id column here. *)
Definition db_get_members (session_id : string) (d : database) : list member_row :=
  by_user_id m_user_id (filter (λ r, m_session_id r = session_id) (session_members d)).

(** SELECT ... FROM votes WHERE session_id = ? (lines 129-134). *)
Definition db_get_votes (session_id : string) (d : database) : list vote_row :=
  by_user_id v_user_id (filter (λ r, v_session_id r = session_id) (votes d)).

(** DELETE FROM votes WHERE session_id = ? (lines 136-139). *)
Definition db_clear_votes (session_id : string) (d : database) : database :=
  mkDb (sessions d) (session_members d)
       (filter (λ r, v_session_id r ≠ session_id) (votes d)).

(** UPDATE sessions SET status = ? WHERE id = ? (lines 141-144). *)
Definition with_status (status : string) (r : session_row) : session_row :=
  mkSession (s_id r) (s_creator_id r) (s_creator_name r) (s_title r)
            (s_description r) (s_created_at r) status.

Definition db_set_session_status (session_id status : string) (d : database) : database :=
  mkDb (map (λ r, if decide (s_id r = session_id) then with_status status r else r)
            (sessions d))
       (session_members d) (votes d).

(** ** Numbers

    Python floats are modelled by the rationals they denote.  [b64] rounds a
    rational to the nearest number with a 53-bit significand, ties to even,
    as the conversions [float(...)] and the float operations do; exponent
    range (overflow to infinity, subnormals) is not modelled. *)

Definition two_pow (e : Z) : Q := (2 ^ e)%Q.

(** For [q > 0], the exponent [e] with [2^e <= q < 2^(e+1)]. *)
Definition floor_log2 (q : Q) : Z :=
  let e0 := Z.log2 (Qnum q) - Z.log2 (Zpos (Qden q)) in
  if Qle_bool (two_pow e0) q then e0 else e0 - 1.

(** Nearest integer, ties to the even one. *)
Definition round_half_even (q : Q) : Z :=
  let f := Qfloor q in
  match (q - inject_Z f ?= 1 # 2)%Q with
  | Lt => f
  | Gt => f + 1
  | Eq => if Z.even f then f else f + 1
  end.

Definition b64_pos (q : Q) : Q :=
  let ulp := two_pow (floor_log2 q - 52) in
  Qred (inject_Z (round_half_even (q / ulp)) * ulp).

Definition b64 (q : Q) : Q :=
  match (q ?= 0)%Q with
  | Eq => 0%Q
  | Gt => b64_pos q
  | Lt => Qopp (b64_pos (Qopp q))
  end.

(** [float(s)] on a non-empty string of ASCII decimal digits, the form of
    every card token but [½] and [?].  On any other string the model
    answers [None], which stands for ValueError.  That is Python's answer
    for the strings [float] rejects, not for all: [float] also reads signs,
    fractions, exponents, underscores, surrounding blanks, [inf] and [nan]
    (["1.5"], ["-0"], ["1e2"], ["nan"], ...), and a handler stores such a
    value as any other.  These strings are outside the model; what is
    proved of the numbers is stated for votes that hold card tokens. *)
Definition digit_of (a : ascii) : option Z :=
  let n := Z.of_nat (nat_of_ascii a) in
  if (48 <=? n) && (n <=? 57) then Some (n - 48) else None.

Fixpoint digits_value (acc : Z) (s : string) : option Z :=
  match s with
  | EmptyString => Some acc
  | String a s' =>
      match digit_of a with
      | Some d => digits_value (10 * acc + d) s'
      | None => None
      end
  end.

Definition py_float (s : string) : option Q :=
  if is_empty_string s then None
  else (λ z, b64 (inject_Z z)) <$> digits_value 0 s.

(** [sorted(data)]: a stable sort, here by insertion. *)
Fixpoint insert_sorted (x : Q) (l : list Q) : list Q :=
  match l with
  | [] => [x]
  | y :: l' => if Qle_bool x y then x :: l else y :: insert_sorted x l'
  end.

Definition sorted (data : list Q) : list Q := foldr insert_sorted [] data.

Definition Qsum (data : list Q) : Q := foldr Qplus 0%Q data.

(** [statistics.mean]: the exact sum of the data as a fraction, divided by
    their number, converted to float; [None] stands for StatisticsError on
    no data. *)
Definition mean (data : list Q) : option Q :=
  match data with
  | [] => None
  | _ => Some (b64 (Qsum data / inject_Z (Z.of_nat (length data))))
  end.

(** [statistics.median]: the middle element of the sorted data, or the
    float mean of the two middle ones. *)
Definition median (data : list Q) : option Q :=
  let data := sorted data in
  let n := length data in
  if (n =? 0)%nat then None
  else if (n mod 2 =? 1)%nat then data !! (n / 2)%nat
  else
    let i := (n / 2)%nat in
    x ← data !! (i - 1)%nat;
    y ← data !! i;
    Some (b64 (b64 (x + y) / 2)).

(** [f"{x:.2f}"]: the decimal with two fractional digits nearest to the
    float, given as its number of hundredths. *)
Definition fmt2 (x : Q) : Z := round_half_even (x * 100).

(** ** The results text (lines 156-200)

    The text is kept as its list of lines, one constructor per f-string;
    numbers stay numbers. *)

Inductive line :=
  | LTitle (title session_id : string)   (* line 171 *)
  | LCount (opt : string) (n : nat)      (* line 175 *)
  | LTotal (total : nat)                 (* line 187 *)
  | LMean (hundredths : Z)               (* line 182, the digits of :.2f *)
  | LMedian (median : Q)                 (* line 183 *)
  | LNotVotedHeader                      (* line 195 *)
  | LNotVoted (display : string).        (* line 198 *)

(** The loop over the votes (lines 158-169): one pass fills the dictionary
    of counts and the list of numeric values.  A value [float] rejects is
    counted and then skipped by the [except]. *)
Definition tally_step (acc : gmap string nat * list Q) (v : vote_row)
  : gmap string nat * list Q :=
  let val := v_value v in
  let counts := <[val := (default 0%nat (acc.1 !! val) + 1)%nat]> acc.1 in
  if decide (val = "?") then (counts, acc.2)
  else if decide (val = "½") then (counts, acc.2 ++ [1 # 2]%Q)
  else match py_float val with
       | Some x => (counts, acc.2 ++ [x])
       | None => (counts, acc.2)
       end.

Definition tally (votes : list vote_row) : gmap string nat * list Q :=
  foldl tally_step (∅, []) votes.

(** Lines 173-175. *)
Definition histogram_lines (counts : gmap string nat) : list line :=
  opt ← VOTE_OPTIONS;
  match counts !! opt with
  | Some c => [LCount opt c]
  | None => []
  end.

(** Lines 177-185; a StatisticsError leaves [stats_lines] empty. *)
Definition stats_lines (numeric_values : list Q) : list line :=
  match numeric_values with
  | [] => []
  | _ =>
      match mean numeric_values, median numeric_values with
      | Some mean, Some median => [LMean (fmt2 mean); LMedian median]
      | _, _ => []
      end
  end.

(** Line 197: [m["username"] or m["first_name"] or str(m["user_id"])]. *)
Definition display_name (m : member_row) : string :=
  if negb (is_empty_string (m_username m)) then m_username m
  else if negb (is_empty_string (m_first_name m)) then m_first_name m
  else pretty (m_user_id m).

(** Lines 192-193. *)
Definition not_voted (votes : list vote_row) (members : list member_row)
  : list member_row :=
  let voted_ids : gset Z := list_to_set (map v_user_id votes) in
  filter (λ m, m_user_id m ∉ voted_ids) members.

Definition not_voted_lines (nv : list member_row) : list line :=
  match nv with
  | [] => []
  | _ => LNotVotedHeader :: map (λ m, LNotVoted (display_name m)) nv
  end.

Definition compose_text (session : session_row) (session_id : string)
    (votes : list vote_row) (members : list member_row) : list line :=
  let '(counts, numeric_values) := tally votes in
  [LTitle (s_title session) session_id]
    ++ histogram_lines counts
    ++ [LTotal (length votes)]
    ++ stats_lines numeric_values
    ++ not_voted_lines (not_voted votes members).

(** ** Transport

    What the bot says is kept as a tag per message text of the source, with
    the values the f-string interpolates; what it does on the transport is
    logged as events. *)

Inductive keyboard :=
  | VoteKeyboard (session_id : string)     (* build_vote_keyboard *)
  | SessionButtons (session_id : string).  (* build_session_buttons *)

Inductive text :=
  | TUsageNewSession                              (* line 278 *)
  | TSessionCreated (title sid creator : string)  (* line 286 *)
  | TJoinNotFound                                 (* line 311 *)
  | TJoinClosed                                   (* line 314 *)
  | TJoined (title sid : string)                  (* line 321 *)
  | TKeyboardSent                                 (* line 324 *)
  | TCannotDM                                     (* line 328 *)
  | TSessionNotFound              (* lines 336, 383, 402, 423, 509 *)
  | TVotingClosed                                 (* line 339 *)
  | TVoteSavedAsCreator (value : string)          (* line 348 *)
  | TVoteSaved (value : string)                   (* line 355 *)
  | TAllVoted                                     (* line 371 *)
  | TResults (result_text : list line)            (* line 200 *)
  | TOnlyCreatorReveals                           (* line 388 *)
  | TNoVotesYet                                   (* line 392 *)
  | TResultsSent                                  (* line 394 *)
  | TOnlyCreatorRevotes                           (* line 405 *)
  | TVotesReset (title sid : string)              (* line 412 *)
  | TRevoteDone                                   (* line 415 *)
  | TNotActive                                    (* line 426 *)
  | TOnlyCreatorMembers                           (* line 430 *)
  | TNobodyJoined                                 (* line 434 *)
  | TMembers (title sid : string) (rows : list (string * string * string))
                                                  (* lines 436-443 *)
  | TUsageCloseSession                            (* line 504 *)
  | TOnlyCreatorCloses                            (* line 512 *)
  | TSessionClosed (sid : string).                (* line 515 *)

Inductive event :=
  | CallbackAnswer (t : option text) (show_alert : bool)
  | EditText (t : text) (reply_markup : option keyboard)
  | Reply (t : text) (reply_markup : option keyboard)
  | SendMessage (chat_id : Z) (t : text) (reply_markup : option keyboard)
  | SendFailed (chat_id : Z) (t : text).  (* bot.send_message raised *)

(** ** The world and the monad of the handlers

    The store, the number of clock readings and of random draws so far, and
    the events in the order they happened. *)

Record world := mkWorld {
  db : database;
  ticks : nat;
  draws : nat;
  sent : list event }.

(** What the handlers take from outside the program: the clock behind
    [now_iso], the random source behind [make_session_id], whether a direct
    message to a user gets through, and Python's [str.strip]. *)
Record env := mkEnv {
  iso : nat → string;
  token : nat → string;
  deliver : Z → bool;
  strip : string → string }.

Definition M (A : Type) : Type := world → A * world.

#[global] Instance M_ret : MRet M := λ A a w, (a, w).
#[global] Instance M_bind : MBind M := λ A B k m w, let (a, w') := m w in k a w'.

Definition read_db {A} (f : database → A) : M A := λ w, (f (db w), w).

Definition write_db (f : database → database) : M unit :=
  λ w, (tt, mkWorld (f (db w)) (ticks w) (draws w) (sent w)).

Definition emit (e : event) : M unit :=
  λ w, (tt, mkWorld (db w) (ticks w) (draws w) (sent w ++ [e])).

Fixpoint for_each {A} (l : list A) (body : A → M unit) : M unit :=
  match l with
  | [] => mret tt
  | x :: l' => body x;; for_each l' body
  end.

(** Outcome of each handler: the [return] it leaves by. *)
Inductive new_exit := NewUsage | NewRaised | NewCreated (sid : string).
Inductive join_exit := JoinNotFound | JoinClosed | Joined.
Inductive vote_exit := VoteNotFound | VoteClosed | VoteSaved.
Inductive reveal_exit := RevealNotFound | RevealForbidden | RevealNoVotes | Revealed.
Inductive revote_exit := RevoteNotFound | RevoteForbidden | RevoteDone.
Inductive members_exit :=
  | MembersNotFound | MembersNotActive | MembersForbidden
  | MembersNobody | MembersListed.
Inductive close_exit := CloseUsage | CloseNotFound | CloseForbidden | CloseDone.

Section Handlers.

Context (E : env).

(** Lines 82-86. *)
Definition make_session_id : M string :=
  λ w, (token E (draws w), mkWorld (db w) (ticks w) (S (draws w)) (sent w)).

Definition now_iso : M string :=
  λ w, (iso E (ticks w), mkWorld (db w) (S (ticks w)) (draws w) (sent w)).

(** [bot.send_message]; [false] when it raised. *)
Definition send_message (chat_id : Z) (t : text) (reply_markup : option keyboard)
  : M bool :=
  if deliver E chat_id then emit (SendMessage chat_id t reply_markup);; mret true
  else emit (SendFailed chat_id t);; mret false.

(** Lines 88-96; [None] when the INSERT raised on a taken id. *)
Definition create_session (creator : User) (title : string)
    (description : option string) : M (option string) :=
  sid ← make_session_id;
  now ← now_iso;
  let row := mkSession sid (id creator) (full_name creator) title
                       (or_empty description) now "open" in
  r ← read_db (db_insert_session row);
  match r with
  | None => mret None
  | Some d => write_db (λ _, d);; mret (Some sid)
  end.

(** Lines 98-104. *)
Definition add_member (session_id : string) (user : User) : M unit :=
  now ← now_iso;
  write_db (db_insert_or_ignore_member
              (mkMember session_id (id user) (or_empty (username user))
                        (full_name user) now)).

(** Lines 106-111. *)
Definition set_vote (session_id : string) (user : User) (value : string) : M unit :=
  now ← now_iso;
  write_db (db_insert_or_replace_vote (mkVote session_id (id user) value now)).

Definition get_session (session_id : string) : M (option session_row) :=
  read_db (db_get_session session_id).

Definition get_members (session_id : string) : M (list member_row) :=
  read_db (db_get_members session_id).

Definition get_votes (session_id : string) : M (list vote_row) :=
  read_db (db_get_votes session_id).

Definition clear_votes (session_id : string) : M unit :=
  write_db (db_clear_votes session_id).

Definition set_session_status (session_id status : string) : M unit :=
  write_db (db_set_session_status session_id status).

(** Lines 147-213.  The text always has its title line, so the callers'
    [if result_text] tells [None] from a text. *)
Definition compose_and_broadcast_results (session_id : string)
  : M (option (list line)) :=
  session ← get_session session_id;
  match session with
  | None => mret None
  | Some session =>
      votes ← get_votes session_id;
      members ← get_members session_id;
      match votes with
      | [] => mret None
      | _ =>
          let result_text := compose_text session session_id votes members in
          for_each members (λ m,
            send_message (m_user_id m) (TResults result_text) None;; mret tt);;
          mret (Some result_text)
      end
  end.

(** Lines 273-287.  [args] is [command.args]; [not args] holds for [None]
    and for the empty string. *)
Definition cmd_new_session (from_user : User) (args : option string) : M new_exit :=
  if is_empty_string (or_empty args) then
    emit (Reply TUsageNewSession None);; mret NewUsage
  else
    let title := or_empty args in
    r ← create_session from_user title (Some "");
    match r with
    | None => mret NewRaised
    | Some sid =>
        add_member sid from_user;;
        emit (Reply (TSessionCreated title sid (full_name from_user))
                    (Some (SessionButtons sid)));;
        mret (NewCreated sid)
    end.

(** Lines 305-328; [sid] is the part of the callback data after [join|]. *)
Definition cb_join (from_user : User) (sid : string) : M join_exit :=
  emit (CallbackAnswer None false);;
  session ← get_session sid;
  match session with
  | None => emit (EditText TJoinNotFound None);; mret JoinNotFound
  | Some session =>
      if decide (s_status session ≠ "open") then
        emit (EditText TJoinClosed None);; mret JoinClosed
      else
        add_member sid from_user;;
        ok ← send_message (id from_user) (TJoined (s_title session) sid)
                           (Some (VoteKeyboard sid));
        (if ok : bool then emit (CallbackAnswer (Some TKeyboardSent) false)
         else emit (CallbackAnswer (Some TCannotDM) true));;
        mret Joined
  end.

(** Lines 360-375, the automatic reveal after a vote. *)
Definition auto_reveal (session : session_row) (sid : string) : M unit :=
  if decide (s_status session = "open") then
    members ← get_members sid;
    votes ← get_votes sid;
    let unique_voters : gset Z := list_to_set (map v_user_id votes) in
    if negb (bool_decide (members = []))
       && bool_decide (size unique_voters = length members) then
      result_text ← compose_and_broadcast_results sid;
      match result_text with
      | Some _ => send_message (s_creator_id session) TAllVoted None;; mret tt
      | None => mret tt
      end
    else mret tt
  else mret tt.

(** Lines 330-375; [sid] and [value] are the two parts of the callback data
    after [vote|], split at the first bar. *)
Definition cb_vote (from_user : User) (sid value : string) : M vote_exit :=
  emit (CallbackAnswer None false);;
  session ← get_session sid;
  match session with
  | None => emit (EditText TSessionNotFound None);; mret VoteNotFound
  | Some session =>
      if decide (s_status session ≠ "open") then
        emit (EditText TVotingClosed None);; mret VoteClosed
      else
        set_vote sid from_user value;;
        (if decide (id from_user = s_creator_id session) then
           emit (EditText (TVoteSavedAsCreator value) (Some (VoteKeyboard sid)))
         else emit (EditText (TVoteSaved value) None));;
        auto_reveal session sid;;
        mret VoteSaved
  end.

(** Lines 377-394. *)
Definition cb_reveal (from_user : User) (sid : string) : M reveal_exit :=
  emit (CallbackAnswer None false);;
  session ← get_session sid;
  match session with
  | None => emit (CallbackAnswer (Some TSessionNotFound) true);; mret RevealNotFound
  | Some session =>
      if decide (id from_user ≠ s_creator_id session) then
        emit (CallbackAnswer (Some TOnlyCreatorReveals) true);;
        mret RevealForbidden
      else
        result_text ← compose_and_broadcast_results sid;
        match result_text with
        | None => emit (Reply TNoVotesYet None);; mret RevealNoVotes
        | Some _ => emit (Reply TResultsSent None);; mret Revealed
        end
  end.

(** Lines 396-415. *)
Definition cb_revote (from_user : User) (sid : string) : M revote_exit :=
  emit (CallbackAnswer None false);;
  session ← get_session sid;
  match session with
  | None => emit (CallbackAnswer (Some TSessionNotFound) true);; mret RevoteNotFound
  | Some session =>
      if decide (id from_user ≠ s_creator_id session) then
        emit (CallbackAnswer (Some TOnlyCreatorRevotes) true);;
        mret RevoteForbidden
      else
        clear_votes sid;;
        members ← get_members sid;
        for_each members (λ m,
          send_message (m_user_id m) (TVotesReset (s_title session) sid)
                       (Some (VoteKeyboard sid));; mret tt);;
        emit (Reply TRevoteDone None);;
        mret RevoteDone
  end.

(** Lines 437-442, one row of the roster. *)
Definition member_line (m : member_row) : string * string * string :=
  (if negb (is_empty_string (m_username m)) then "@" +:+ m_username m else "—",
   if negb (is_empty_string (m_first_name m)) then m_first_name m else "—",
   pretty (m_user_id m)).

(** Lines 417-443. *)
Definition cb_members (from_user : User) (sid : string) : M members_exit :=
  emit (CallbackAnswer None false);;
  session ← get_session sid;
  match session with
  | None => emit (CallbackAnswer (Some TSessionNotFound) true);; mret MembersNotFound
  | Some session =>
      if decide (s_status session ≠ "open") then
        emit (CallbackAnswer (Some TNotActive) true);; mret MembersNotActive
      else if decide (id from_user ≠ s_creator_id session) then
        emit (CallbackAnswer (Some TOnlyCreatorMembers) true);;
        mret MembersForbidden
      else
        members ← get_members sid;
        match members with
        | [] => emit (Reply TNobodyJoined None);; mret MembersNobody
        | _ =>
            emit (Reply (TMembers (s_title session) sid (map member_line members))
                        None);;
            mret MembersListed
        end
  end.

(** Lines 500-515. *)
Definition cmd_close_session (from_user : User) (args : option string) : M close_exit :=
  if is_empty_string (or_empty args) then
    emit (Reply TUsageCloseSession None);; mret CloseUsage
  else
    let sid := strip E (or_empty args) in
    session ← get_session sid;
    match session with
    | None => emit (Reply TSessionNotFound None);; mret CloseNotFound
    | Some session =>
        if decide (id from_user ≠ s_creator_id session) then
          emit (Reply TOnlyCreatorCloses None);; mret CloseForbidden
        else
          set_session_status sid "closed";;
          emit (Reply (TSessionClosed sid) None);;
          mret CloseDone
    end.

(** The handlers that write to the store, as one step function.  The other
    handlers of the source ([/start], [/help], [/my_sessions], [/session],
    [/export_csv], [info|...]) only read it. *)
Inductive request :=
  | ReqNewSession (from_user : User) (args : option string)
  | ReqJoin (from_user : User) (sid : string)
  | ReqVote (from_user : User) (sid value : string)
  | ReqReveal (from_user : User) (sid : string)
  | ReqRevote (from_user : User) (sid : string)
  | ReqMembers (from_user : User) (sid : string)
  | ReqCloseSession (from_user : User) (args : option string).

Definition handle (r : request) : M unit :=
  match r with
  | ReqNewSession u a => cmd_new_session u a;; mret tt
  | ReqJoin u s => cb_join u s;; mret tt
  | ReqVote u s v => cb_vote u s v;; mret tt
  | ReqReveal u s => cb_reveal u s;; mret tt
  | ReqRevote u s => cb_revote u s;; mret tt
  | ReqMembers u s => cb_members u s;; mret tt
  | ReqCloseSession u a => cmd_close_session u a;; mret tt
  end.

Definition run (rs : list request) : M unit := for_each rs handle.

End Handlers.


(** * Vocabulary of the statements *)

(** ** Worlds and logs *)

Definition attempt (E : env) (chat_id : Z) (t : text) (kb : option keyboard) : event :=
  if deliver E chat_id then SendMessage chat_id t kb else SendFailed chat_id t.

Definition log (evs : list event) (w : world) : world :=
  mkWorld (db w) (ticks w) (draws w) (sent w ++ evs).

Definition set_db (d : database) (w : world) : world :=
  mkWorld d (ticks w) (draws w) (sent w).

Definition tick (w : world) : world :=
  mkWorld (db w) (S (ticks w)) (draws w) (sent w).

(** The events of a broadcast of [t] to [members]. *)
Definition broadcast (E : env) (members : list member_row) (t : text) : list event :=
  map (λ m, attempt E (m_user_id m) t None) members.

(** The store after [set_vote], and the acknowledgement cb_vote shows. *)
Definition voted (E : env) (from_user : User) (sid value : string) (w : world)
  : database :=
  db_insert_or_replace_vote (mkVote sid (id from_user) value (iso E (ticks w))) (db w).

Definition vote_ack (from_user : User) (session : session_row) (sid value : string)
  : event :=
  if decide (id from_user = s_creator_id session)
  then EditText (TVoteSavedAsCreator value) (Some (VoteKeyboard sid))
  else EditText (TVoteSaved value) None.

(** The row [add_member] offers to the table. *)
Definition joining (E : env) (from_user : User) (sid : string) (w : world)
  : member_row :=
  mkMember sid (id from_user) (or_empty (username from_user)) (full_name from_user)
           (iso E (ticks w)).

(** ** The automatic reveal *)

(** Whether the check of lines 362-366 lets the reveal run on a store. *)
Definition all_voted (sid : string) (d : database) : bool :=
  let unique_voters : gset Z := list_to_set (map v_user_id (db_get_votes sid d)) in
  negb (bool_decide (db_get_members sid d = []))
  && bool_decide (size unique_voters = length (db_get_members sid d)).

(** What the automatic reveal adds to the log. *)
Definition auto_reveal_events (E : env) (session : session_row) (sid : string)
    (d : database) : list event :=
  if decide (s_status session = "open") then
    if all_voted sid d then
      match db_get_session sid d, db_get_votes sid d with
      | Some session', (_ :: _) as votes =>
          broadcast E (db_get_members sid d)
                    (TResults (compose_text session' sid votes (db_get_members sid d)))
            ++ [attempt E (s_creator_id session) TAllVoted None]
      | _, _ => []
      end
    else []
  else [].

(** ** Counting *)

Definition is_results (e : event) : bool :=
  match e with
  | SendMessage _ (TResults _) _ | SendFailed _ (TResults _) => true
  | _ => false
  end.

Definition results_sent (evs : list event) : nat := length (filter is_results evs).

(** Number of votes holding a value. *)
Definition votes_for (opt : string) (votes : list vote_row) : nat :=
  length (filter (λ v, v_value v = opt) votes).

(** ** Primary keys *)

(** No two rows of session_members, and no two rows of votes, share their
    (session, user) key. *)
Definition db_ok (d : database) : Prop :=
  NoDup (map member_key (session_members d)) ∧ NoDup (map vote_key (votes d)).

(** ** The card values *)

(** The numbers of the cards as the specification gives them, to compare
    the loop of lines 158-169 with: [½] is 0.5, every other card but [?] is
    its literal value, and [?] has none. *)
Definition card_values : list (string * Q) :=
  [("0", 0); ("½", 1 # 2); ("1", 1); ("2", 2); ("3", 3); ("5", 5); ("8", 8);
   ("13", 13); ("20", 20); ("40", 40); ("100", 100)]%Q.

Definition card_value (token : string) : option Q :=
  (list_to_map card_values : gmap string Q) !! token.

Definition card_numbers : list Q := card_values.*2.

(** What one step of the loop of lines 158-169 appends for a value. *)
Definition py_value (val : string) : option Q :=
  if decide (val = "?") then None
  else if decide (val = "½") then Some (1 # 2)%Q
  else py_float val.

(** ** Sample worlds *)

Definition env0 : env :=
  mkEnv (λ n, "t" +:+ pretty n) (λ n, "s" +:+ pretty n) (λ _, true) (λ s, s).

Definition world0 : world := mkWorld (mkDb [] [] []) 0 0 [].

Definition ann : User := mkUser 1 (Some "ann") "Ann".
Definition bob : User := mkUser 2 None "Bob".

Definition zoe : User := mkUser 9 (Some "zoe") "Zoe".

(** Ann has opened session [s0] and is its only member. *)
Definition world_open : world := (run env0 [ReqNewSession ann (Some "Task")] world0).2.

(** Ann has opened session [s0] and closed it again. *)
Definition world_closed : world :=
  (run env0 [ReqNewSession ann (Some "Task"); ReqCloseSession ann (Some "s0")] world0).2.

Definition session0 (status : string) : session_row :=
  mkSession "s0" 1 "Ann" "Task" "" "t0" status.

(** ** Statements of the specification that the code does not meet *)

(** A value outside the card set is refused and the votes stay as they are. *)
Definition invalid_value_rejected : Prop :=
  ∀ E from_user sid value w session,
    db_get_session sid (db w) = Some session →
    s_status session = "open" →
    value ∉ VOTE_OPTIONS →
    (cb_vote E from_user sid value w).1 ≠ VoteSaved
    ∧ votes (db (cb_vote E from_user sid value w).2) = votes (db w).

(** An accepted vote leaves its voter with a membership row. *)
Definition vote_inserts_membership : Prop :=
  ∀ E from_user sid value w,
    (cb_vote E from_user sid value w).1 = VoteSaved →
    (sid, id from_user)
      ∈ map member_key (session_members (db (cb_vote E from_user sid value w).2)).

(** Once the results went out for a complete set of voters, a second vote by
    the same voter sends none. *)
Definition reveal_once_per_completion : Prop :=
  ∀ E from_user sid v1 v2 w,
    let w1 := (cb_vote E from_user sid v1 w).2 in
    let w2 := (cb_vote E from_user sid v2 w1).2 in
    (results_sent (sent w) < results_sent (sent w1))%nat →
    results_sent (sent w2) = results_sent (sent w1).

(** The not-voted lines name the members without a vote in the order in
    which they joined: the order of their rows in session_members, which
    every join extends at its end. *)
Definition roster_in_join_order : Prop :=
  ∀ E requests sid,
    let d := db (run E requests world0).2 in
    not_voted (db_get_votes sid d) (db_get_members sid d)
    = not_voted (db_get_votes sid d)
                (filter (λ r, m_session_id r = sid) (session_members d)).

(** Zoe opens session [s0], Ann and Bob join it, in this order, and Bob
    votes. *)
Definition zoe_ann_bob : list request :=
  [ReqNewSession zoe (Some "Task"); ReqJoin ann "s0"; ReqJoin bob "s0";
   ReqVote bob "s0" "3"].

(** * Further parts of the program *)

(** ** Keyboards and callback data (lines 216-245) *)

Record button := mkButton {
  b_text : string;
  b_callback_data : string }.

Definition vote_button (session_id opt : string) : button :=
  mkButton opt ("vote|" +:+ session_id +:+ "|" +:+ opt).

(** [enumerate(l, start)]. *)
Definition enumerate {A} (start : nat) (l : list A) : list (nat * A) :=
  zip (seq start (length l)) l.

(** One turn of the loop of lines 220-226; the state is the rows closed so
    far and the row being filled.  [kb.row] closes a row (it keeps up to
    eight buttons on one row, and is given at most four here). *)
Definition keyboard_step (session_id : string)
    (st : list (list button) * list button) (ix : nat * string)
  : list (list button) * list button :=
  let row := st.2 ++ [vote_button session_id ix.2] in
  if (ix.1 mod 4 =? 0)%nat then (st.1 ++ [row], []) else (st.1, row).

(** Lines 219-228, for any list of options. *)
Definition option_rows (session_id : string) (opts : list string) : list (list button) :=
  let st := foldl (keyboard_step session_id) ([], []) (enumerate 1 opts) in
  match st.2 with
  | [] => st.1
  | row => st.1 ++ [row]
  end.

Definition build_vote_keyboard (session_id : string) : list (list button) :=
  option_rows session_id VOTE_OPTIONS
    ++ [[mkButton "Показать результаты (только ведущий)" ("reveal|" +:+ session_id);
         mkButton "Переголосовать (сброс голосов, только ведущий)"
                  ("revote|" +:+ session_id)];
        [mkButton "Участники" ("members|" +:+ session_id)]].

Definition build_session_buttons (session_id : string) : list (list button) :=
  [[mkButton "Присоединиться и проголосовать" ("join|" +:+ session_id);
    mkButton "Инструкция" ("info|" +:+ session_id)]].

(** ** Routing of a callback (the filters and the first lines of the
    handlers, lines 305-308, 330-333, 377-380, 396-399, 417-420, 445-448) *)

(** [s.split(sep, maxsplit)] for a separator of one character. *)
Fixpoint py_split (sep : ascii) (maxsplit : nat) (s : string) : list string :=
  match s with
  | EmptyString => [EmptyString]
  | String c s' =>
      match maxsplit with
      | O => [s]
      | S k =>
          if decide (c = sep) then EmptyString :: py_split sep k s'
          else match py_split sep maxsplit s' with
               | p :: ps => String c p :: ps
               | [] => [String c EmptyString]
               end
      end
  end.

Definition bar : ascii := "|"%char.

(** Where a callback goes: the first handler whose filter accepts the data,
    with the values its unpacking of the split binds; [Raises] when the
    unpacking fails (ValueError), [NoHandler] when no filter accepts. *)
Inductive route :=
  | ToJoin (sid : string)
  | ToVote (sid value : string)
  | ToReveal (sid : string)
  | ToRevote (sid : string)
  | ToMembers (sid : string)
  | ToInfo (sid : string)
  | Raises
  | NoHandler.

(** [_, sid = data.split("|", 1)]. *)
Definition unpack_sid (to : string → route) (data : string) : route :=
  match py_split bar 1 data with
  | [_; sid] => to sid
  | _ => Raises
  end.

Definition route_callback (data : option string) : route :=
  match data with
  | None => NoHandler
  | Some data =>
      if String.prefix "join|" data then unpack_sid ToJoin data
      else if String.prefix "vote|" data then
        match py_split bar 2 data with
        | [_; sid; value] => ToVote sid value
        | _ => Raises
        end
      else if String.prefix "reveal|" data then unpack_sid ToReveal data
      else if String.prefix "revote|" data then unpack_sid ToRevote data
      else if String.prefix "members|" data then unpack_sid ToMembers data
      else if String.prefix "info|" data then unpack_sid ToInfo data
      else NoHandler
  end.

(** A string without the bar, as the session ids are ([token_urlsafe]
    draws from letters, digits, [-] and [_]). *)
Fixpoint no_bar (s : string) : bool :=
  match s with
  | EmptyString => true
  | String c s' => negb (bool_decide (c = bar)) && no_bar s'
  end.

(** ** Read-only commands *)

(** [/my_sessions] (lines 289-302): [None] is the "no sessions yet" reply,
    otherwise one line per session of the user, with title, id, status and
    creation time. *)
Definition cmd_my_sessions (from_user : User) (d : database)
  : option (list (string * string * string * string)) :=
  match filter (λ r, s_creator_id r = id from_user) (sessions d) with
  | [] => None
  | rows => Some (map (λ r, (s_title r, s_id r, s_status r, s_created_at r)) rows)
  end.

(** [/session <id>] (lines 518-533). *)
Inductive session_reply :=
  | SessionUsage
  | SessionUnknown
  | SessionInfo (title sid status creator_name created_at : string)
                (n_members n_votes : nat).

Definition cmd_session (E : env) (args : option string) (d : database) : session_reply :=
  if is_empty_string (or_empty args) then SessionUsage
  else
    let sid := strip E (or_empty args) in
    match db_get_session sid d with
    | None => SessionUnknown
    | Some session =>
        SessionInfo (s_title session) sid (s_status session) (s_creator_name session)
                    (s_created_at session)
                    (length (db_get_members sid d)) (length (db_get_votes sid d))
    end.

(** ** More vocabulary *)

(** No two sessions share their id. *)
Definition sessions_ok (d : database) : Prop := NoDup (map s_id (sessions d)).

(** A session row and a later state of it: all columns as they were, but
    for the status, which is as it was or closed. *)
Definition session_kept (s s' : session_row) : Prop :=
  s_id s' = s_id s
  ∧ s_creator_id s' = s_creator_id s
  ∧ s_creator_name s' = s_creator_name s
  ∧ s_title s' = s_title s
  ∧ s_description s' = s_description s
  ∧ s_created_at s' = s_created_at s
  ∧ (s_status s' = s_status s ∨ s_status s' = "closed").

(** Every vote of the session is by one of its members. *)
Definition voters_are_members (sid : string) (d : database) : Prop :=
  ∀ v, v ∈ db_get_votes sid d →
       v_user_id v ∈ map m_user_id (db_get_members sid d).

(** Every member of the session has a vote. *)
Definition every_member_voted (sid : string) (d : database) : Prop :=
  ∀ m, m ∈ db_get_members sid d →
       m_user_id m ∈ map v_user_id (db_get_votes sid d).

(** The sum of the counts on the count lines of a text. *)
Definition counted (lines : list line) : nat :=
  foldr (λ l acc, match l with LCount _ n => (n + acc)%nat | _ => acc end) 0%nat lines.

(** A rational in lowest terms. *)
Definition canonical (q : Q) : Prop := Qred q = q.

(** An environment in which no direct message gets through. *)
Definition env_mute : env :=
  mkEnv (λ n, "t" +:+ pretty n) (λ n, "s" +:+ pretty n) (λ _, false) (λ s, s).

(** Ann and Bob are the members of the open session [s0]; nobody voted. *)
Definition world_two : world :=
  (run env0 [ReqNewSession ann (Some "Task"); ReqJoin bob "s0"] world0).2.

(** * Properties *)

(** ** The order of the rows of a session *)

Ltac to_fmap := repeat change (map ?f ?l) with (f <$> l) in *.

Section by_user_id.
Context {A : Type} (user_id : A → Z).

Lemma insert_by_user_id_perm x l : insert_by_user_id user_id x l ≡ₚ x :: l.
Proof.
  induction l as [|y l IH]; [done|]. cbn [insert_by_user_id].
  destruct (decide _); [done|]. by rewrite IH, Permutation_swap.
Qed.

Lemma by_user_id_perm l : by_user_id user_id l ≡ₚ l.
Proof.
  induction l as [|x l IH]; [done|]. cbn [by_user_id foldr].
  fold (by_user_id user_id l). by rewrite insert_by_user_id_perm, IH.
Qed.

Lemma by_user_id_elem_of x l : x ∈ by_user_id user_id l ↔ x ∈ l.
Proof. by rewrite by_user_id_perm. Qed.

Lemma by_user_id_length l : length (by_user_id user_id l) = length l.
Proof. by rewrite by_user_id_perm. Qed.

Lemma by_user_id_nil l : by_user_id user_id l = [] ↔ l = [].
Proof.
  split; [|by intros ->]. intros H. apply Permutation_nil_r.
  by rewrite <- H, by_user_id_perm.
Qed.

Lemma by_user_id_map {B} (f : A → B) l : map f (by_user_id user_id l) ≡ₚ map f l.
Proof. to_fmap. by rewrite by_user_id_perm. Qed.

Lemma insert_by_user_id_first x l :
  Forall (λ y, user_id x ≤ user_id y) l → insert_by_user_id user_id x l = x :: l.
Proof.
  destruct l as [|y l]; [done|]. intros [Hy _]%Forall_cons.
  cbn [insert_by_user_id]. by destruct (decide _).
Qed.

Lemma insert_by_user_id_sorted x l :
  StronglySorted (λ a b, user_id a ≤ user_id b) l →
  StronglySorted (λ a b, user_id a ≤ user_id b) (insert_by_user_id user_id x l).
Proof.
  induction l as [|y l IH]; intros Hl; cbn [insert_by_user_id].
  - repeat constructor.
  - apply StronglySorted_inv in Hl as [Hl Hy].
    destruct (decide (user_id x ≤ user_id y)) as [Hxy|Hxy].
    + constructor; [by constructor|]. constructor; [done|].
      eapply Forall_impl; [exact Hy|]. cbn. intros z Hz. lia.
    + constructor; [by apply IH|].
      rewrite insert_by_user_id_perm. constructor; [lia|done].
Qed.

Lemma by_user_id_sorted l :
  StronglySorted (λ a b, user_id a ≤ user_id b) (by_user_id user_id l).
Proof.
  induction l as [|x l IH]; [constructor|].
  cbn [by_user_id foldr]. by apply insert_by_user_id_sorted.
Qed.

(** Rows already in the order of the index are returned as they are. *)
Lemma by_user_id_of_sorted l :
  StronglySorted (λ a b, user_id a ≤ user_id b) l → by_user_id user_id l = l.
Proof.
  induction l as [|x l IH]; [done|]. intros [Hl Hx]%StronglySorted_inv.
  cbn [by_user_id foldr]. fold (by_user_id user_id l).
  rewrite (IH Hl). by apply insert_by_user_id_first.
Qed.

Lemma insert_by_user_id_filter (P : A → Prop) `{∀ x, Decision (P x)} x l :
  StronglySorted (λ a b, user_id a ≤ user_id b) l →
  filter P (insert_by_user_id user_id x l)
  = if decide (P x) then insert_by_user_id user_id x (filter P l) else filter P l.
Proof.
  induction l as [|y l IH]; intros Hl; cbn [insert_by_user_id].
  - rewrite filter_cons, filter_nil. by destruct (decide (P x)).
  - apply StronglySorted_inv in Hl as [Hl Hy].
    destruct (decide (user_id x ≤ user_id y)) as [Hxy|Hxy].
    + rewrite (filter_cons P x). destruct (decide (P x)); [|done].
      symmetry. apply insert_by_user_id_first.
      apply Forall_forall. intros z Hz.
      apply list_elem_of_filter in Hz as [_ Hz].
      apply elem_of_cons in Hz as [->|Hz]; [done|].
      rewrite Forall_forall in Hy. specialize (Hy z Hz). cbn in Hy. lia.
    + rewrite !(filter_cons P y), (IH Hl).
      destruct (decide (P y)); [|done].
      destruct (decide (P x)); [|done].
      cbn [insert_by_user_id]. by destruct (decide (user_id x ≤ user_id y)).
Qed.

(** Selecting among the rows and ordering them commute. *)
Lemma by_user_id_filter (P : A → Prop) `{∀ x, Decision (P x)} l :
  filter P (by_user_id user_id l) = by_user_id user_id (filter P l).
Proof.
  induction l as [|x l IH]; [done|]. cbn [by_user_id foldr].
  fold (by_user_id user_id l).
  rewrite insert_by_user_id_filter by apply by_user_id_sorted.
  rewrite filter_cons, IH. by destruct (decide (P x)).
Qed.

(** With one row per user the user ids come back strictly ascending. *)
Lemma by_user_id_ascending l :
  NoDup (map user_id l) →
  StronglySorted Z.lt (map user_id (by_user_id user_id l)).
Proof.
  intros Hnd.
  assert (Hnd' : NoDup (map user_id (by_user_id user_id l)))
    by (by rewrite by_user_id_map).
  pose proof (by_user_id_sorted l) as Hs.
  induction Hs as [|x l' Hl' IH Hx]; [constructor|].
  cbn [map] in *. apply NoDup_cons in Hnd' as [Hx' Hnd'].
  constructor; [by apply IH|].
  apply Forall_forall. intros z Hz. to_fmap.
  apply list_elem_of_fmap in Hz as (y & -> & Hy).
  rewrite Forall_forall in Hx. specialize (Hx y Hy). cbn in Hx.
  assert (user_id x ≠ user_id y); [|lia].
  intros Heq. apply Hx'. rewrite Heq. by apply list_elem_of_fmap_2.
Qed.
End by_user_id.

Lemma db_get_members_perm sid d :
  db_get_members sid d ≡ₚ filter (λ r, m_session_id r = sid) (session_members d).
Proof. apply by_user_id_perm. Qed.

Lemma db_get_votes_perm sid d :
  db_get_votes sid d ≡ₚ filter (λ r, v_session_id r = sid) (votes d).
Proof. apply by_user_id_perm. Qed.

Lemma elem_of_db_get_members sid d m :
  m ∈ db_get_members sid d ↔ m_session_id m = sid ∧ m ∈ session_members d.
Proof. by rewrite db_get_members_perm, list_elem_of_filter. Qed.

Lemma elem_of_db_get_votes sid d v :
  v ∈ db_get_votes sid d ↔ v_session_id v = sid ∧ v ∈ votes d.
Proof. by rewrite db_get_votes_perm, list_elem_of_filter. Qed.

Lemma db_get_members_nil sid d :
  db_get_members sid d = []
  ↔ filter (λ r, m_session_id r = sid) (session_members d) = [].
Proof. apply by_user_id_nil. Qed.

Lemma db_get_votes_nil sid d :
  db_get_votes sid d = [] ↔ filter (λ r, v_session_id r = sid) (votes d) = [].
Proof. apply by_user_id_nil. Qed.


(** ** Running a handler

    [m w] is the pair of the handler's outcome and the world it leaves. *)

Lemma bind_run {A B} (m : M A) (k : A → M B) w :
  (m ≫= k) w = k (m w).1 (m w).2.
Proof. unfold mbind, M_bind. destruct (m w); reflexivity. Qed.

Lemma ret_run {A} (a : A) w : @mret M _ A a w = (a, w).
Proof. reflexivity. Qed.

Lemma emit_run e w : emit e w = (tt, log [e] w).
Proof. reflexivity. Qed.

Lemma read_db_run {A} (f : database → A) w : read_db f w = (f (db w), w).
Proof. reflexivity. Qed.

Lemma write_db_run f w : write_db f w = (tt, set_db (f (db w)) w).
Proof. reflexivity. Qed.

Lemma now_iso_run E w : now_iso E w = (iso E (ticks w), tick w).
Proof. reflexivity. Qed.

Lemma send_message_run E chat_id t kb w :
  send_message E chat_id t kb w = (deliver E chat_id, log [attempt E chat_id t kb] w).
Proof.
  unfold send_message, attempt. destruct (deliver E chat_id); reflexivity.
Qed.

Lemma log_log evs evs' w : log evs' (log evs w) = log (evs ++ evs') w.
Proof. unfold log; cbn. by rewrite app_assoc. Qed.

Lemma log_nil w : log [] w = w.
Proof. unfold log. rewrite app_nil_r. by destruct w. Qed.

Lemma db_log evs w : db (log evs w) = db w.
Proof. reflexivity. Qed.

Lemma db_tick w : db (tick w) = db w.
Proof. reflexivity. Qed.

Lemma db_set_db d w : db (set_db d w) = d.
Proof. reflexivity. Qed.

Lemma sent_log evs w : sent (log evs w) = sent w ++ evs.
Proof. reflexivity. Qed.

Lemma ticks_log evs w : ticks (log evs w) = ticks w.
Proof. reflexivity. Qed.

(** One step of symbolic execution of a handler. *)
Ltac run_m :=
  repeat (progress (
    rewrite ?bind_run, ?ret_run, ?emit_run, ?read_db_run, ?write_db_run,
            ?now_iso_run, ?send_message_run;
    cbv beta; cbn [fst snd];
    rewrite ?db_log, ?db_tick, ?db_set_db, ?ticks_log)).

Lemma for_each_log {A} (l : list A) (body : A → M unit) (ev : A → event) :
  (∀ x w, body x w = (tt, log [ev x] w)) →
  ∀ w, for_each l body w = (tt, log (map ev l) w).
Proof.
  intros Hbody. induction l as [|x l IH]; intros w; cbn [for_each map].
  - by rewrite ret_run, log_nil.
  - run_m. rewrite Hbody. cbn [fst snd]. rewrite IH, log_log. reflexivity.
Qed.

Lemma for_each_send_run E (members : list member_row) t kb w :
  for_each members (λ m, send_message E (m_user_id m) t kb;; mret tt) w =
    (tt, log (map (λ m, attempt E (m_user_id m) t kb) members) w).
Proof.
  apply for_each_log. intros m w'. run_m. reflexivity.
Qed.

Lemma compose_and_broadcast_results_run E sid w :
  compose_and_broadcast_results E sid w =
    match db_get_session sid (db w), db_get_votes sid (db w) with
    | Some session, (_ :: _) as votes =>
        let members := db_get_members sid (db w) in
        let result_text := compose_text session sid votes members in
        (Some result_text,
         log (map (λ m, attempt E (m_user_id m) (TResults result_text) None) members) w)
    | _, _ => (None, w)
    end.
Proof.
  unfold compose_and_broadcast_results, get_session, get_votes, get_members.
  run_m.
  destruct (db_get_session sid (db w)) as [session|]; [|reflexivity].
  run_m.
  destruct (db_get_votes sid (db w)) as [|v votes]; [reflexivity|].
  run_m. rewrite for_each_send_run. reflexivity.
Qed.

Lemma compose_and_broadcast_results_db E sid w :
  db (compose_and_broadcast_results E sid w).2 = db w.
Proof.
  rewrite compose_and_broadcast_results_run.
  destruct (db_get_session sid (db w)); [|reflexivity].
  destruct (db_get_votes sid (db w)); reflexivity.
Qed.

Lemma auto_reveal_run E session sid w :
  auto_reveal E session sid w = (tt, log (auto_reveal_events E session sid (db w)) w).
Proof.
  unfold auto_reveal, auto_reveal_events, all_voted, get_members, get_votes.
  destruct (decide (s_status session = "open")); [|by rewrite ret_run, log_nil].
  run_m.
  destruct (negb _ && _); [|by rewrite ret_run, log_nil].
  run_m. rewrite compose_and_broadcast_results_run.
  destruct (db_get_session sid (db w)) as [session'|];
    [|cbn [fst snd]; by rewrite ret_run, log_nil].
  destruct (db_get_votes sid (db w)) as [|v votes];
    [cbn [fst snd]; by rewrite ret_run, log_nil|].
  cbv zeta. cbn [fst snd]. run_m. rewrite log_log. reflexivity.
Qed.

Lemma cb_vote_run E from_user sid value w :
  cb_vote E from_user sid value w =
    match db_get_session sid (db w) with
    | None => (VoteNotFound,
               log [CallbackAnswer None false; EditText TSessionNotFound None] w)
    | Some session =>
        if decide (s_status session ≠ "open") then
          (VoteClosed, log [CallbackAnswer None false; EditText TVotingClosed None] w)
        else
          let d := voted E from_user sid value w in
          (VoteSaved,
           log ([CallbackAnswer None false; vote_ack from_user session sid value]
                  ++ auto_reveal_events E session sid d)
               (set_db d (tick w)))
    end.
Proof.
  unfold cb_vote, get_session, set_vote. run_m.
  destruct (db_get_session sid (db w)) as [session|];
    [|run_m; by rewrite log_log].
  destruct (decide (s_status session ≠ "open")).
  { run_m. by rewrite log_log. }
  run_m. cbv zeta. f_equal.
  assert (Hack : ∀ w0,
    (if decide (id from_user = s_creator_id session)
     then emit (EditText (TVoteSavedAsCreator value) (Some (VoteKeyboard sid)))
     else emit (EditText (TVoteSaved value) None)) w0
    = (tt, log [vote_ack from_user session sid value] w0)).
  { intros w0. unfold vote_ack. by destruct (decide _). }
  rewrite Hack. cbn [fst snd]. rewrite auto_reveal_run. cbn [fst snd].
  unfold voted, log, set_db, tick. cbn [db ticks draws sent].
  rewrite <- !app_assoc. reflexivity.
Qed.

Lemma cb_reveal_run E from_user sid w :
  cb_reveal E from_user sid w =
    match db_get_session sid (db w) with
    | None => (RevealNotFound,
               log [CallbackAnswer None false;
                    CallbackAnswer (Some TSessionNotFound) true] w)
    | Some session =>
        if decide (id from_user ≠ s_creator_id session) then
          (RevealForbidden,
           log [CallbackAnswer None false;
                CallbackAnswer (Some TOnlyCreatorReveals) true] w)
        else
          match db_get_votes sid (db w) with
          | [] => (RevealNoVotes,
                   log [CallbackAnswer None false; Reply TNoVotesYet None] w)
          | votes =>
              let members := db_get_members sid (db w) in
              (Revealed,
               log ([CallbackAnswer None false]
                      ++ broadcast E members
                           (TResults (compose_text session sid votes members))
                      ++ [Reply TResultsSent None]) w)
          end
    end.
Proof.
  unfold cb_reveal, get_session. run_m.
  destruct (db_get_session sid (db w)) as [session|] eqn:Hs;
    [|run_m; by rewrite log_log].
  destruct (decide (id from_user ≠ s_creator_id session)).
  { run_m. by rewrite log_log. }
  run_m. rewrite compose_and_broadcast_results_run. rewrite db_log, Hs.
  destruct (db_get_votes sid (db w)) as [|v votes].
  { cbn [fst snd]. run_m. by rewrite log_log. }
  cbv zeta. cbn [fst snd]. run_m. rewrite !log_log.
 reflexivity.
Qed.

Lemma cb_members_run from_user sid w :
  cb_members from_user sid w =
    match db_get_session sid (db w) with
    | None => (MembersNotFound,
               log [CallbackAnswer None false;
                    CallbackAnswer (Some TSessionNotFound) true] w)
    | Some session =>
        if decide (s_status session ≠ "open") then
          (MembersNotActive,
           log [CallbackAnswer None false; CallbackAnswer (Some TNotActive) true] w)
        else if decide (id from_user ≠ s_creator_id session) then
          (MembersForbidden,
           log [CallbackAnswer None false;
                CallbackAnswer (Some TOnlyCreatorMembers) true] w)
        else
          match db_get_members sid (db w) with
          | [] => (MembersNobody,
                   log [CallbackAnswer None false; Reply TNobodyJoined None] w)
          | members =>
              (MembersListed,
               log [CallbackAnswer None false;
                    Reply (TMembers (s_title session) sid (map member_line members))
                          None] w)
          end
    end.
Proof.
  unfold cb_members, get_session, get_members. run_m.
  destruct (db_get_session sid (db w)) as [session|];
    [|run_m; by rewrite log_log].
  destruct (decide (s_status session ≠ "open")).
  { run_m. by rewrite log_log. }
  destruct (decide (id from_user ≠ s_creator_id session)).
  { run_m. by rewrite log_log. }
  run_m. destruct (db_get_members sid (db w)); run_m; by rewrite log_log.
Qed.

Lemma cb_join_run E from_user sid w :
  cb_join E from_user sid w =
    match db_get_session sid (db w) with
    | None => (JoinNotFound,
               log [CallbackAnswer None false; EditText TJoinNotFound None] w)
    | Some session =>
        if decide (s_status session ≠ "open") then
          (JoinClosed, log [CallbackAnswer None false; EditText TJoinClosed None] w)
        else
          (Joined,
           log [CallbackAnswer None false;
                attempt E (id from_user) (TJoined (s_title session) sid)
                        (Some (VoteKeyboard sid));
                if deliver E (id from_user)
                then CallbackAnswer (Some TKeyboardSent) false
                else CallbackAnswer (Some TCannotDM) true]
               (set_db (db_insert_or_ignore_member (joining E from_user sid w) (db w))
                       (tick w)))
    end.
Proof.
  unfold cb_join, get_session, add_member. run_m.
  destruct (db_get_session sid (db w)) as [session|];
    [|run_m; by rewrite log_log].
  destruct (decide (s_status session ≠ "open")).
  { run_m. by rewrite log_log. }
  run_m. f_equal. unfold joining.
  destruct (deliver E (id from_user)); run_m;
    unfold log, set_db, tick; cbn [db ticks draws sent];
    rewrite <- !app_assoc; reflexivity.
Qed.

Lemma cb_revote_db E from_user sid w :
  db (cb_revote E from_user sid w).2 =
    match db_get_session sid (db w) with
    | None => db w
    | Some session =>
        if decide (id from_user ≠ s_creator_id session) then db w
        else db_clear_votes sid (db w)
    end.
Proof.
  unfold cb_revote, get_session, clear_votes, get_members. run_m.
  destruct (db_get_session sid (db w)) as [session|]; [|by run_m].
  destruct (decide (id from_user ≠ s_creator_id session)); [by run_m|].
  run_m.
  rewrite (for_each_log _ _
    (λ m, attempt E (m_user_id m) (TVotesReset (s_title session) sid)
                  (Some (VoteKeyboard sid)))).
  - by run_m.
  - intros m w'. by run_m.
Qed.

Lemma cmd_close_session_db E from_user args w :
  db (cmd_close_session E from_user args w).2 =
    if is_empty_string (or_empty args) then db w
    else
      let sid := strip E (or_empty args) in
      match db_get_session sid (db w) with
      | None => db w
      | Some session =>
          if decide (id from_user ≠ s_creator_id session) then db w
          else db_set_session_status sid "closed" (db w)
      end.
Proof.
  unfold cmd_close_session, get_session, set_session_status.
  destruct (is_empty_string (or_empty args)); [by run_m|].
  run_m. cbv zeta.
  destruct (db_get_session _ (db w)) as [session|]; [|by run_m].
  destruct (decide (id from_user ≠ s_creator_id session)); by run_m.
Qed.

Lemma cmd_new_session_db E from_user args w :
  db (cmd_new_session E from_user args w).2 =
    if is_empty_string (or_empty args) then db w
    else
      let sid := token E (draws w) in
      let row := mkSession sid (id from_user) (full_name from_user) (or_empty args)
                           "" (iso E (ticks w)) "open" in
      match db_insert_session row (db w) with
      | None => db w
      | Some d =>
          db_insert_or_ignore_member
            (mkMember sid (id from_user) (or_empty (username from_user))
                      (full_name from_user) (iso E (S (ticks w)))) d
      end.
Proof.
  unfold cmd_new_session, create_session, add_member, make_session_id.
  destruct (is_empty_string (or_empty args)); [by run_m|].
  run_m. cbn [db ticks draws sent or_empty default]. cbv zeta.
  destruct (db_insert_session _ (db w)) as [d|]; by run_m.
Qed.

Lemma filter_key_replaced {A K} `{EqDecision K} (key : A → K) (r : A) (l : list A) :
  filter (λ x, key x = key r) (filter (λ x, key x ≠ key r) l ++ [r]) = [r].
Proof.
  rewrite filter_app.
  assert (H : filter (λ x, key x = key r) (filter (λ x, key x ≠ key r) l) = []).
  { induction l as [|x l IH]; [done|].
    rewrite (filter_cons (λ x, key x ≠ key r)).
    destruct (decide (key x ≠ key r)) as [Hne|]; [|done].
    rewrite filter_cons. by destruct (decide (key x = key r)). }
  rewrite H. rewrite filter_cons. by destruct (decide (key r = key r)).
Qed.

(** C8. SubmitVote on an existing session that is not open -- CLOSED, the
    only other status the code writes -- leaves by the "voting closed"
    return, and the store, votes included, is what it was; only the two
    transport calls are logged. *)
Theorem cb_vote_closed_session E from_user sid value w session :
  db_get_session sid (db w) = Some session →
  s_status session ≠ "open" →
  (cb_vote E from_user sid value w).1 = VoteClosed
  ∧ db (cb_vote E from_user sid value w).2 = db w
  ∧ votes (db (cb_vote E from_user sid value w).2) = votes (db w)
  ∧ sent (cb_vote E from_user sid value w).2
    = sent w ++ [CallbackAnswer None false; EditText TVotingClosed None].
Proof.
  intros Hs Hst. rewrite cb_vote_run, Hs.
  destruct (decide (s_status session ≠ "open")); [|done].
  cbn [fst snd]. by rewrite db_log, sent_log.
Qed.

Lemma cb_vote_closed_session_witness :
  (cb_vote env0 bob "s0" "5" world_closed).1 = VoteClosed
  ∧ votes (db (cb_vote env0 bob "s0" "5" world_closed).2) = votes (db world_closed).
Proof.
  destruct (cb_vote_closed_session env0 bob "s0" "5" world_closed (session0 "closed"))
    as (H1 & _ & H3 & _).
  - vm_compute. reflexivity.
  - vm_compute. discriminate.
  - split; [exact H1 | exact H3].
Defined.

(** C9. RevealResults on an existing session: a requester other than the
    creator leaves by the "only the creator" return (Forbidden); the creator
    with no vote in the session leaves by the "no votes yet" return
    (NoVotes); and in these two cases as on success the store is untouched,
    so the session and its status are what they were. *)
Theorem cb_reveal_forbidden_no_votes E from_user sid w session :
  db_get_session sid (db w) = Some session →
  (id from_user ≠ s_creator_id session →
     (cb_reveal E from_user sid w).1 = RevealForbidden)
  ∧ (id from_user = s_creator_id session → db_get_votes sid (db w) = [] →
     (cb_reveal E from_user sid w).1 = RevealNoVotes)
  ∧ (id from_user = s_creator_id session → db_get_votes sid (db w) ≠ [] →
     (cb_reveal E from_user sid w).1 = Revealed)
  ∧ db (cb_reveal E from_user sid w).2 = db w
  ∧ (s_status <$> db_get_session sid (db (cb_reveal E from_user sid w).2))
    = Some (s_status session).
Proof.
  intros Hs. rewrite cb_reveal_run, Hs.
  destruct (decide (id from_user ≠ s_creator_id session)) as [Hne|Heq];
    [|destruct (db_get_votes sid (db w)) as [|v votes]];
    cbv zeta; cbn [fst snd]; rewrite ?db_log, ?Hs; repeat split; done.
Qed.

Lemma cb_reveal_forbidden_no_votes_witness :
  (cb_reveal env0 bob "s0" world_open).1 = RevealForbidden
  ∧ (cb_reveal env0 ann "s0" world_open).1 = RevealNoVotes.
Proof.
  split.
  - apply (cb_reveal_forbidden_no_votes env0 bob "s0" world_open (session0 "open"));
      [vm_compute; reflexivity | vm_compute; discriminate].
  - apply (cb_reveal_forbidden_no_votes env0 ann "s0" world_open (session0 "open"));
      vm_compute; reflexivity.
Defined.

(** C10. On an existing session that is not open the roster request leaves
    by the "not active" return for every requester, the creator included:
    the status is tested before the requester is (lines 425-431).  No roster
    is sent and the store is untouched. *)
Theorem cb_members_closed_session from_user sid w session :
  db_get_session sid (db w) = Some session →
  s_status session ≠ "open" →
  (cb_members from_user sid w).1 = MembersNotActive
  ∧ sent (cb_members from_user sid w).2
    = sent w ++ [CallbackAnswer None false; CallbackAnswer (Some TNotActive) true]
  ∧ db (cb_members from_user sid w).2 = db w.
Proof.
  intros Hs Hst. rewrite cb_members_run, Hs.
  destruct (decide (s_status session ≠ "open")); [|done].
  cbn [fst snd]. by rewrite db_log, sent_log.
Qed.

Lemma cb_members_closed_session_witness :
  id ann = s_creator_id (session0 "closed")
  ∧ (cb_members ann "s0" world_closed).1 = MembersNotActive.
Proof.
  split; [reflexivity|].
  apply (cb_members_closed_session ann "s0" world_closed (session0 "closed"));
    [vm_compute; reflexivity | vm_compute; discriminate].
Defined.

(** C1, as the code has it.  A vote on an existing open session is accepted
    whatever its value, card token or not: the call leaves by the "saved"
    return and the value is the one row of the voter in the session. *)
Theorem cb_vote_stores_any_value E from_user sid value w session :
  db_get_session sid (db w) = Some session →
  s_status session = "open" →
  (cb_vote E from_user sid value w).1 = VoteSaved
  ∧ filter (λ r, vote_key r = (sid, id from_user))
           (votes (db (cb_vote E from_user sid value w).2))
    = [mkVote sid (id from_user) value (iso E (ticks w))].
Proof.
  intros Hs Hst. rewrite cb_vote_run, Hs.
  destruct (decide (s_status session ≠ "open")); [done|].
  cbv zeta. cbn [fst snd]. split; [done|].
  rewrite db_log, db_set_db. unfold voted, db_insert_or_replace_vote. cbn [votes].
  apply (filter_key_replaced vote_key (mkVote sid (id from_user) value (iso E (ticks w)))).
Qed.

Lemma cb_vote_stores_any_value_witness :
  ("7" ∉ VOTE_OPTIONS)
  ∧ (cb_vote env0 bob "s0" "7" world_open).1 = VoteSaved
  ∧ filter (λ r, vote_key r = ("s0", 2))
           (votes (db (cb_vote env0 bob "s0" "7" world_open).2))
    = [mkVote "s0" 2 "7" "t2"].
Proof.
  split; [apply (bool_decide_unpack _); vm_compute; exact I|].
  apply (cb_vote_stores_any_value env0 bob "s0" "7" world_open (session0 "open"));
    vm_compute; reflexivity.
Defined.

(** C1 as claimed fails: the value 7, not a card, is stored. *)
Lemma invalid_value_accepted : ¬ invalid_value_rejected.
Proof.
  intros H.
  destruct (H env0 bob "s0" "7" world_open (session0 "open")) as [Hexit _].
  - vm_compute; reflexivity.
  - reflexivity.
  - apply (bool_decide_unpack _); vm_compute; exact I.
  - apply Hexit. vm_compute. reflexivity.
Qed.

Lemma cb_vote_db E from_user sid value w :
  db (cb_vote E from_user sid value w).2 =
    match db_get_session sid (db w) with
    | None => db w
    | Some session =>
        if decide (s_status session ≠ "open") then db w
        else voted E from_user sid value w
    end.
Proof.
  rewrite cb_vote_run.
  destruct (db_get_session sid (db w)) as [session|]; [|done].
  destruct (decide (s_status session ≠ "open")); done.
Qed.

Lemma cb_vote_session_members E from_user sid value w :
  session_members (db (cb_vote E from_user sid value w).2) = session_members (db w).
Proof.
  rewrite cb_vote_db.
  destruct (db_get_session sid (db w)) as [session|]; [|done].
  destruct (decide (s_status session ≠ "open")); done.
Qed.

Lemma cb_vote_sessions E from_user sid value w :
  sessions (db (cb_vote E from_user sid value w).2) = sessions (db w).
Proof.
  rewrite cb_vote_db.
  destruct (db_get_session sid (db w)) as [session|]; [|done].
  destruct (decide (s_status session ≠ "open")); done.
Qed.

(** C3, as the code has it.  cb_vote never writes to session_members: the
    table is the same after the call, so the voter has a membership row
    after an accepted vote exactly when there was one before it. *)
Theorem cb_vote_keeps_members E from_user sid value w :
  session_members (db (cb_vote E from_user sid value w).2) = session_members (db w)
  ∧ ((sid, id from_user)
       ∈ map member_key (session_members (db (cb_vote E from_user sid value w).2))
     ↔ (sid, id from_user) ∈ map member_key (session_members (db w))).
Proof. by rewrite cb_vote_session_members. Qed.

(** C3 as claimed fails: Bob, who never joined, votes and is no member. *)
Lemma vote_without_membership : ¬ vote_inserts_membership.
Proof.
  intros H. specialize (H env0 bob "s0" "3" world_open).
  rewrite cb_vote_session_members in H.
  assert (Hin : ("s0", 2) ∈ [("s0", 1)]) by (apply H; vm_compute; reflexivity).
  apply list_elem_of_singleton in Hin. discriminate.
Qed.

(** ** The store after a vote *)

Lemma votes_of_session_voted E from_user sid value w :
  filter (λ r, v_session_id r = sid) (votes (voted E from_user sid value w))
  = filter (λ r, v_user_id r ≠ id from_user)
           (filter (λ r, v_session_id r = sid) (votes (db w)))
      ++ [mkVote sid (id from_user) value (iso E (ticks w))].
Proof.
  unfold voted, db_insert_or_replace_vote. cbn [votes].
  rewrite filter_app. f_equal.
  - induction (votes (db w)) as [|r l IH]; [done|].
    rewrite (filter_cons (λ x, vote_key x ≠ _)), (filter_cons (λ r, v_session_id r = sid)).
    destruct r as [s u v t]. unfold vote_key in *. cbn [v_session_id v_user_id] in *.
    destruct (decide ((s, u) ≠ (sid, id from_user))) as [Hk|Hk];
      destruct (decide (s = sid)) as [->|Hs].
    + rewrite !filter_cons. cbn [v_session_id v_user_id].
      destruct (decide (sid = sid)); [|done].
      destruct (decide (u ≠ id from_user)) as [Hu|Hu]; [by rewrite IH|].
      exfalso. apply Hu. intros ->. by apply Hk.
    + rewrite filter_cons. cbn [v_session_id].
      destruct (decide (s = sid)); [done|]. exact IH.
    + rewrite filter_cons. cbn [v_user_id].
      destruct (decide (u ≠ id from_user)) as [Hu|Hu]; [|exact IH].
      exfalso. apply Hk. congruence.
    + exfalso. apply Hk. congruence.
  - rewrite filter_cons. cbn [v_session_id]. by destruct (decide (sid = sid)).
Qed.

(** The votes of the session after a vote, up to the order of the rows. *)
Lemma db_get_votes_voted E from_user sid value w :
  db_get_votes sid (voted E from_user sid value w)
  ≡ₚ filter (λ r, v_user_id r ≠ id from_user) (db_get_votes sid (db w))
      ++ [mkVote sid (id from_user) value (iso E (ticks w))].
Proof.
  unfold db_get_votes.
  rewrite by_user_id_perm, votes_of_session_voted, by_user_id_filter.
  by rewrite by_user_id_perm.
Qed.

Lemma db_get_votes_voted_cons E from_user sid value w :
  ∃ v vs, db_get_votes sid (voted E from_user sid value w) = v :: vs.
Proof.
  destruct (db_get_votes sid (voted E from_user sid value w)) as [|v vs] eqn:Hv;
    [|eauto].
  pose proof (db_get_votes_voted E from_user sid value w) as Hp.
  rewrite Hv in Hp. symmetry in Hp. apply Permutation_nil_r in Hp.
  by apply app_eq_nil in Hp as [_ ?].
Qed.

Lemma db_get_members_voted E from_user sid sid' value w :
  db_get_members sid' (voted E from_user sid value w) = db_get_members sid' (db w).
Proof. reflexivity. Qed.

Lemma db_get_session_voted E from_user sid sid' value w :
  db_get_session sid' (voted E from_user sid value w) = db_get_session sid' (db w).
Proof. reflexivity. Qed.

(** The voters of the session after a vote: the voter joins the set. *)
Lemma voters_voted E from_user sid value w :
  (list_to_set (map v_user_id (db_get_votes sid (voted E from_user sid value w))) : gset Z)
  = {[id from_user]} ∪ list_to_set (map v_user_id (db_get_votes sid (db w))).
Proof.
  to_fmap. apply set_eq. intros x.
  rewrite elem_of_union, !elem_of_list_to_set, db_get_votes_voted, fmap_app,
          elem_of_app, !list_elem_of_fmap, elem_of_singleton.
  split.
  - intros [(r & -> & Hr)|(r & -> & Hr)].
    + apply list_elem_of_filter in Hr as [_ Hr]. right. eauto.
    + apply list_elem_of_singleton in Hr as ->. by left.
  - intros [->|(r & -> & Hr)].
    + right. eexists. split; [|apply list_elem_of_singleton; reflexivity]. done.
    + destruct (decide (v_user_id r = id from_user)) as [Heq|Hne].
      * right. eexists. split; [|apply list_elem_of_singleton; reflexivity]. done.
      * left. exists r. split; [done|]. by apply list_elem_of_filter.
Qed.

Lemma NoDup_keys_filter {A K} (key : A → K) (P : A → Prop) `{∀ x, Decision (P x)} l :
  NoDup (map key l) → NoDup (map key (filter P l)).
Proof.
  intros Hl. eapply sublist_NoDup; [exact Hl|].
  to_fmap. apply fmap_sublist, sublist_filter.
Qed.

Lemma db_ok_insert_or_replace_vote r d :
  db_ok d → db_ok (db_insert_or_replace_vote r d).
Proof.
  intros [Hm Hv]. split; [done|]. cbn [db_insert_or_replace_vote votes].
  rewrite map_app. cbn [map].
  apply NoDup_app. split; [by apply NoDup_keys_filter|].
  split; [|apply NoDup_singleton].
  intros k Hk Hk'. apply list_elem_of_singleton in Hk' as ->.
  to_fmap. apply list_elem_of_fmap in Hk as (x & Hx & Hin).
  apply list_elem_of_filter in Hin as [Hne _]. congruence.
Qed.

Lemma member_keys_of_session sid (l : list member_row) :
  map member_key (filter (λ r, m_session_id r = sid) l)
  = map (λ u, (sid, u)) (map m_user_id (filter (λ r, m_session_id r = sid) l)).
Proof.
  rewrite map_map. induction l as [|m l IH]; [done|].
  rewrite filter_cons. destruct (decide (m_session_id m = sid)) as [Hs|]; [|done].
  cbn [map]. rewrite IH. unfold member_key. by rewrite Hs.
Qed.

Lemma member_ids_NoDup sid d :
  db_ok d → NoDup (map m_user_id (db_get_members sid d)).
Proof.
  intros [Hm _]. unfold db_get_members. rewrite by_user_id_map.
  pose proof (NoDup_keys_filter member_key (λ r, m_session_id r = sid) _ Hm) as Hf.
  rewrite member_keys_of_session in Hf. to_fmap. by apply NoDup_fmap_1 in Hf.
Qed.

Lemma all_voted_members_voted sid d :
  db_ok d →
  voters_are_members sid d →
  all_voted sid d = true
  ↔ db_get_members sid d ≠ [] ∧ every_member_voted sid d.
Proof.
  intros Hok Hsub. unfold all_voted, every_member_voted.
  pose proof (member_ids_NoDup sid d Hok) as Hnd.
  set (V := list_to_set (map v_user_id (db_get_votes sid d)) : gset Z).
  set (Ms := list_to_set (map m_user_id (db_get_members sid d)) : gset Z).
  assert (Hsize : size Ms = length (db_get_members sid d)).
  { unfold Ms. rewrite size_list_to_set by done. apply length_map. }
  assert (HV : V ⊆ Ms).
  { intros x Hx. apply elem_of_list_to_set in Hx. apply elem_of_list_to_set.
    to_fmap. apply list_elem_of_fmap in Hx as (v & -> & Hv). by apply Hsub. }
  rewrite andb_true_iff, negb_true_iff, bool_decide_eq_false, bool_decide_eq_true.
  split.
  - intros [Hne Hsz]. split; [done|]. intros m Hm.
    assert (Heq : V = Ms) by (apply set_subseteq_size_eq; [done|lia]).
    apply (elem_of_list_to_set (C:=gset Z)). fold V. rewrite Heq.
    apply elem_of_list_to_set. to_fmap. by apply list_elem_of_fmap_2.
  - intros [Hne Hall]. split; [done|]. rewrite <- Hsize. f_equal.
    apply set_eq. intros x. split; [apply HV|].
    intros Hx. apply elem_of_list_to_set in Hx. to_fmap.
    apply list_elem_of_fmap in Hx as (m & -> & Hm).
    apply elem_of_list_to_set. by apply Hall.
Qed.

Lemma voters_are_members_voted E from_user sid value w :
  voters_are_members sid (db w) →
  id from_user ∈ map m_user_id (db_get_members sid (db w)) →
  voters_are_members sid (voted E from_user sid value w).
Proof.
  intros Hsub Hu v. rewrite db_get_votes_voted, db_get_members_voted.
  rewrite elem_of_app, list_elem_of_singleton, list_elem_of_filter.
  intros [[_ Hv]| ->]; [by apply Hsub|exact Hu].
Qed.

Lemma every_member_voted_voted E from_user sid value w :
  every_member_voted sid (db w) →
  every_member_voted sid (voted E from_user sid value w).
Proof.
  intros Hall m. rewrite db_get_members_voted. intros Hm.
  apply (elem_of_list_to_set (C:=gset Z)). rewrite voters_voted.
  apply elem_of_union. right. apply elem_of_list_to_set. by apply Hall.
Qed.

(** What a vote on an open session logs when the check of lines 362-366
    passes on the store it leaves. *)
Lemma cb_vote_sent_all_voted E from_user sid value w session :
  db_get_session sid (db w) = Some session →
  s_status session = "open" →
  let d := voted E from_user sid value w in
  all_voted sid d = true →
  sent (cb_vote E from_user sid value w).2
  = sent w
      ++ [CallbackAnswer None false; vote_ack from_user session sid value]
      ++ broadcast E (db_get_members sid d)
           (TResults (compose_text session sid (db_get_votes sid d)
                                   (db_get_members sid d)))
      ++ [attempt E (s_creator_id session) TAllVoted None].
Proof.
  intros Hs Hst d Hd.
  rewrite cb_vote_run, Hs.
  destruct (decide (s_status session ≠ "open")); [done|].
  cbv zeta. cbn [fst snd]. rewrite sent_log. cbn [set_db tick sent].
  fold d. unfold auto_reveal_events.
  destruct (decide (s_status session = "open")); [|done].
  rewrite Hd. unfold d at 1. rewrite db_get_session_voted, Hs. fold d.
  destruct (db_get_votes_voted_cons E from_user sid value w) as (v & vs & Hv).
  fold d in Hv. rewrite Hv. reflexivity.
Qed.

Lemma results_sent_app evs evs' :
  results_sent (evs ++ evs') = (results_sent evs + results_sent evs')%nat.
Proof. unfold results_sent. by rewrite filter_app, length_app. Qed.

Lemma results_sent_cons e evs :
  results_sent (e :: evs)
  = ((if is_results e then 1 else 0) + results_sent evs)%nat.
Proof.
  unfold results_sent. rewrite filter_cons.
  destruct (decide (is_results e)) as [H|H]; destruct (is_results e); done.
Qed.

Lemma results_sent_broadcast E members lines :
  results_sent (broadcast E members (TResults lines)) = length members.
Proof.
  unfold results_sent, broadcast.
  induction members as [|m members IH]; [done|].
  cbn [map]. rewrite filter_cons_True; [cbn [length]; by rewrite IH|].
  unfold attempt. by destruct (deliver E (m_user_id m)).
Qed.

(** C4, as the code has it.  Nothing records a reveal: the check of lines
    362-366 is made on the store after every accepted vote.  Take an open
    session whose voter set is complete: only members have voted, and every
    member has.  A further vote of a member is then an overwriting re-vote;
    it leaves the set of voters as it is, so the session stays complete,
    and the results are broadcast once more to every member, followed by
    the notice to the creator.  The same holds after it again, so every
    such re-vote adds one more broadcast. *)
Theorem cb_vote_rebroadcasts E from_user sid value w session :
  db_get_session sid (db w) = Some session →
  s_status session = "open" →
  db_ok (db w) →
  voters_are_members sid (db w) →
  every_member_voted sid (db w) →
  id from_user ∈ map m_user_id (db_get_members sid (db w)) →
  let d := voted E from_user sid value w in
  (list_to_set (map v_user_id (db_get_votes sid d)) : gset Z)
  = list_to_set (map v_user_id (db_get_votes sid (db w)))
  ∧ db_get_members sid d = db_get_members sid (db w)
  ∧ db_ok d ∧ voters_are_members sid d ∧ every_member_voted sid d
  ∧ sent (cb_vote E from_user sid value w).2
    = sent w
        ++ [CallbackAnswer None false; vote_ack from_user session sid value]
        ++ broadcast E (db_get_members sid d)
             (TResults (compose_text session sid (db_get_votes sid d)
                                     (db_get_members sid d)))
        ++ [attempt E (s_creator_id session) TAllVoted None]
  ∧ results_sent (sent (cb_vote E from_user sid value w).2)
    = (results_sent (sent w) + length (db_get_members sid d))%nat
  ∧ (0 < length (db_get_members sid d))%nat.
Proof.
  intros Hs Hst Hok Hsub Hall Hu d.
  assert (Hne : db_get_members sid (db w) ≠ []).
  { intros Hnil. rewrite Hnil in Hu. by apply elem_of_nil in Hu. }
  assert (Hok' : db_ok d) by (by apply db_ok_insert_or_replace_vote).
  assert (Hsub' : voters_are_members sid d) by (by apply voters_are_members_voted).
  assert (Hall' : every_member_voted sid d) by (by apply every_member_voted_voted).
  assert (Hd : all_voted sid d = true).
  { apply all_voted_members_voted; [done..|]. split; [|done].
    unfold d. by rewrite db_get_members_voted. }
  pose proof (cb_vote_sent_all_voted E from_user sid value w session Hs Hst Hd)
    as Hsent.
  split; [|split; [|split; [|split; [|split; [|split; [|split]]]]]]; try done.
  - unfold d. rewrite voters_voted.
    apply set_eq. intros x. rewrite elem_of_union, elem_of_singleton.
    split; [|by right]. intros [->|Hx]; [|done].
    to_fmap. apply list_elem_of_fmap in Hu as (m & -> & Hm).
    apply elem_of_list_to_set. by apply Hall.
  - rewrite Hsent, !results_sent_app, results_sent_broadcast.
    unfold vote_ack, attempt.
    destruct (decide (id from_user = s_creator_id session));
      destruct (deliver E (s_creator_id session));
      rewrite !results_sent_cons; cbn [is_results]; unfold d, results_sent; cbn; lia.

  - unfold d. rewrite db_get_members_voted.
    destruct (db_get_members sid (db w)); [done|cbn; lia].
Qed.

Lemma cb_vote_rebroadcasts_witness :
  let w1 := (cb_vote env0 ann "s0" "3" world_open).2 in
  results_sent (sent w1) = 1%nat
  ∧ results_sent (sent (cb_vote env0 ann "s0" "5" w1).2) = 2%nat.
Proof.
  intros w1. split; [vm_compute; reflexivity|].
  destruct (cb_vote_rebroadcasts env0 ann "s0" "5" w1 (session0 "open"))
    as (_ & _ & _ & _ & _ & _ & Hsent & _).
  - vm_compute; reflexivity.
  - reflexivity.
  - split; apply (bool_decide_unpack _); vm_compute; exact I.
  - intros v Hv. apply (bool_decide_unpack _). revert v Hv.
    apply Forall_forall. vm_compute. repeat constructor.
  - intros m Hm. apply (bool_decide_unpack _). revert m Hm.
    apply Forall_forall. vm_compute. repeat constructor.
  - apply (bool_decide_unpack _); vm_compute; exact I.
  - rewrite Hsent. vm_compute. reflexivity.
Defined.

(** C4 as claimed fails: Ann, the only member, votes 3 and then 5, and the
    results go out both times. *)
Lemma reveal_repeats_on_revote : ¬ reveal_once_per_completion.
Proof.
  intros H. specialize (H env0 ann "s0" "3" "5" world_open).
  cbv zeta in H.
  assert (Hlt : (results_sent (sent world_open)
                 < results_sent (sent (cb_vote env0 ann "s0" "3" world_open).2))%nat)
    by (vm_compute; lia).
  specialize (H Hlt). vm_compute in H. discriminate.
Qed.

(** C2 at the failing input.  Ann is the only member of the open session
    [s0]; Bob, no member, votes.  Voters and members are one each, so the
    check of line 366 passes: the results, which list Ann as not having
    voted, are sent to her together with the "all voted" notice, while the
    set of voters is not the set of members. *)
Theorem auto_reveal_compares_sizes_only :
  let w := (cb_vote env0 bob "s0" "3" world_open).2 in
  map v_user_id (db_get_votes "s0" (db w)) = [2]
  ∧ map m_user_id (db_get_members "s0" (db w)) = [1]
  ∧ sent w
    = sent world_open
        ++ [CallbackAnswer None false;
            EditText (TVoteSaved "3") None;
            SendMessage 1
              (TResults [LTitle "Task" "s0"; LCount "3" 1; LTotal 1; LMean 300;
                         LMedian 3; LNotVotedHeader; LNotVoted "ann"])
              None;
            SendMessage 1 TAllVoted None].
Proof. vm_compute. repeat split; reflexivity. Qed.

Lemma filter_key_absent {A K} `{EqDecision K} (key : A → K) k l :
  k ∉ map key l → filter (λ r, key r = k) l = [].
Proof.
  induction l as [|x l IH]; [done|]. cbn [map]. intros Hk.
  apply not_elem_of_cons in Hk as [Hx Hl].
  rewrite filter_cons. destruct (decide (key x = k)); [congruence|]. by apply IH.
Qed.

Lemma at_most_one_row {A K} `{EqDecision K} (key : A → K) k l :
  NoDup (map key l) → (length (filter (λ r, key r = k) l) ≤ 1)%nat.
Proof.
  induction l as [|x l IH]; [cbn; lia|]. cbn [map]. intros Hnd.
  apply NoDup_cons in Hnd as [Hx Hl].
  rewrite filter_cons. destruct (decide (key x = k)) as [<-|]; [|by apply IH].
  rewrite (filter_key_absent key (key x) l Hx). cbn. lia.
Qed.

Lemma db_ok_insert_or_ignore_member r d :
  db_ok d → db_ok (db_insert_or_ignore_member r d).
Proof.
  intros [Hm Hv]. unfold db_insert_or_ignore_member.
  destruct (decide (member_key r ∈ map member_key (session_members d))) as [|Hr];
    [done|].
  split; [|done]. cbn [session_members]. rewrite map_app. cbn [map].
  apply NoDup_app. split; [done|]. split; [|apply NoDup_singleton].
  intros k Hk Hk'. apply list_elem_of_singleton in Hk' as ->. done.
Qed.

Lemma db_ok_clear_votes sid d : db_ok d → db_ok (db_clear_votes sid d).
Proof.
  intros [Hm Hv]. split; [done|]. cbn [db_clear_votes votes].
  by apply NoDup_keys_filter.
Qed.

Lemma db_ok_insert_session r d d' :
  db_insert_session r d = Some d' → db_ok d → db_ok d'.
Proof.
  unfold db_insert_session. destruct (decide _); [done|].
  intros [= <-]. done.
Qed.

Lemma cb_reveal_db E from_user sid w : db (cb_reveal E from_user sid w).2 = db w.
Proof.
  rewrite cb_reveal_run. destruct (db_get_session sid (db w)) as [session|]; [|done].
  destruct (decide _); [done|]. by destruct (db_get_votes sid (db w)).
Qed.

Lemma handle_run E r w :
  (handle E r w).2 =
    match r with
    | ReqNewSession u a => (cmd_new_session E u a w).2
    | ReqJoin u s => (cb_join E u s w).2
    | ReqVote u s v => (cb_vote E u s v w).2
    | ReqReveal u s => (cb_reveal E u s w).2
    | ReqRevote u s => (cb_revote E u s w).2
    | ReqMembers u s => (cb_members u s w).2
    | ReqCloseSession u a => (cmd_close_session E u a w).2
    end.
Proof. destruct r; unfold handle; by rewrite bind_run, ret_run. Qed.

Lemma run_cons E r rs w : run E (r :: rs) w = run E rs (handle E r w).2.
Proof. unfold run. cbn [for_each]. by rewrite bind_run. Qed.

Lemma run_nil E w : run E [] w = (tt, w).
Proof. reflexivity. Qed.

Lemma handle_db_ok E r w : db_ok (db w) → db_ok (db (handle E r w).2).
Proof.
  intros Hok. rewrite handle_run. destruct r as [u a|u s|u s v|u s|u s|u s|u a].
  - rewrite cmd_new_session_db. destruct (is_empty_string _); [done|]. cbv zeta.
    destruct (db_insert_session _ (db w)) as [d|] eqn:Hd; [|done].
    eauto using db_ok_insert_or_ignore_member, db_ok_insert_session.
  - rewrite cb_join_run. destruct (db_get_session s (db w)) as [session|]; [|done].
    destruct (decide _); [done|]. cbn [snd]. rewrite db_log, db_set_db.
    by apply db_ok_insert_or_ignore_member.
  - rewrite cb_vote_db. destruct (db_get_session s (db w)) as [session|]; [|done].
    destruct (decide _); [done|]. by apply db_ok_insert_or_replace_vote.
  - by rewrite cb_reveal_db.
  - rewrite cb_revote_db. destruct (db_get_session s (db w)) as [session|]; [|done].
    destruct (decide _); [done|]. by apply db_ok_clear_votes.
  - rewrite cb_members_run. destruct (db_get_session s (db w)) as [session|]; [|done].
    destruct (decide _); [done|]. destruct (decide _); [done|].
    by destruct (db_get_members s (db w)).
  - rewrite cmd_close_session_db. destruct (is_empty_string _); [done|]. cbv zeta.
    destruct (db_get_session _ (db w)) as [session|]; [|done].
    destruct (decide _); done.
Qed.

Lemma run_db_ok E rs w : db_ok (db w) → db_ok (db (run E rs w).2).
Proof.
  revert w. induction rs as [|r rs IH]; intros w Hok; [done|].
  rewrite run_cons. by apply IH, handle_db_ok.
Qed.

Lemma db_get_session_after_vote E from_user sid sid' value w :
  db_get_session sid' (db (cb_vote E from_user sid value w).2)
  = db_get_session sid' (db w).
Proof. unfold db_get_session. by rewrite cb_vote_sessions. Qed.

Lemma run_votes_session E from_user sid sid' values w :
  db_get_session sid' (db (run E (map (ReqVote from_user sid) values) w).2)
  = db_get_session sid' (db w).
Proof.
  revert w. induction values as [|v values IH]; intros w; cbn [map]; [done|].
  by rewrite run_cons, handle_run, IH, db_get_session_after_vote.
Qed.

(** The votes of one user in a row, on an open session: the stored value is
    the last one. *)
Lemma run_votes_last E from_user sid session values value w :
  db_get_session sid (db w) = Some session →
  s_status session = "open" →
  map v_value
      (filter (λ r, vote_key r = (sid, id from_user))
              (votes (db (run E (map (ReqVote from_user sid) (values ++ [value])) w).2)))
  = [value].
Proof.
  intros Hs Hst. revert w Hs.
  induction values as [|v values IH]; intros w Hs; cbn [app map];
    rewrite run_cons, handle_run.
  - rewrite run_nil. cbn [snd]. rewrite cb_vote_db, Hs.
    destruct (decide (s_status session ≠ "open")); [done|].
    unfold voted, db_insert_or_replace_vote. cbn [votes].
    by rewrite (filter_key_replaced vote_key
                  (mkVote sid (id from_user) value (iso E (ticks w)))).
  - apply IH. by rewrite db_get_session_after_vote.
Qed.

Lemma member_key_after_insert r d :
  member_key r ∈ map member_key (session_members (db_insert_or_ignore_member r d)).
Proof.
  unfold db_insert_or_ignore_member.
  destruct (decide (member_key r ∈ map member_key (session_members d))); [done|].
  cbn [session_members]. rewrite map_app. apply elem_of_app. right.
  apply list_elem_of_singleton. reflexivity.
Qed.

Lemma db_insert_or_ignore_member_again r r' d :
  member_key r' = member_key r →
  db_insert_or_ignore_member r' (db_insert_or_ignore_member r d)
  = db_insert_or_ignore_member r d.
Proof.
  intros Hk. unfold db_insert_or_ignore_member at 1. rewrite Hk.
  destruct (decide _) as [|Hn]; [done|].
  exfalso. apply Hn, member_key_after_insert.
Qed.

Lemma filter_key_present {A K} `{EqDecision K} (key : A → K) k l :
  k ∈ map key l → (1 ≤ length (filter (λ r, key r = k) l))%nat.
Proof.
  induction l as [|x l IH]; cbn [map]; [by intros ?%elem_of_nil|].
  intros Hk. rewrite filter_cons. destruct (decide (key x = k)); [cbn; lia|].
  apply elem_of_cons in Hk as [Hk|Hk]; [congruence|]. by apply IH.
Qed.

(** C5. Every operation keeps the keys of session_members and of votes free
    of duplicates, so every store reached from the empty one has at most
    one vote row and at most one membership row per (session, user).  Votes
    of one user in one open session, one after the other, are all accepted
    and leave exactly one row, holding the last value; joining a second
    time succeeds like the first and leaves the membership table as the
    first join left it, with one row for the user. *)
Theorem per_key_uniqueness E from_user sid session w :
  db_ok (db w) →
  db_get_session sid (db w) = Some session →
  s_status session = "open" →
  (∀ r, db_ok (db (handle E r w).2))
  ∧ (∀ rs, db_ok (db (run E rs world0).2))
  ∧ (∀ k, (length (filter (λ r, vote_key r = k) (votes (db w))) ≤ 1)%nat
          ∧ (length (filter (λ r, member_key r = k) (session_members (db w))) ≤ 1)%nat)
  ∧ (∀ values value,
       let w1 := (run E (map (ReqVote from_user sid) values) w).2 in
       let w' := (run E (map (ReqVote from_user sid) (values ++ [value])) w).2 in
       (cb_vote E from_user sid value w1).1 = VoteSaved
       ∧ map v_value (filter (λ r, vote_key r = (sid, id from_user)) (votes (db w')))
         = [value])
  ∧ (let r1 := cb_join E from_user sid w in
     let r2 := cb_join E from_user sid r1.2 in
     r1.1 = Joined ∧ r2.1 = Joined
     ∧ session_members (db r2.2) = session_members (db r1.2)
     ∧ length (filter (λ r, member_key r = (sid, id from_user))
                      (session_members (db r2.2))) = 1%nat).
Proof.
  intros Hok Hs Hst. split; [|split; [|split; [|split]]].
  - intros r. by apply handle_db_ok.
  - intros rs. apply run_db_ok. split; apply NoDup_nil_2.
  - intros k. destruct Hok as [Hm Hv]. split; by apply at_most_one_row.
  - intros values value. cbv zeta.
    split; [|by apply (run_votes_last E from_user sid session)].
    rewrite cb_vote_run, run_votes_session, Hs.
    by destruct (decide (s_status session ≠ "open")).
  - cbv zeta.
    assert (Hopen : ¬ s_status session ≠ "open") by (intros H; by apply H).
    rewrite (cb_join_run E from_user sid w), Hs.
    destruct (decide (s_status session ≠ "open")); [done|]. cbn [fst snd].
    rewrite cb_join_run. rewrite db_log, db_set_db.
    assert (Hs' : db_get_session sid
              (db_insert_or_ignore_member (joining E from_user sid w) (db w))
            = Some session).
    { rewrite <- Hs. unfold db_get_session, db_insert_or_ignore_member.
      by destruct (decide _). }
    rewrite Hs'. destruct (decide (s_status session ≠ "open")); [done|].
    cbn [fst snd]. rewrite !db_log, !db_set_db.
    rewrite db_insert_or_ignore_member_again by reflexivity.
    repeat split; try done.
    apply Nat.le_antisymm.
    + apply at_most_one_row.
      by apply (db_ok_insert_or_ignore_member (joining E from_user sid w)) in Hok as [? _].
    + apply filter_key_present.
      apply (member_key_after_insert (joining E from_user sid w)).
Qed.

Lemma per_key_uniqueness_witness :
  db_ok (db (handle env0 (ReqVote ann "s0" "8") world_open).2)
  ∧ map v_value
        (filter (λ r, vote_key r = ("s0", 1))
                (votes (db (run env0 (map (ReqVote ann "s0") (["3"; "5"] ++ ["8"]))
                                world_open).2)))
    = ["8"].
Proof.
  destruct (per_key_uniqueness env0 ann "s0" (session0 "open") world_open)
    as (H1 & _ & _ & H4 & _).
  - split; vm_compute; repeat constructor; by intros ?%elem_of_nil.
  - vm_compute; reflexivity.
  - reflexivity.
  - split; [apply H1 | apply (H4 ["3"; "5"] "8")].
Defined.

(** ** The histogram and the roster *)

Lemma tally_step_counts acc v :
  (tally_step acc v).1
  = <[v_value v := (default 0%nat (acc.1 !! v_value v) + 1)%nat]> acc.1.
Proof.
  unfold tally_step. destruct (decide _); [done|]. destruct (decide _); [done|].
  by destruct (py_float _).
Qed.

Lemma foldl_tally_counts votes acc opt :
  (foldl tally_step acc votes).1 !! opt
  = match acc.1 !! opt, votes_for opt votes with
    | None, O => None
    | o, c => Some (default 0%nat o + c)%nat
    end.
Proof.
  revert acc. induction votes as [|v votes IH]; intros acc.
  - cbn. destruct (acc.1 !! opt); [f_equal; cbn; lia|done].
  - cbn [foldl]. rewrite IH, tally_step_counts. unfold votes_for.
    rewrite filter_cons. destruct (decide (v_value v = opt)) as [->|Hne].
    + rewrite lookup_insert_eq. cbn [length default].
      destruct (acc.1 !! opt) as [c|]; cbn [default];
        destruct (length _); unfold Datatypes.id; f_equal; lia.

    + by rewrite lookup_insert_ne.
Qed.

Lemma tally_counts votes opt :
  (tally votes).1 !! opt
  = if decide (votes_for opt votes = 0%nat) then None else Some (votes_for opt votes).
Proof.
  unfold tally. rewrite foldl_tally_counts. cbn [fst]. rewrite lookup_empty.
  destruct (votes_for opt votes); done.
Qed.

Lemma histogram_lines_tally votes :
  histogram_lines (tally votes).1
  = (λ opt, LCount opt (votes_for opt votes))
      <$> filter (λ opt, (0 < votes_for opt votes)%nat) VOTE_OPTIONS.
Proof.
  unfold histogram_lines. induction VOTE_OPTIONS as [|opt opts IH]; [done|].
  change ((opt :: opts) ≫= ?f) with (f opt ++ (opts ≫= f)).
  rewrite IH, filter_cons, tally_counts.
  destruct (decide (votes_for opt votes = 0%nat)) as [H0|H0];
    destruct (decide (0 < votes_for opt votes)%nat); try lia; done.
Qed.

Lemma not_voted_list votes members :
  not_voted votes members
  = filter (λ m, m_user_id m ∉ map v_user_id votes) members.
Proof.
  unfold not_voted. induction members as [|m members IH]; [done|].
  rewrite !filter_cons, IH.
  destruct (decide (m_user_id m ∉ (list_to_set (map v_user_id votes) : gset Z)))
    as [H|H];
    destruct (decide (m_user_id m ∉ map v_user_id votes)) as [H'|H'];
    try done; exfalso; rewrite elem_of_list_to_set in H; done.
Qed.

Lemma StronglySorted_filter_lt (P : Z → Prop) `{∀ x, Decision (P x)} l :
  StronglySorted Z.lt l → StronglySorted Z.lt (filter P l).
Proof.
  induction 1 as [|x l Hl IH Hx]; [constructor|].
  rewrite filter_cons. destruct (decide (P x)); [|done].
  constructor; [done|]. apply Forall_forall. intros y Hy.
  apply list_elem_of_filter in Hy as [_ Hy]. rewrite Forall_forall in Hx. auto.
Qed.

Lemma filter_map_user_id (P : Z → Prop) `{∀ x, Decision (P x)} (l : list member_row) :
  map m_user_id (filter (λ m, P (m_user_id m)) l) = filter P (map m_user_id l).
Proof.
  induction l as [|m l IH]; [done|]. cbn [map]. rewrite !filter_cons.
  destruct (decide (P (m_user_id m))); cbn [map]; by rewrite IH.
Qed.

Lemma member_ids_ascending sid d :
  db_ok d → StronglySorted Z.lt (map m_user_id (db_get_members sid d)).
Proof.
  intros [Hm _]. unfold db_get_members. apply by_user_id_ascending.
  pose proof (NoDup_keys_filter member_key (λ r, m_session_id r = sid) _ Hm) as Hf.
  rewrite member_keys_of_session in Hf. to_fmap. by apply NoDup_fmap_1 in Hf.
Qed.

(** C7, as the code has it.  In the results text the count lines are those
    of the card tokens with at least one vote, each with its number of
    votes, in the order of VOTE_OPTIONS; the total is the number of vote
    rows, whatever their value; and the not-voted lines name exactly the
    members without a vote row, in the order of the member list handed in.
    On the lists the function reads from a store with unique keys that
    order is by ascending user id, each member without a vote once: the
    order in which [get_members] returns the rows, not the order of
    joining. *)
Theorem compose_text_histogram_total_roster session sid vs ms :
  let roster := filter (λ m, m_user_id m ∉ map v_user_id vs) ms in
  compose_text session sid vs ms
  = [LTitle (s_title session) sid]
      ++ ((λ opt, LCount opt (votes_for opt vs))
            <$> filter (λ opt, (0 < votes_for opt vs)%nat) VOTE_OPTIONS)
      ++ [LTotal (length vs)]
      ++ stats_lines (tally vs).2
      ++ match roster with
         | [] => []
         | _ => LNotVotedHeader :: map (λ m, LNotVoted (display_name m)) roster
         end
  ∧ (votes_for "?" vs + length (filter (λ v, v_value v ≠ "?") vs))%nat
    = length vs
  ∧ roster `sublist_of` ms
  ∧ (∀ m, m ∈ roster ↔ m ∈ ms ∧ ∀ v, v ∈ vs → v_user_id v ≠ m_user_id m)
  ∧ (∀ d, db_ok d → vs = db_get_votes sid d → ms = db_get_members sid d →
       StronglySorted Z.lt (map m_user_id roster)
       ∧ ∀ m, m ∈ roster
              ↔ (m_session_id m = sid ∧ m ∈ session_members d)
                ∧ ∀ v, v_session_id v = sid → v ∈ votes d →
                       v_user_id v ≠ m_user_id m).
Proof.
  intros roster.
  assert (Hroster : ∀ m, m ∈ roster
                         ↔ m ∈ ms ∧ ∀ v, v ∈ vs → v_user_id v ≠ m_user_id m).
  { intros m. unfold roster. rewrite list_elem_of_filter. to_fmap.
    split.
    + intros [H1 H2]. split; [done|].
      intros v Hv Heq. apply H1. rewrite <- Heq. by apply list_elem_of_fmap_2.
    + intros [H1 H2]. split; [|done].
      intros (v & Heq & Hv)%list_elem_of_fmap. by apply (H2 v). }
  split; [|split; [|split; [|split]]].
  - unfold compose_text. rewrite <- histogram_lines_tally.
    unfold roster. rewrite <- not_voted_list.
    by destruct (tally vs) as [counts numeric_values].
  - clear roster Hroster. unfold votes_for. induction vs as [|v vs IH]; [done|].
    rewrite !filter_cons.
    destruct (decide (v_value v = "?")); destruct (decide (v_value v ≠ "?"));
      try done; cbn [length]; lia.
  - apply sublist_filter.
  - exact Hroster.
  - intros d Hok Hvs Hms. split.
    + unfold roster.
      pose proof (filter_map_user_id (λ u, u ∉ map v_user_id vs) ms) as Hf.
      cbn beta in Hf. rewrite Hf, Hms.
      by apply StronglySorted_filter_lt, member_ids_ascending.
    + intros m. rewrite Hroster, Hms, Hvs, elem_of_db_get_members.
      split; intros [Hm Hv]; (split; [done|]).
      * intros v Hs Hin. apply Hv. by apply elem_of_db_get_votes.
      * intros v [Hs Hin]%elem_of_db_get_votes. by apply Hv.
Qed.

(** After Zoe (user 9) opened the session, Ann (1) and Bob (2) joined and Bob
    voted, the results name Ann before Zoe. *)
Lemma compose_text_histogram_total_roster_witness :
  let d := db (run env0 zoe_ann_bob world0).2 in
  map m_user_id (filter (λ r, m_session_id r = "s0") (session_members d)) = [9; 1; 2]
  ∧ map m_user_id
        (filter (λ m, m_user_id m ∉ map v_user_id (db_get_votes "s0" d))
                (db_get_members "s0" d)) = [1; 9]
  ∧ StronglySorted Z.lt
      (map m_user_id
           (filter (λ m, m_user_id m ∉ map v_user_id (db_get_votes "s0" d))
                   (db_get_members "s0" d))).
Proof.
  intros d. split; [vm_compute; reflexivity|]. split; [vm_compute; reflexivity|].
  destruct (compose_text_histogram_total_roster
              (session0 "open") "s0" (db_get_votes "s0" d) (db_get_members "s0" d))
    as (_ & _ & _ & _ & Hd).
  apply (Hd d); [|reflexivity..].
  apply run_db_ok. split; apply (bool_decide_unpack _); vm_compute; exact I.
Defined.

(** C7 as claimed fails: Zoe, who joined first, and Ann, who joined second,
    have not voted, and the results name Ann first. *)
Lemma roster_not_in_join_order : ¬ roster_in_join_order.
Proof.
  intros H. specialize (H env0 zoe_ann_bob "s0").
  vm_compute in H. discriminate.
Qed.

(** ** Rounding *)

Lemma round_half_even_error q :
  (Qabs (inject_Z (round_half_even q) - q) <= 1 # 2)%Q.
Proof.
  unfold round_half_even.
  pose proof (Qfloor_le q) as Hlo. pose proof (Qlt_floor q) as Hhi.
  rewrite inject_Z_plus in Hhi. change (inject_Z 1) with 1%Q in Hhi.
  apply Qabs_Qle_condition.
  destruct (q - inject_Z (Qfloor q) ?= 1 # 2)%Q eqn:Hc.
  - apply Qeq_alt in Hc.
    destruct (Z.even (Qfloor q)); rewrite ?inject_Z_plus;
      change (inject_Z 1) with 1%Q; split; lra.
  - apply Qlt_alt in Hc. split; lra.
  - apply Qgt_alt in Hc. rewrite inject_Z_plus. change (inject_Z 1) with 1%Q.
    split; lra.
Qed.

Lemma two_pow_pos e : (0 < two_pow e)%Q.
Proof. apply Qpower_0_lt. reflexivity. Qed.

Lemma two_pow_add a b : (two_pow (a + b) == two_pow a * two_pow b)%Q.
Proof. apply Qpower_plus. discriminate. Qed.

Lemma two_pow_le a b : a <= b → (two_pow a <= two_pow b)%Q.
Proof. intros H. apply Qpower_le_compat_l; [exact H|]. discriminate. Qed.

Lemma two_pow_Z n : 0 <= n → (two_pow n == inject_Z (2 ^ n))%Q.
Proof. intros H. unfold two_pow. symmetry. apply (Zpower_Qpower 2 n H). Qed.

(** The exponent found by [floor_log2] is not above the number. *)
Lemma floor_log2_le q : (0 < q)%Q → (two_pow (floor_log2 q) <= q)%Q.
Proof.
  intros Hq. unfold floor_log2.
  destruct (Qle_bool _ q) eqn:Hb; [by apply Qle_bool_iff|].
  destruct q as [a b]. cbn [Qnum Qden].
  assert (Ha : 0 < a) by (unfold Qlt in Hq; cbn in Hq; lia).
  pose proof (Z.log2_spec a Ha) as [Hla _].
  pose proof (Z.log2_spec (Zpos b) (Pos2Z.is_pos b)) as [_ Hlb].
  pose proof (Z.log2_nonneg a) as Hna.
  pose proof (Z.log2_nonneg (Zpos b)) as Hnb.
  set (la := Z.log2 a) in *. set (lb := Z.log2 (Zpos b)) in *.
  (* two_pow (la - lb - 1) * 2^(lb+1) = 2^la <= a, and b < 2^(lb+1) *)
  assert (Hsplit : (two_pow (la - lb - 1) * two_pow (lb + 1) == two_pow la)%Q).
  { rewrite <- two_pow_add. by replace (la - lb - 1 + (lb + 1)) with la by lia. }
  rewrite (two_pow_Z la), (two_pow_Z (lb + 1)) in Hsplit by lia.
  pose proof (two_pow_pos (la - lb - 1)) as Hp.
  assert (Hbq : (inject_Z (Zpos b) < inject_Z (2 ^ (lb + 1)))%Q)
    by (rewrite <- Zlt_Qlt; replace (lb + 1) with (Z.succ lb) by lia; exact Hlb).
  assert (Haq : (inject_Z (2 ^ la) <= inject_Z a)%Q) by (by rewrite <- Zle_Qle).
  assert (Hprod : (two_pow (la - lb - 1) * inject_Z (Zpos b) <= inject_Z a)%Q).
  { apply Qle_trans with (two_pow (la - lb - 1) * inject_Z (2 ^ (lb + 1)))%Q.
    - apply Qmult_le_l; [exact Hp|]. by apply Qlt_le_weak.
    - rewrite Hsplit. exact Haq. }
  (* divide by b *)
  assert (Hab : (a # b == inject_Z a / inject_Z (Zpos b))%Q) by apply Qmake_Qdiv.
  rewrite Hab. apply Qle_shift_div_l; [reflexivity|]. exact Hprod.
Qed.

Lemma floor_log2_bound q : (0 < q)%Q → (q <= 100)%Q → floor_log2 q <= 6.
Proof.
  intros Hq Hle. pose proof (floor_log2_le q Hq) as H.
  destruct (Z_le_gt_dec (floor_log2 q) 6) as [|Hgt]; [done|].
  exfalso. assert (H7 : (two_pow 7 <= two_pow (floor_log2 q))%Q)
    by (apply two_pow_le; lia).
  assert (H128 : (two_pow 7 == 128)%Q) by reflexivity.
  rewrite H128 in H7. lra.
Qed.

(** Conversion to binary64 of a number in (0, 100] is off by at most 2^-47. *)
Lemma b64_error q :
  (0 <= q)%Q → (q <= 100)%Q → (Qabs (b64 q - q) <= two_pow (-47))%Q.
Proof.
  intros H0 H100. unfold b64.
  destruct (q ?= 0)%Q eqn:Hc.
  - apply Qeq_alt in Hc. rewrite Hc. vm_compute. discriminate.
  - apply Qlt_alt in Hc. lra.
  - apply Qgt_alt in Hc. unfold b64_pos. rewrite Qred_correct.
    pose proof (floor_log2_bound q Hc H100) as He.
    set (ulp := two_pow (floor_log2 q - 52)).
    assert (Hulp : (0 < ulp)%Q) by apply two_pow_pos.
    assert (Hule : (ulp <= two_pow (-46))%Q) by (apply two_pow_le; lia).
    pose proof (round_half_even_error (q / ulp)) as Hr.
    set (m := inject_Z (round_half_even (q / ulp))) in *.
    assert (Heq : (m * ulp - q == (m - q / ulp) * ulp)%Q) by (field; lra).
    rewrite Heq, Qabs_Qmult, (Qabs_pos ulp) by lra.
    apply Qle_trans with ((1 # 2) * ulp)%Q.
    + apply Qmult_le_compat_r; lra.
    + assert (H47 : (two_pow (-47) == (1 # 2) * two_pow (-46))%Q) by reflexivity.
      rewrite H47. apply Qmult_le_l; [reflexivity | exact Hule].
Qed.

(** Printing with two decimals the binary64 nearest to a multiple [μ] of
    [1/(2n)] in [0, 100], [n < 2^32], gives a hundredth nearest to [μ]. *)
Lemma fmt2_b64_nearest (μ : Q) (K n : Z) :
  0 < n < 2 ^ 32 →
  (0 <= μ)%Q → (μ <= 100)%Q →
  (μ * inject_Z (2 * n) == inject_Z K)%Q →
  (Qabs (inject_Z (fmt2 (b64 μ)) / 100 - μ) <= 1 # 200)%Q.
Proof.
  intros [Hn0 Hn] Hμ0 Hμ100 HK.
  pose proof (b64_error μ Hμ0 Hμ100) as Hx.
  change (two_pow (-47)) with (1 # 140737488355328)%Q in Hx.
  apply Qabs_Qle_condition in Hx as [Hx1 Hx2].
  unfold fmt2. set (x := b64 μ) in *.
  pose proof (round_half_even_error (x * 100)) as Hj.
  apply Qabs_Qle_condition in Hj as [Hj1 Hj2].
  set (j := round_half_even (x * 100)) in *.
  (* the integer 2nj - 100K *)
  set (D := 2 * n * j - 100 * K).
  set (nq := inject_Z n).
  assert (Hnq0 : (0 < nq)%Q) by (unfold nq; rewrite Zlt_Qlt in Hn0; exact Hn0).
  assert (Hnq : (nq < 4294967296)%Q).
  { unfold nq. change 4294967296%Q with (inject_Z (2 ^ 32)). by rewrite <- Zlt_Qlt. }
  assert (HD : (inject_Z D == 2 * nq * (inject_Z j - 100 * μ))%Q).
  { unfold D, Z.sub. rewrite inject_Z_plus, inject_Z_opp, !inject_Z_mult.
    rewrite inject_Z_mult in HK. fold nq. fold nq in HK.
    change (inject_Z 2) with 2%Q in *. change (inject_Z 100) with 100%Q.
    rewrite <- HK. ring. }
  set (t := (inject_Z j - 100 * μ)%Q) in *.
  assert (Ht1 : (- (1 # 2) - (100 # 140737488355328) <= t)%Q) by (unfold t; lra).
  assert (Ht2 : (t <= (1 # 2) + (100 # 140737488355328))%Q) by (unfold t; lra).
  assert (HDn : - n <= D <= n).
  { split.
    - destruct (Z_le_gt_dec (- n) D) as [|Hgt]; [done|]. exfalso.
      assert (HDle : D <= - n - 1) by lia.
      unfold Z.sub in HDle.
      rewrite Zle_Qle, HD, inject_Z_plus, !inject_Z_opp in HDle. fold nq in HDle.
      change (inject_Z 1) with 1%Q in HDle.
      assert (Hmul : (nq * (- 1 - 2 * t) <= nq * (200 # 140737488355328))%Q)
        by (apply Qmult_le_l; [exact Hnq0 | lra]).
      lra.
    - destruct (Z_le_gt_dec D n) as [|Hgt]; [done|]. exfalso.
      assert (HDge : n + 1 <= D) by lia.
      rewrite Zle_Qle, HD, inject_Z_plus in HDge. fold nq in HDge.
      change (inject_Z 1) with 1%Q in HDge.
      assert (Hmul : (nq * (2 * t - 1) <= nq * (200 # 140737488355328))%Q)
        by (apply Qmult_le_l; [exact Hnq0 | lra]).
      lra. }
  destruct HDn as [HD1 HD2].
  rewrite Zle_Qle, HD, inject_Z_opp in HD1. rewrite Zle_Qle, HD in HD2.
  fold nq in HD1, HD2.
  assert (Hlo : (- 1 <= 2 * t)%Q).
  { apply (Qmult_le_l _ _ nq Hnq0). lra. }
  assert (Hhi : (2 * t <= 1)%Q).
  { apply (Qmult_le_l _ _ nq Hnq0). lra. }
  assert (Hdiv : (inject_Z j / 100 == (1 # 100) * inject_Z j)%Q)
    by (unfold Qdiv; change (/ 100)%Q with (1 # 100)%Q; ring).
  apply Qabs_Qle_condition. unfold t in Hlo, Hhi. rewrite Hdiv. split; lra.
Qed.

Lemma tally_step_numeric acc v :
  (tally_step acc v).2 = acc.2 ++ option_list (py_value (v_value v)).
Proof.
  unfold tally_step, py_value.
  destruct (decide _); [by rewrite app_nil_r|]. destruct (decide _); [done|].
  destruct (py_float _); [done|by rewrite app_nil_r].
Qed.

Lemma foldl_tally_numeric votes acc :
  (foldl tally_step acc votes).2 = acc.2 ++ omap py_value (map v_value votes).
Proof.
  revert acc. induction votes as [|v votes IH]; intros acc; cbn [foldl map].
  - by rewrite app_nil_r.
  - rewrite IH, tally_step_numeric, <- app_assoc. f_equal.
    cbn [omap list_omap]. by destruct (py_value (v_value v)).
Qed.

Lemma py_value_card token : token ∈ VOTE_OPTIONS → py_value token = card_value token.
Proof.
  unfold VOTE_OPTIONS. intros H.
  repeat (apply elem_of_cons in H as [->|H]; [vm_compute; reflexivity|]).
  by apply elem_of_nil in H.
Qed.

Lemma tally_numeric votes :
  Forall (λ v, v_value v ∈ VOTE_OPTIONS) votes →
  (tally votes).2 = omap card_value (map v_value votes).
Proof.
  intros Hall. unfold tally. rewrite foldl_tally_numeric. cbn [snd app].
  induction Hall as [|v votes Hv Hall IH]; [done|].
  cbn [map omap list_omap]. rewrite (py_value_card _ Hv).
  destruct (card_value (v_value v)); by rewrite <- IH.
Qed.

Lemma card_value_number token x : card_value token = Some x → x ∈ card_numbers.
Proof.
  unfold card_value. intros H%elem_of_list_to_map_2.
  unfold card_numbers. apply list_elem_of_fmap. by exists (token, x).
Qed.

Lemma card_value_None token :
  token ∈ VOTE_OPTIONS → card_value token = None ↔ token = "?".
Proof.
  unfold VOTE_OPTIONS. intros H.
  repeat (apply elem_of_cons in H as [->|H]; [vm_compute; split; [discriminate|discriminate]|]).
  - apply elem_of_cons in H as [->|H]; [done|]. by apply elem_of_nil in H.
Qed.

(** ** Sorting and the median *)

Lemma insert_sorted_perm x l : insert_sorted x l ≡ₚ x :: l.
Proof.
  induction l as [|y l IH]; cbn [insert_sorted]; [done|].
  destruct (Qle_bool x y); [done|]. rewrite IH. apply Permutation_swap.
Qed.

Lemma sorted_perm data : sorted data ≡ₚ data.
Proof.
  unfold sorted. induction data as [|x data IH]; cbn [foldr]; [done|].
  by rewrite insert_sorted_perm, IH.
Qed.

Lemma insert_sorted_sorted x l :
  StronglySorted Qle l → StronglySorted Qle (insert_sorted x l).
Proof.
  induction 1 as [|y l Hl IH Hy]; cbn [insert_sorted].
  - repeat constructor.
  - destruct (Qle_bool x y) eqn:Hxy.
    + apply Qle_bool_iff in Hxy. constructor; [by constructor|].
      constructor; [done|]. eapply Forall_impl; [exact Hy|].
      intros z Hz. by apply Qle_trans with y.
    + assert (Hyx : (y <= x)%Q).
      { destruct (Qlt_le_dec y x) as [H|H]; [by apply Qlt_le_weak|].
        apply Qle_bool_iff in H. congruence. }
      constructor; [done|]. rewrite insert_sorted_perm. by constructor.
Qed.

Lemma sorted_sorted data : StronglySorted Qle (sorted data).
Proof.
  unfold sorted. induction data as [|x data IH]; cbn [foldr]; [constructor|].
  by apply insert_sorted_sorted.
Qed.

Lemma sorted_length data : length (sorted data) = length data.
Proof. apply Permutation_length, sorted_perm. Qed.

(** Sums and halves of card values are binary64 numbers. *)
Lemma b64_half_sum x y :
  x ∈ card_numbers → y ∈ card_numbers →
  (b64 (b64 (x + y) / 2) == (x + y) / 2)%Q.
Proof.
  unfold card_numbers, card_values. cbn [fmap list_fmap snd]. intros Hx Hy.
  repeat (apply elem_of_cons in Hx as [->|Hx];
          [repeat (apply elem_of_cons in Hy as [->|Hy]; [vm_compute; reflexivity|]);
           by apply elem_of_nil in Hy|]).
  by apply elem_of_nil in Hx.
Qed.

Lemma card_number_half x :
  x ∈ card_numbers → ∃ k : Z, 0 <= k <= 200 ∧ (x * 2 == inject_Z k)%Q.
Proof.
  unfold card_numbers, card_values. cbn [fmap list_fmap snd]. intros Hx.
  repeat (apply elem_of_cons in Hx as [->|Hx];
          [match goal with
           | |- ∃ k, _ ∧ (?q == _)%Q => exists (Qfloor q)
           end; vm_compute; repeat split; discriminate|]).
  by apply elem_of_nil in Hx.
Qed.

Lemma Qsum_card_numbers data :
  Forall (λ x, x ∈ card_numbers) data →
  ∃ K : Z, 0 <= K <= 200 * Z.of_nat (length data) ∧ (Qsum data * 2 == inject_Z K)%Q.
Proof.
  induction 1 as [|x data Hx Hdata (K & HK & Hsum)].
  - exists 0. split; [cbn; lia|reflexivity].
  - destruct (card_number_half x Hx) as (k & Hk & Hxk).
    exists (k + K). split; [cbn [length]; lia|].
    cbn [Qsum foldr]. fold (Qsum data). rewrite inject_Z_plus, <- Hxk, <- Hsum. ring.
Qed.

Lemma sorted_card_numbers data x :
  Forall (λ x, x ∈ card_numbers) data → x ∈ sorted data → x ∈ card_numbers.
Proof.
  intros Hall Hx. rewrite sorted_perm in Hx.
  by apply (proj1 (Forall_forall _ _) Hall).
Qed.

Lemma median_middle data :
  Forall (λ x, x ∈ card_numbers) data →
  data ≠ [] →
  let n := length data in
  ∃ m, median data = Some m
    ∧ ((n mod 2 = 1)%nat → sorted data !! (n / 2)%nat = Some m)
    ∧ ((n mod 2 = 0)%nat →
       ∃ x y, sorted data !! (n / 2 - 1)%nat = Some x
            ∧ sorted data !! (n / 2)%nat = Some y
            ∧ (m == (x + y) / 2)%Q).
Proof.
  intros Hall Hne n.
  assert (Hn : (0 < n)%nat) by (unfold n; destruct data; [done|cbn; lia]).
  unfold median. rewrite sorted_length. fold n.
  destruct (n =? 0)%nat eqn:H0; [apply Nat.eqb_eq in H0; lia|].
  assert (Hmid : (n / 2 < length (sorted data))%nat)
    by (rewrite sorted_length; fold n; apply Nat.div_lt; lia).
  destruct (lookup_lt_is_Some_2 _ _ Hmid) as [y Hy].
  destruct (n mod 2 =? 1)%nat eqn:Hodd.
  - apply Nat.eqb_eq in Hodd. exists y. rewrite Hy. split; [done|].
    split; [done|]. lia.
  - apply Nat.eqb_neq in Hodd.
    assert (Hlow : (n / 2 - 1 < length (sorted data))%nat) by lia.
    destruct (lookup_lt_is_Some_2 _ _ Hlow) as [x Hx].
    rewrite Hx, Hy. cbn [mbind option_bind].
    exists (b64 (b64 (x + y) / 2)). split; [done|]. split; [lia|].
    intros _. exists x, y. split; [done|]. split; [done|].
    apply b64_half_sum; eapply sorted_card_numbers; eauto;
      eapply list_elem_of_lookup_2; eauto.
Qed.

Lemma compose_text_eq session sid votes members :
  compose_text session sid votes members
  = [LTitle (s_title session) sid]
      ++ histogram_lines (tally votes).1
      ++ [LTotal (length votes)]
      ++ stats_lines (tally votes).2
      ++ not_voted_lines (not_voted votes members).
Proof. unfold compose_text. by destruct (tally votes). Qed.

Lemma omap_card_value_nil votes :
  Forall (λ v, v_value v ∈ VOTE_OPTIONS) votes →
  omap card_value (map v_value votes) = [] ↔ Forall (λ v, v_value v = "?") votes.
Proof.
  induction 1 as [|v votes Hv Hall IH]; [done|].
  cbn [map omap list_omap].
  destruct (card_value (v_value v)) as [x|] eqn:Hc.
  - split; [done|]. intros H. apply Forall_cons in H as [H _].
    apply (card_value_None _ Hv) in H. congruence.
  - rewrite Forall_cons, <- IH. apply (card_value_None _ Hv) in Hc. tauto.
Qed.

Lemma omap_length {A B} (f : A → option B) l : (length (omap f l) ≤ length l)%nat.
Proof.
  induction l as [|x l IH]; [done|]. cbn [omap list_omap].
  destruct (f x); cbn [length]; lia.
Qed.

(** C6. When every stored value is a card token (and the votes are fewer
    than 2^32), the numeric values the loop collects are the numbers of the
    votes other than [?], in order: 0.5 for [½], the literal value for the
    others.  They are empty exactly when every vote is [?], and then the
    text has no statistics line.  Otherwise the text has the two lines: the
    mean, printed as the hundredth nearest to the exact arithmetic mean of
    the values (at most 0.005 away), and the median, which is the middle
    element of the sorted values when their number is odd and the half sum
    of the two middle ones when it is even. *)
Theorem numeric_stats votes :
  Forall (λ v, v_value v ∈ VOTE_OPTIONS) votes →
  Z.of_nat (length votes) < 2 ^ 32 →
  let values := omap card_value (map v_value votes) in
  let n := length values in
  (tally votes).2 = values
  ∧ (values = [] ↔ Forall (λ v, v_value v = "?") votes)
  ∧ (values = [] → stats_lines (tally votes).2 = [])
  ∧ (values ≠ [] →
     ∃ h m, stats_lines (tally votes).2 = [LMean h; LMedian m]
       ∧ (Qabs (inject_Z h / 100 - Qsum values / inject_Z (Z.of_nat n)) <= 1 # 200)%Q
       ∧ ((n mod 2 = 1)%nat → sorted values !! (n / 2)%nat = Some m)
       ∧ ((n mod 2 = 0)%nat →
          ∃ x y, sorted values !! (n / 2 - 1)%nat = Some x
               ∧ sorted values !! (n / 2)%nat = Some y
               ∧ (m == (x + y) / 2)%Q))
  ∧ StronglySorted Qle (sorted values)
  ∧ sorted values ≡ₚ values
  ∧ (∀ session sid members,
       compose_text session sid votes members
       = [LTitle (s_title session) sid]
           ++ histogram_lines (tally votes).1
           ++ [LTotal (length votes)]
           ++ stats_lines (tally votes).2
           ++ not_voted_lines (not_voted votes members)).
Proof.
  intros Hall Hlen values n.
  assert (Htally : (tally votes).2 = values) by (by apply tally_numeric).
  rewrite Htally.
  split; [done|]. split; [by apply omap_card_value_nil|].
  split; [by intros ->|].
  split; [|split; [apply sorted_sorted|split; [apply sorted_perm|]]].
  2: { intros. rewrite <- Htally. apply compose_text_eq. }
  intros Hne.
  assert (Hnum : Forall (λ x, x ∈ card_numbers) values).
  { unfold values. clear. induction votes as [|v votes IH]; [constructor|].
    cbn [map omap list_omap]. destruct (card_value (v_value v)) eqn:Hc; [|done].
    constructor; [by eapply card_value_number|done]. }
  destruct (median_middle values Hnum Hne) as (m & Hmed & Hodd & Heven).
  fold n in Hodd, Heven.
  assert (Hn : (0 < n)%nat) by (unfold n; destruct values; [done|cbn; lia]).
  set (μ := (Qsum values / inject_Z (Z.of_nat n))%Q).
  exists (fmt2 (b64 μ)), m.
  split; [|split; [|done]].
  - unfold stats_lines. rewrite Hmed. unfold mean. fold n. fold μ.
    destruct values; [done|reflexivity].
  - destruct (Qsum_card_numbers values Hnum) as (K & [HK0 HK] & Hsum). fold n in HK.
    assert (Hnq : (0 < inject_Z (Z.of_nat n))%Q)
      by (change 0%Q with (inject_Z 0); rewrite <- Zlt_Qlt; lia).
    assert (HμK : (μ * inject_Z (2 * Z.of_nat n) == inject_Z K)%Q).
    { unfold μ. rewrite inject_Z_mult, <- Hsum. change (inject_Z 2) with 2%Q.
      field. lra. }
    assert (H2n : (0 < inject_Z (2 * Z.of_nat n))%Q)
      by (change 0%Q with (inject_Z 0); rewrite <- Zlt_Qlt; lia).
    apply (fmt2_b64_nearest μ K (Z.of_nat n)).
    + pose proof (omap_length card_value (map v_value votes)) as Hl.
      rewrite length_map in Hl. fold values in Hl. fold n in Hl. lia.
    + apply (Qmult_le_r _ _ _ H2n). rewrite HμK, Qmult_0_l.
      change 0%Q with (inject_Z 0). by rewrite <- Zle_Qle.
    + apply (Qmult_le_r _ _ _ H2n). rewrite HμK, inject_Z_mult.
      change (inject_Z 2) with 2%Q.
      assert (HKq : (inject_Z K <= inject_Z (200 * Z.of_nat n))%Q)
        by (by rewrite <- Zle_Qle).
      rewrite inject_Z_mult in HKq. change (inject_Z 200) with 200%Q in HKq. lra.
    + exact HμK.
Qed.

Lemma numeric_stats_witness :
  let votes := [mkVote "s0" 1 "½" "t1"; mkVote "s0" 2 "1" "t2";
                mkVote "s0" 3 "2" "t3"; mkVote "s0" 4 "?" "t4"] in
  (tally votes).2 = [1 # 2; 1; 2]%Q
  ∧ stats_lines (tally votes).2 = [LMean 117; LMedian 1].
Proof.
  intros votes.
  destruct (numeric_stats votes) as (Hvalues & _).
  - unfold votes. repeat constructor; apply (bool_decide_unpack _); vm_compute; exact I.
  - vm_compute. reflexivity.
  - split; [exact Hvalues | vm_compute; reflexivity].
Defined.

(** The examples of the specification: the mean of ½, 1, 2 prints as 1.17;
    the median of 1, 2, 3 is 2 and that of 1, 2, 3, 5 is 2.5; only [?]
    votes give no statistics. *)
Example mean_half_1_2 : fmt2 <$> mean [1 # 2; 1; 2]%Q = Some 117.
Proof. vm_compute. reflexivity. Qed.

Example median_1_2_3 : median [1; 2; 3]%Q = Some 2%Q.
Proof. vm_compute. reflexivity. Qed.

Example median_1_2_3_5 : median [1; 2; 3; 5]%Q = Some (5 # 2)%Q.
Proof. vm_compute. reflexivity. Qed.

Example stats_of_abstentions :
  stats_lines (tally [mkVote "s0" 1 "?" "t1"; mkVote "s0" 2 "?" "t2"]).2 = [].
Proof. vm_compute. reflexivity. Qed.

(** * Further properties *)

(** ** Creating, joining and closing sessions *)

Lemma db_get_session_fresh sid d :
  sid ∉ map s_id (sessions d) → db_get_session sid d = None.
Proof.
  intros H. unfold db_get_session. by rewrite (filter_key_absent s_id sid _ H).
Qed.

Lemma db_get_session_Some sid d session :
  db_get_session sid d = Some session → s_id session = sid ∧ session ∈ sessions d.
Proof.
  unfold db_get_session. intros H.
  assert (Hin : session ∈ filter (λ r, s_id r = sid) (sessions d)).
  { destruct (filter _ (sessions d)) as [|x l]; [done|].
    cbn in H. injection H as ->. apply elem_of_cons. by left. }
  by apply list_elem_of_filter in Hin.
Qed.

Lemma db_get_session_snoc sid d r ms vs :
  db_get_session sid (mkDb (sessions d ++ [r]) ms vs)
  = match db_get_session sid d with
    | Some s => Some s
    | None => if decide (s_id r = sid) then Some r else None
    end.
Proof.
  unfold db_get_session. cbn [sessions]. rewrite filter_app, filter_cons, filter_nil.
  destruct (filter _ (sessions d)); [|done]. by destruct (decide (s_id r = sid)).
Qed.

Lemma db_get_session_insert_member sid r d :
  db_get_session sid (db_insert_or_ignore_member r d) = db_get_session sid d.
Proof. unfold db_insert_or_ignore_member. by destruct (decide _). Qed.

Lemma db_get_session_set_status sid sid' status d :
  db_get_session sid' (db_set_session_status sid status d)
  = (λ r, if decide (s_id r = sid) then with_status status r else r)
      <$> db_get_session sid' d.
Proof.
  unfold db_get_session, db_set_session_status. cbn [sessions].
  induction (sessions d) as [|r l IH]; [done|].
  cbn [map]. rewrite !filter_cons.
  assert (Hid : s_id (if decide (s_id r = sid) then with_status status r else r) = s_id r)
    by (by destruct (decide (s_id r = sid))).
  rewrite Hid. destruct (decide (s_id r = sid')); [done|exact IH].
Qed.

Lemma cmd_new_session_run E from_user args w :
  cmd_new_session E from_user args w =
    if is_empty_string (or_empty args) then
      (NewUsage, log [Reply TUsageNewSession None] w)
    else
      let sid := token E (draws w) in
      let row := mkSession sid (id from_user) (full_name from_user) (or_empty args)
                           "" (iso E (ticks w)) "open" in
      match db_insert_session row (db w) with
      | None => (NewRaised, mkWorld (db w) (S (ticks w)) (S (draws w)) (sent w))
      | Some d =>
          (NewCreated sid,
           mkWorld (db_insert_or_ignore_member
                      (mkMember sid (id from_user) (or_empty (username from_user))
                                (full_name from_user) (iso E (S (ticks w)))) d)
                   (S (S (ticks w))) (S (draws w))
                   (sent w ++ [Reply (TSessionCreated (or_empty args) sid
                                                      (full_name from_user))
                                     (Some (SessionButtons sid))]))
      end.
Proof.
  unfold cmd_new_session, create_session, add_member, make_session_id.
  destruct (is_empty_string (or_empty args)); [by run_m|].
  run_m. cbn [db ticks draws sent or_empty default]. cbv zeta.
  destruct (db_insert_session _ (db w)) as [d|]; by run_m.
Qed.

(** X1. A new session: with a title and an id not yet in use, [/new_session]
    stores an open session owned by the sender, makes the sender its first
    member, leaves the votes alone and answers with the join buttons. *)
Theorem cmd_new_session_creates E from_user title w :
  is_empty_string title = false →
  token E (draws w) ∉ map s_id (sessions (db w)) →
  let sid := token E (draws w) in
  let r := cmd_new_session E from_user (Some title) w in
  r.1 = NewCreated sid
  ∧ db_get_session sid (db r.2)
    = Some (mkSession sid (id from_user) (full_name from_user) title ""
                      (iso E (ticks w)) "open")
  ∧ (sid, id from_user) ∈ map member_key (session_members (db r.2))
  ∧ votes (db r.2) = votes (db w)
  ∧ sent r.2 = sent w ++ [Reply (TSessionCreated title sid (full_name from_user))
                                (Some (SessionButtons sid))].
Proof.
  intros Ht Hfresh sid r. unfold r. rewrite cmd_new_session_run.
  change (or_empty (Some title)) with title. rewrite Ht. cbv zeta. fold sid.
  unfold db_insert_session. cbn [s_id].
  destruct (decide (sid ∈ map s_id (sessions (db w)))); [done|].
  cbn [fst snd db sent]. split; [done|]. split; [|split; [|split; [|done]]].
  - rewrite db_get_session_insert_member, db_get_session_snoc,
            (db_get_session_fresh sid (db w)) by done.
    cbn [s_id]. by destruct (decide (sid = sid)).
  - apply (member_key_after_insert
             (mkMember sid (id from_user) (or_empty (username from_user))
                       (full_name from_user) (iso E (S (ticks w))))).
  - unfold db_insert_or_ignore_member. by destruct (decide _).
Qed.

Lemma cmd_new_session_creates_witness :
  token env0 (draws world_open) = "s1"
  ∧ (cmd_new_session env0 bob (Some "Login page") world_open).1 = NewCreated "s1"
  ∧ ("s1", 2) ∈ map member_key
        (session_members (db (cmd_new_session env0 bob (Some "Login page") world_open).2)).
Proof.
  destruct (cmd_new_session_creates env0 bob "Login page" world_open)
    as (H1 & _ & H3 & _).
  - reflexivity.
  - apply (bool_decide_unpack _); vm_compute; exact I.
  - split; [vm_compute; reflexivity|]. split; [exact H1 | exact H3].
Defined.

(** X2. [/new_session] without a title only answers with the usage line and
    draws no id; when the id drawn is that of a stored session the INSERT
    raises and no reply is sent.  The store is unchanged in both cases: an
    existing session is never overwritten. *)
Theorem cmd_new_session_fails E from_user args w :
  (is_empty_string (or_empty args) = true →
     (cmd_new_session E from_user args w).1 = NewUsage
     ∧ db (cmd_new_session E from_user args w).2 = db w
     ∧ draws (cmd_new_session E from_user args w).2 = draws w
     ∧ sent (cmd_new_session E from_user args w).2
       = sent w ++ [Reply TUsageNewSession None])
  ∧ (is_empty_string (or_empty args) = false →
     token E (draws w) ∈ map s_id (sessions (db w)) →
     (cmd_new_session E from_user args w).1 = NewRaised
     ∧ db (cmd_new_session E from_user args w).2 = db w
     ∧ sent (cmd_new_session E from_user args w).2 = sent w).
Proof.
  rewrite cmd_new_session_run. split.
  - intros ->. done.
  - intros -> Hin. cbv zeta. unfold db_insert_session. cbn [s_id].
    by destruct (decide _).
Qed.

Lemma cmd_new_session_fails_witness :
  (cmd_new_session env0 ann None world_open).1 = NewUsage
  ∧ (cmd_new_session (mkEnv (iso env0) (λ _, "s0") (deliver env0) (strip env0))
                     bob (Some "Again") world_open).1 = NewRaised.
Proof.
  split.
  - apply (cmd_new_session_fails env0 ann None world_open). reflexivity.
  - apply (cmd_new_session_fails _ bob (Some "Again") world_open); [reflexivity|].
    apply (bool_decide_unpack _); vm_compute; exact I.
Defined.

(** X3. Joining is refused, with the table of members unchanged, when the
    session is unknown or not open. *)
Theorem cb_join_refused E from_user sid w :
  (db_get_session sid (db w) = None →
     (cb_join E from_user sid w).1 = JoinNotFound
     ∧ db (cb_join E from_user sid w).2 = db w
     ∧ sent (cb_join E from_user sid w).2
       = sent w ++ [CallbackAnswer None false; EditText TJoinNotFound None])
  ∧ (∀ session, db_get_session sid (db w) = Some session →
     s_status session ≠ "open" →
     (cb_join E from_user sid w).1 = JoinClosed
     ∧ db (cb_join E from_user sid w).2 = db w
     ∧ sent (cb_join E from_user sid w).2
       = sent w ++ [CallbackAnswer None false; EditText TJoinClosed None]).
Proof.
  rewrite cb_join_run. split.
  - intros ->. done.
  - intros session -> Hst. by destruct (decide (s_status session ≠ "open")).
Qed.

Lemma cb_join_refused_witness :
  (cb_join env0 bob "nope" world_open).1 = JoinNotFound
  ∧ (cb_join env0 bob "s0" world_closed).1 = JoinClosed.
Proof.
  split.
  - apply (cb_join_refused env0 bob "nope" world_open). vm_compute. reflexivity.
  - apply (cb_join_refused env0 bob "s0" world_closed) with (session0 "closed");
      [vm_compute; reflexivity | vm_compute; discriminate].
Defined.

(** X4. Joining an open session registers the member before the keyboard is
    sent and does not undo it: when the direct message cannot be delivered
    the user is a member all the same, and is shown the alert asking to
    start a chat with the bot. *)
Theorem cb_join_failed_dm E from_user sid w session :
  db_get_session sid (db w) = Some session →
  s_status session = "open" →
  deliver E (id from_user) = false →
  (cb_join E from_user sid w).1 = Joined
  ∧ (sid, id from_user)
      ∈ map member_key (session_members (db (cb_join E from_user sid w).2))
  ∧ sent (cb_join E from_user sid w).2
    = sent w ++ [CallbackAnswer None false;
                 SendFailed (id from_user) (TJoined (s_title session) sid);
                 CallbackAnswer (Some TCannotDM) true].
Proof.
  intros Hs Hst Hd. rewrite cb_join_run, Hs.
  destruct (decide (s_status session ≠ "open")); [done|].
  cbn [fst snd]. rewrite db_log, db_set_db, sent_log. unfold attempt. rewrite Hd.
  split; [done|]. split; [|done].
  apply (member_key_after_insert (joining E from_user sid w)).
Qed.

Lemma cb_join_failed_dm_witness :
  (cb_join env_mute bob "s0" world_open).1 = Joined
  ∧ ("s0", 2) ∈ map member_key
        (session_members (db (cb_join env_mute bob "s0" world_open).2)).
Proof.
  destruct (cb_join_failed_dm env_mute bob "s0" world_open (session0 "open"))
    as (H1 & H2 & _); [vm_compute; reflexivity | reflexivity | reflexivity |].
  split; [exact H1 | exact H2].
Defined.

(** X5. Joining again never rewrites the stored row: a user who joins a
    second time, even under another username or name, is a member with the
    username, name and time of the first join. *)
Theorem cb_join_keeps_first_row E from_user from_user' sid w session :
  db_get_session sid (db w) = Some session →
  s_status session = "open" →
  id from_user' = id from_user →
  let w1 := (cb_join E from_user sid w).2 in
  (cb_join E from_user' sid w1).1 = Joined
  ∧ session_members (db (cb_join E from_user' sid w1).2) = session_members (db w1).
Proof.
  intros Hs Hst Hid w1. unfold w1.
  rewrite (cb_join_run E from_user sid w), Hs.
  destruct (decide (s_status session ≠ "open")); [done|]. cbn [snd].
  rewrite cb_join_run, db_log, db_set_db, db_get_session_insert_member, Hs.
  destruct (decide (s_status session ≠ "open")); [done|]. cbn [fst snd].
  rewrite db_log, db_set_db. split; [done|].
  rewrite db_insert_or_ignore_member_again; [done|].
  unfold member_key, joining. cbn [m_session_id m_user_id]. by rewrite Hid.
Qed.

Lemma cb_join_keeps_first_row_witness :
  let w1 := (cb_join env0 bob "s0" world_open).2 in
  map m_first_name
      (session_members (db (cb_join env0 (mkUser 2 (Some "bobby") "Robert") "s0" w1).2))
  = ["Ann"; "Bob"].
Proof.
  intros w1.
  destruct (cb_join_keeps_first_row env0 bob (mkUser 2 (Some "bobby") "Robert") "s0"
              world_open (session0 "open")) as [_ H];
    [vm_compute; reflexivity | reflexivity | reflexivity |].
  cbv zeta in H. fold w1 in H. rewrite H. vm_compute. reflexivity.
Defined.

(** X6. A vote for an unknown session is answered with "not found" and
    changes nothing in the store. *)
Theorem cb_vote_unknown_session E from_user sid value w :
  db_get_session sid (db w) = None →
  (cb_vote E from_user sid value w).1 = VoteNotFound
  ∧ db (cb_vote E from_user sid value w).2 = db w
  ∧ sent (cb_vote E from_user sid value w).2
    = sent w ++ [CallbackAnswer None false; EditText TSessionNotFound None].
Proof. intros Hs. by rewrite cb_vote_run, Hs. Qed.

Lemma cb_vote_unknown_session_witness :
  (cb_vote env0 bob "nope" "5" world_open).1 = VoteNotFound.
Proof.
  apply (cb_vote_unknown_session env0 bob "nope" "5" world_open).
  vm_compute. reflexivity.
Defined.

Lemma filter_other_key_replaced {A K} `{EqDecision K} (key : A → K) k (r : A) l :
  k ≠ key r →
  filter (λ x, key x = k) (filter (λ x, key x ≠ key r) l ++ [r])
  = filter (λ x, key x = k) l.
Proof.
  intros Hk. rewrite filter_app, filter_cons, filter_nil.
  destruct (decide (key r = k)); [congruence|]. rewrite app_nil_r.
  induction l as [|x l IH]; [done|].
  rewrite (filter_cons (λ x, key x ≠ key r)), (filter_cons (λ x, key x = k)).
  destruct (decide (key x ≠ key r)) as [Hx|Hx].
  - rewrite filter_cons. destruct (decide (key x = k)); by rewrite IH.
  - destruct (decide (key x = k)) as [Hxk|]; [|exact IH].
    exfalso. apply Hx. congruence.
Qed.

(** X7. A vote touches one key only: whatever its outcome, the vote rows of
    every other (session, user) pair are as before, and so are the tables
    of sessions and of members. *)
Theorem cb_vote_frame E from_user sid value w k :
  k ≠ (sid, id from_user) →
  filter (λ r, vote_key r = k) (votes (db (cb_vote E from_user sid value w).2))
  = filter (λ r, vote_key r = k) (votes (db w))
  ∧ sessions (db (cb_vote E from_user sid value w).2) = sessions (db w)
  ∧ session_members (db (cb_vote E from_user sid value w).2) = session_members (db w).
Proof.
  intros Hk. rewrite cb_vote_sessions, cb_vote_session_members.
  split; [|done]. rewrite cb_vote_db.
  destruct (db_get_session sid (db w)) as [session|]; [|done].
  destruct (decide (s_status session ≠ "open")); [done|].
  unfold voted, db_insert_or_replace_vote. cbn [votes].
  by apply (filter_other_key_replaced vote_key k
              (mkVote sid (id from_user) value (iso E (ticks w)))).
Qed.

Lemma cb_vote_frame_witness :
  let w1 := (cb_vote env0 ann "s0" "3" world_two).2 in
  map v_value (filter (λ r, vote_key r = ("s0", 1))
                      (votes (db (cb_vote env0 bob "s0" "8" w1).2)))
  = ["3"].
Proof.
  intros w1.
  destruct (cb_vote_frame env0 bob "s0" "8" w1 ("s0", 1)) as [H _]; [discriminate|].
  rewrite H. vm_compute. reflexivity.
Defined.

(** ** Resetting and closing *)

Lemma cb_revote_run E from_user sid w :
  cb_revote E from_user sid w =
    match db_get_session sid (db w) with
    | None => (RevoteNotFound,
               log [CallbackAnswer None false;
                    CallbackAnswer (Some TSessionNotFound) true] w)
    | Some session =>
        if decide (id from_user ≠ s_creator_id session) then
          (RevoteForbidden,
           log [CallbackAnswer None false;
                CallbackAnswer (Some TOnlyCreatorRevotes) true] w)
        else
          (RevoteDone,
           log ([CallbackAnswer None false]
                  ++ map (λ m, attempt E (m_user_id m)
                                       (TVotesReset (s_title session) sid)
                                       (Some (VoteKeyboard sid)))
                         (db_get_members sid (db w))
                  ++ [Reply TRevoteDone None])
               (set_db (db_clear_votes sid (db w)) w))
    end.
Proof.
  unfold cb_revote, get_session, clear_votes, get_members. run_m.
  destruct (db_get_session sid (db w)) as [session|]; [|run_m; by rewrite log_log].
  destruct (decide (id from_user ≠ s_creator_id session)).
  { run_m. by rewrite log_log. }
  run_m.
  rewrite (for_each_log _ _
    (λ m, attempt E (m_user_id m) (TVotesReset (s_title session) sid)
                  (Some (VoteKeyboard sid)))).
  - run_m. unfold log, set_db. cbn [db ticks draws sent db_clear_votes].
    rewrite <- !app_assoc. reflexivity.
  - intros m w'. by run_m.
Qed.

Lemma db_get_votes_clear sid sid' d :
  db_get_votes sid' (db_clear_votes sid d)
  = if decide (sid' = sid) then [] else db_get_votes sid' d.
Proof.
  unfold db_get_votes, db_clear_votes. cbn [votes].
  assert (Hrows : filter (λ r, v_session_id r = sid')
                         (filter (λ r, v_session_id r ≠ sid) (votes d))
                  = if decide (sid' = sid) then []
                    else filter (λ r, v_session_id r = sid') (votes d)).
  { induction (votes d) as [|v l IH]; [by destruct (decide _)|].
    rewrite (filter_cons (λ r, v_session_id r ≠ sid)).
    destruct (decide (v_session_id v ≠ sid)) as [Hv|Hv].
    - rewrite !filter_cons. destruct (decide (v_session_id v = sid')) as [Hv'|Hv'].
      + rewrite IH. destruct (decide (sid' = sid)); [congruence|done].
      + exact IH.
    - rewrite IH. destruct (decide (sid' = sid)) as [->|Hne]; [done|].
      rewrite filter_cons. destruct (decide (v_session_id v = sid')); [|done].
      exfalso. apply Hv. congruence. }
  rewrite Hrows. by destruct (decide (sid' = sid)).
Qed.

(** X8. Resetting the votes is for the creator only, and is not tied to the
    status of the session: for the creator it deletes every vote of the
    session, open or closed, and nothing else -- the votes of the other
    sessions, the members and the sessions stay -- and every member is sent
    the keyboard again; for anyone else the store is unchanged. *)
Theorem cb_revote_resets E from_user sid w session :
  db_get_session sid (db w) = Some session →
  (id from_user ≠ s_creator_id session →
     (cb_revote E from_user sid w).1 = RevoteForbidden
     ∧ db (cb_revote E from_user sid w).2 = db w)
  ∧ (id from_user = s_creator_id session →
     (cb_revote E from_user sid w).1 = RevoteDone
     ∧ db_get_votes sid (db (cb_revote E from_user sid w).2) = []
     ∧ (∀ sid', sid' ≠ sid →
          db_get_votes sid' (db (cb_revote E from_user sid w).2)
          = db_get_votes sid' (db w))
     ∧ session_members (db (cb_revote E from_user sid w).2) = session_members (db w)
     ∧ sessions (db (cb_revote E from_user sid w).2) = sessions (db w)
     ∧ sent (cb_revote E from_user sid w).2
       = sent w
           ++ [CallbackAnswer None false]
           ++ map (λ m, attempt E (m_user_id m) (TVotesReset (s_title session) sid)
                                (Some (VoteKeyboard sid)))
                  (db_get_members sid (db w))
           ++ [Reply TRevoteDone None]).
Proof.
  intros Hs. rewrite cb_revote_run, Hs. split; intros Hid.
  - by destruct (decide (id from_user ≠ s_creator_id session)).
  - destruct (decide (id from_user ≠ s_creator_id session)); [done|].
    cbn [fst snd]. rewrite db_log, db_set_db, sent_log.
    split; [done|]. split; [|split; [|done]].
    + rewrite db_get_votes_clear. by destruct (decide (sid = sid)).
    + intros sid' Hne. rewrite db_get_votes_clear. by destruct (decide (sid' = sid)).
Qed.

Lemma cb_revote_resets_witness :
  let w1 := (run env0 [ReqVote ann "s0" "3"; ReqCloseSession ann (Some "s0")]
                 world_open).2 in
  (s_status <$> db_get_session "s0" (db w1)) = Some "closed"
  ∧ length (db_get_votes "s0" (db w1)) = 1%nat
  ∧ (cb_revote env0 bob "s0" w1).1 = RevoteForbidden
  ∧ (cb_revote env0 ann "s0" w1).1 = RevoteDone
  ∧ db_get_votes "s0" (db (cb_revote env0 ann "s0" w1).2) = [].
Proof.
  intros w1.
  destruct (cb_revote_resets env0 bob "s0" w1 (session0 "closed")) as [Hb _];
    [vm_compute; reflexivity|].
  destruct (cb_revote_resets env0 ann "s0" w1 (session0 "closed")) as [_ Ha];
    [vm_compute; reflexivity|].
  split; [vm_compute; reflexivity|]. split; [vm_compute; reflexivity|].
  split; [apply Hb; vm_compute; discriminate|].
  destruct Ha as (H1 & H2 & _); [reflexivity|]. by split.
Defined.

Lemma cmd_close_session_run E from_user args w :
  cmd_close_session E from_user args w =
    if is_empty_string (or_empty args) then
      (CloseUsage, log [Reply TUsageCloseSession None] w)
    else
      let sid := strip E (or_empty args) in
      match db_get_session sid (db w) with
      | None => (CloseNotFound, log [Reply TSessionNotFound None] w)
      | Some session =>
          if decide (id from_user ≠ s_creator_id session) then
            (CloseForbidden, log [Reply TOnlyCreatorCloses None] w)
          else
            (CloseDone,
             log [Reply (TSessionClosed sid) None]
                 (set_db (db_set_session_status sid "closed" (db w)) w))
      end.
Proof.
  unfold cmd_close_session, get_session, set_session_status.
  destruct (is_empty_string (or_empty args)); [by run_m|].
  run_m. cbv zeta.
  destruct (db_get_session _ (db w)) as [session|]; [|by run_m].
  destruct (decide (id from_user ≠ s_creator_id session)); by run_m.
Qed.

(** X9. Closing is for the creator only.  For the creator it sets the status
    of that one session to closed and changes nothing else: its other
    columns, the other sessions, the members and the votes stay.  From then
    on every vote on the session is refused as closed and every join too.
    For anyone else the store is unchanged. *)
Theorem cmd_close_session_closes E from_user args w session :
  is_empty_string (or_empty args) = false →
  let sid := strip E (or_empty args) in
  let r := cmd_close_session E from_user args w in
  db_get_session sid (db w) = Some session →
  (id from_user ≠ s_creator_id session → r.1 = CloseForbidden ∧ db r.2 = db w)
  ∧ (id from_user = s_creator_id session →
     r.1 = CloseDone
     ∧ db_get_session sid (db r.2) = Some (with_status "closed" session)
     ∧ (∀ sid', sid' ≠ sid → db_get_session sid' (db r.2) = db_get_session sid' (db w))
     ∧ session_members (db r.2) = session_members (db w)
     ∧ votes (db r.2) = votes (db w)
     ∧ (∀ voter value, (cb_vote E voter sid value r.2).1 = VoteClosed)
     ∧ (∀ joiner, (cb_join E joiner sid r.2).1 = JoinClosed)).
Proof.
  intros Hargs sid r Hs. unfold r. rewrite cmd_close_session_run, Hargs.
  cbv zeta. fold sid. rewrite Hs. split; intros Hid.
  - by destruct (decide (id from_user ≠ s_creator_id session)).
  - destruct (decide (id from_user ≠ s_creator_id session)); [done|].
    cbn [fst snd]. rewrite db_log, db_set_db.
    pose proof (db_get_session_Some _ _ _ Hs) as [Hsid _].
    assert (Hclosed : db_get_session sid (db_set_session_status sid "closed" (db w))
                      = Some (with_status "closed" session)).
    { rewrite db_get_session_set_status, Hs. cbn.
      by destruct (decide (s_id session = sid)). }
    split; [done|]. split; [exact Hclosed|]. split; [|split; [done|split; [done|split]]].
    + intros sid' Hne. rewrite db_get_session_set_status.
      destruct (db_get_session sid' (db w)) as [s'|] eqn:Hs'; [|done]. cbn.
      pose proof (db_get_session_Some _ _ _ Hs') as [Hsid' _].
      destruct (decide (s_id s' = sid)); [congruence|done].
    + intros voter value. rewrite cb_vote_run, db_log, db_set_db, Hclosed.
      cbn [s_status with_status].
      destruct (decide ("closed" ≠ "open")) as [|Hn]; [done|].
      exfalso. apply Hn. discriminate.
    + intros joiner. rewrite cb_join_run, db_log, db_set_db, Hclosed.
      cbn [s_status with_status].
      destruct (decide ("closed" ≠ "open")) as [|Hn]; [done|].
      exfalso. apply Hn. discriminate.
Qed.

Lemma cmd_close_session_closes_witness :
  (cmd_close_session env0 bob (Some "s0") world_open).1 = CloseForbidden
  ∧ (cmd_close_session env0 ann (Some "s0") world_open).1 = CloseDone
  ∧ (cb_vote env0 bob "s0" "5"
       (cmd_close_session env0 ann (Some "s0") world_open).2).1 = VoteClosed.
Proof.
  destruct (cmd_close_session_closes env0 bob (Some "s0") world_open (session0 "open"))
    as [Hb _]; [reflexivity | vm_compute; reflexivity |].
  destruct (cmd_close_session_closes env0 ann (Some "s0") world_open (session0 "open"))
    as [_ Ha]; [reflexivity | vm_compute; reflexivity |].
  split; [apply Hb; vm_compute; discriminate|].
  destruct Ha as (H1 & _ & _ & _ & _ & H6 & _); [reflexivity|].
  split; [exact H1 | apply (H6 bob "5")].
Defined.

(** ** What every run keeps *)

(** The store after a request is the store before it, changed by at most
    the statements the handlers issue. *)
Lemma handle_db_ind (P : database → Prop) E r w :
  (∀ m d, P d → P (db_insert_or_ignore_member m d)) →
  (∀ v d, P d → P (db_insert_or_replace_vote v d)) →
  (∀ sid d, P d → P (db_clear_votes sid d)) →
  (∀ sid d, P d → P (db_set_session_status sid "closed" d)) →
  (∀ row d d', P d → db_insert_session row d = Some d' → P d') →
  P (db w) → P (db (handle E r w).2).
Proof.
  intros Hm Hv Hc Hs Hi Hw. rewrite handle_run.
  destruct r as [u a|u s|u s v|u s|u s|u s|u a].
  - rewrite cmd_new_session_db. destruct (is_empty_string _); [done|]. cbv zeta.
    destruct (db_insert_session _ (db w)) as [d|] eqn:Hd; [|done]. eauto.
  - rewrite cb_join_run. destruct (db_get_session s (db w)) as [session|]; [|done].
    destruct (decide _); [done|]. cbn [snd]. rewrite db_log, db_set_db. eauto.
  - rewrite cb_vote_db. destruct (db_get_session s (db w)) as [session|]; [|done].
    destruct (decide _); [done|]. apply Hv, Hw.
  - by rewrite cb_reveal_db.
  - rewrite cb_revote_db. destruct (db_get_session s (db w)) as [session|]; [|done].
    destruct (decide _); [done|]. eauto.
  - rewrite cb_members_run. destruct (db_get_session s (db w)) as [session|]; [|done].
    destruct (decide _); [done|]. destruct (decide _); [done|].
    by destruct (db_get_members s (db w)).
  - rewrite cmd_close_session_db. destruct (is_empty_string _); [done|]. cbv zeta.
    destruct (db_get_session _ (db w)) as [session|]; [|done].
    destruct (decide _); [done|]. eauto.
Qed.

Lemma run_db_ind (P : database → Prop) E rs w :
  (∀ m d, P d → P (db_insert_or_ignore_member m d)) →
  (∀ v d, P d → P (db_insert_or_replace_vote v d)) →
  (∀ sid d, P d → P (db_clear_votes sid d)) →
  (∀ sid d, P d → P (db_set_session_status sid "closed" d)) →
  (∀ row d d', P d → db_insert_session row d = Some d' → P d') →
  P (db w) → P (db (run E rs w).2).
Proof.
  intros Hm Hv Hc Hs Hi. revert w.
  induction rs as [|r rs IH]; intros w Hw; [done|].
  rewrite run_cons. apply IH. by apply handle_db_ind.
Qed.

Lemma session_kept_refl s : session_kept s s.
Proof. unfold session_kept. tauto. Qed.

Lemma session_kept_closed s s' :
  session_kept s s' → session_kept s (with_status "closed" s').
Proof. unfold session_kept. cbn. tauto. Qed.

Lemma run_session_kept E rs w sid session :
  db_get_session sid (db w) = Some session →
  ∃ session',
    db_get_session sid (db (run E rs w).2) = Some session'
    ∧ session_kept session session'
    ∧ (s_status session ≠ "open" → s_status session' ≠ "open").
Proof.
  intros Hs.
  assert (H : ∃ s', db_get_session sid (db (run E rs w).2) = Some s'
                    ∧ session_kept session s').
  { apply (run_db_ind (λ d, ∃ s', db_get_session sid d = Some s'
                                  ∧ session_kept session s')).
    - intros m d. by rewrite db_get_session_insert_member.
    - done.
    - done.
    - intros sid' d (s' & Hs' & Hk). rewrite db_get_session_set_status, Hs'. cbn.
      destruct (decide (s_id s' = sid')); eauto using session_kept_closed.
    - intros row d d' (s' & Hs' & Hk). unfold db_insert_session.
      destruct (decide _); [done|]. intros [= <-].
      exists s'. split; [|done]. by rewrite db_get_session_snoc, Hs'.
    - exists session. split; [done|apply session_kept_refl]. }
  destruct H as (s' & Hs' & Hk). exists s'. split; [done|]. split; [done|].
  destruct Hk as (_ & _ & _ & _ & _ & _ & [Hst|Hst]); rewrite Hst; [done|].
  discriminate.
Qed.

(** X10. Sessions are never deleted, and closing is final.  Whatever requests
    follow, a stored session stays stored under its id with its creator,
    title, description and creation time; its status is still the one it
    had or has become closed.  So no request reopens a session that is not
    open. *)
Theorem run_keeps_session E rs w sid session :
  db_get_session sid (db w) = Some session →
  ∃ session',
    db_get_session sid (db (run E rs w).2) = Some session'
    ∧ session_kept session session'
    ∧ (s_status session ≠ "open" → s_status session' ≠ "open").
Proof. apply run_session_kept. Qed.

Lemma run_keeps_session_witness :
  ∃ session',
    db_get_session "s0"
      (db (run env0 [ReqNewSession ann (Some "Other"); ReqJoin bob "s0";
                     ReqVote ann "s0" "3"; ReqRevote ann "s0"] world_closed).2)
    = Some session'
    ∧ s_creator_id session' = 1 ∧ s_status session' ≠ "open".
Proof.
  destruct (run_keeps_session env0
              [ReqNewSession ann (Some "Other"); ReqJoin bob "s0";
               ReqVote ann "s0" "3"; ReqRevote ann "s0"]
              world_closed "s0" (session0 "closed"))
    as (s' & Hs' & Hk & Hst); [vm_compute; reflexivity|].
  exists s'. split; [exact Hs'|]. split; [apply Hk | apply Hst; discriminate].
Defined.

(** X11. Members are never removed: whatever requests follow, the table of
    members keeps its rows, in their order, and only grows at its end. *)
Theorem run_keeps_members E rs w :
  session_members (db w) `prefix_of` session_members (db (run E rs w).2).
Proof.
  apply (run_db_ind (λ d, session_members (db w) `prefix_of` session_members d));
    try done.
  - intros m d Hp. unfold db_insert_or_ignore_member. destruct (decide _); [done|].
    cbn [session_members]. by apply prefix_app_r.
  - intros row d d' Hp. unfold db_insert_session. destruct (decide _); [done|].
    by intros [= <-].
Qed.

(** X12. Session ids stay unique: no run of requests from a store without
    duplicate ids, the empty one in particular, leads to two sessions with
    one id, so [get_session] finds the one session of an id. *)
Theorem run_keeps_session_ids E rs w :
  sessions_ok (db w) →
  sessions_ok (db (run E rs w).2)
  ∧ sessions_ok (db (run E rs world0).2)
  ∧ ∀ session, session ∈ sessions (db (run E rs w).2) →
      db_get_session (s_id session) (db (run E rs w).2) = Some session.
Proof.
  assert (Hrun : ∀ w0, sessions_ok (db w0) → sessions_ok (db (run E rs w0).2)).
  { intros w0 Hok. apply (run_db_ind sessions_ok); try done.
    - intros m d. unfold db_insert_or_ignore_member. by destruct (decide _).
    - intros sid d. unfold sessions_ok, db_set_session_status. cbn [sessions].
      rewrite map_map.
      assert (Heq : map (λ x, s_id (if decide (s_id x = sid)
                                    then with_status "closed" x else x)) (sessions d)
                    = map s_id (sessions d)).
      { apply map_ext. intros x. by destruct (decide _). }
      by rewrite Heq.
    - intros row d d' Hd. unfold db_insert_session.
      destruct (decide _) as [|Hfresh]; [done|]. intros [= <-].
      unfold sessions_ok. cbn [sessions]. rewrite map_app. apply NoDup_app.
      split; [done|]. split; [|apply NoDup_singleton].
      intros x Hx Hx'. apply list_elem_of_singleton in Hx' as ->. done. }
  intros Hok. split; [by apply Hrun|]. split; [apply Hrun; constructor|].
  intros session Hin. specialize (Hrun w Hok).
  unfold sessions_ok in Hrun. unfold db_get_session.
  induction (sessions (db (run E rs w).2)) as [|x l IH]; [by apply elem_of_nil in Hin|].
  cbn [map] in Hrun. apply NoDup_cons in Hrun as [Hx Hl].
  rewrite filter_cons. apply elem_of_cons in Hin as [->|Hin].
  - by destruct (decide (s_id x = s_id x)).
  - destruct (decide (s_id x = s_id session)) as [Heq|]; [|by apply IH].
    exfalso. apply Hx. rewrite Heq. to_fmap. by apply list_elem_of_fmap_2.
Qed.

Lemma run_keeps_session_ids_witness :
  sessions_ok (db (run env0 [ReqNewSession bob (Some "Other")] world_open).2).
Proof.
  apply (run_keeps_session_ids env0 [ReqNewSession bob (Some "Other")] world_open).
  vm_compute. repeat constructor. by intros ?%elem_of_nil.
Defined.

(** ** When the automatic reveal is right *)

(** X13. The size test of the automatic reveal is the intended test as long
    as every vote of the session is by one of its members: on a store with
    unique keys it holds exactly when the session has a member and every
    member has voted. *)
Theorem all_voted_iff sid d :
  db_ok d →
  voters_are_members sid d →
  all_voted sid d = true
  ↔ db_get_members sid d ≠ [] ∧ every_member_voted sid d.
Proof. apply all_voted_members_voted. Qed.

Lemma all_voted_iff_witness :
  all_voted "s0" (db (cb_vote env0 ann "s0" "3" world_two).2) = false
  ∧ all_voted "s0" (db (run env0 [ReqVote ann "s0" "3"; ReqVote bob "s0" "5"]
                            world_two).2) = true.
Proof.
  split; [vm_compute; reflexivity|].
  apply all_voted_iff.
  - apply run_db_ok. split; apply (bool_decide_unpack _); vm_compute; exact I.
  - intros v Hv. apply (bool_decide_unpack _). revert v Hv.
    apply Forall_forall. vm_compute. repeat constructor.
  - split; [vm_compute; discriminate|].
    intros m Hm. apply (bool_decide_unpack _). revert m Hm.
    apply Forall_forall. vm_compute. repeat constructor.
Defined.

(** X14. With members only voting, the automatic reveal comes exactly with
    the last missing vote.  On an open session whose votes are all by
    members, a vote by a member that leaves some member without a vote
    sends nothing but the acknowledgement; the vote after which every
    member has one sends the results once to each member, in the order of
    the member list, and then the notice to the creator. *)
Theorem cb_vote_reveals_when_complete E from_user sid value w session :
  db_get_session sid (db w) = Some session →
  s_status session = "open" →
  db_ok (db w) →
  voters_are_members sid (db w) →
  id from_user ∈ map m_user_id (db_get_members sid (db w)) →
  let d := voted E from_user sid value w in
  let results :=
    TResults (compose_text session sid (db_get_votes sid d) (db_get_members sid d)) in
  (¬ every_member_voted sid d →
     sent (cb_vote E from_user sid value w).2
     = sent w ++ [CallbackAnswer None false; vote_ack from_user session sid value])
  ∧ (every_member_voted sid d →
     sent (cb_vote E from_user sid value w).2
     = sent w
         ++ [CallbackAnswer None false; vote_ack from_user session sid value]
         ++ broadcast E (db_get_members sid d) results
         ++ [attempt E (s_creator_id session) TAllVoted None]).
Proof.
  intros Hs Hst Hok Hsub Hu d results.
  assert (Hiff : all_voted sid d = true
                 ↔ db_get_members sid d ≠ [] ∧ every_member_voted sid d).
  { apply all_voted_members_voted.
    - by apply db_ok_insert_or_replace_vote.
    - by apply voters_are_members_voted. }
  assert (Hne : db_get_members sid d ≠ []).
  { unfold d. rewrite db_get_members_voted. intros Hnil. rewrite Hnil in Hu.
    by apply elem_of_nil in Hu. }
  rewrite cb_vote_run, Hs.
  destruct (decide (s_status session ≠ "open")); [done|].
  cbv zeta. cbn [fst snd]. rewrite sent_log. cbn [set_db tick sent]. fold d.
  unfold auto_reveal_events.
  destruct (decide (s_status session = "open")); [|done].
  split; intros Hall.
  - destruct (all_voted sid d) eqn:Hav; [|by rewrite app_nil_r].
    exfalso. apply Hall. by apply Hiff.
  - assert (Hav : all_voted sid d = true) by (by apply Hiff).
    rewrite Hav. unfold d at 1. rewrite db_get_session_voted, Hs. fold d.
    destruct (db_get_votes_voted_cons E from_user sid value w) as (v & vs & Hv).
    fold d in Hv. unfold results. rewrite Hv. reflexivity.
Qed.

Lemma cb_vote_reveals_when_complete_witness :
  let w1 := (cb_vote env0 ann "s0" "3" world_two).2 in
  results_sent (sent w1) = 0%nat
  ∧ results_sent (sent (cb_vote env0 bob "s0" "5" w1).2) = 2%nat.
Proof.
  intros w1.
  destruct (cb_vote_reveals_when_complete env0 ann "s0" "3" world_two (session0 "open"))
    as [Hno _].
  1: vm_compute; reflexivity.
  1: reflexivity.
  1: split; apply (bool_decide_unpack _); vm_compute; exact I.
  1: intros v Hv; apply (bool_decide_unpack _); revert v Hv;
     apply Forall_forall; vm_compute; repeat constructor.
  1: apply (bool_decide_unpack _); vm_compute; exact I.
  destruct (cb_vote_reveals_when_complete env0 bob "s0" "5" w1 (session0 "open"))
    as [_ Hyes].
  1: vm_compute; reflexivity.
  1: reflexivity.
  1: split; apply (bool_decide_unpack _); vm_compute; exact I.
  1: intros v Hv; apply (bool_decide_unpack _); revert v Hv;
     apply Forall_forall; vm_compute; repeat constructor.
  1: apply (bool_decide_unpack _); vm_compute; exact I.
  split.
  - unfold w1. rewrite Hno; [vm_compute; reflexivity|].
    intros Hall. specialize (Hall (mkMember "s0" 2 "" "Bob" "t2")).
    assert (Hin : 2 ∈ [1]).
    { apply Hall. vm_compute. apply elem_of_cons. right. apply elem_of_cons. by left. }
    apply list_elem_of_singleton in Hin. discriminate.
  - rewrite Hyes; [vm_compute; reflexivity|].
    intros m Hm. apply (bool_decide_unpack _). revert m Hm.
    apply Forall_forall. vm_compute. repeat constructor.
Defined.

(** ** Who is sent what *)

(** X15. A reveal by the creator, with at least one vote, makes one delivery
    attempt per member of the session, in the order of the member list and
    all with the same text, then confirms to the creator; it does so
    whatever the status of the session.  Deliveries that fail stop nothing:
    the outcome, the store and the number of attempts are the same
    whichever deliveries get through. *)
Theorem cb_reveal_broadcasts E E' from_user sid w session :
  db_get_session sid (db w) = Some session →
  id from_user = s_creator_id session →
  db_get_votes sid (db w) ≠ [] →
  let members := db_get_members sid (db w) in
  let results :=
    TResults (compose_text session sid (db_get_votes sid (db w)) members) in
  (cb_reveal E from_user sid w).1 = Revealed
  ∧ sent (cb_reveal E from_user sid w).2
    = sent w ++ [CallbackAnswer None false]
        ++ map (λ m, attempt E (m_user_id m) results None) members
        ++ [Reply TResultsSent None]
  ∧ (cb_reveal E' from_user sid w).1 = (cb_reveal E from_user sid w).1
  ∧ db (cb_reveal E' from_user sid w).2 = db (cb_reveal E from_user sid w).2
  ∧ length (sent (cb_reveal E' from_user sid w).2)
    = length (sent (cb_reveal E from_user sid w).2).
Proof.
  intros Hs Hid Hv members results. rewrite !cb_reveal_db, !cb_reveal_run, Hs.
  destruct (decide (id from_user ≠ s_creator_id session)); [done|].
  destruct (db_get_votes sid (db w)) as [|v vs] eqn:Hvotes; [done|].
  cbv zeta. cbn [fst snd]. rewrite !sent_log. unfold broadcast.
  repeat split; try done.
  rewrite !length_app, !length_map. reflexivity.
Qed.

Lemma cb_reveal_broadcasts_witness :
  let w1 := (run env0 [ReqVote ann "s0" "3"; ReqCloseSession ann (Some "s0")]
                 world_two).2 in
  (cb_reveal env_mute ann "s0" w1).1 = Revealed
  ∧ filter is_results (sent (cb_reveal env_mute ann "s0" w1).2)
    = [SendFailed 1 (TResults [LTitle "Task" "s0"; LCount "3" 1; LTotal 1; LMean 300;
                               LMedian 3; LNotVotedHeader; LNotVoted "Bob"]);
       SendFailed 2 (TResults [LTitle "Task" "s0"; LCount "3" 1; LTotal 1; LMean 300;
                               LMedian 3; LNotVotedHeader; LNotVoted "Bob"])].
Proof.
  intros w1.
  destruct (cb_reveal_broadcasts env_mute env0 ann "s0" w1 (session0 "closed"))
    as (H1 & H2 & _);
    [vm_compute; reflexivity | reflexivity | vm_compute; discriminate |].
  split; [exact H1|]. rewrite H2. vm_compute. reflexivity.
Defined.

(** X16. The roster of an open session is for its creator only: anyone else
    is told so and is sent no roster; the creator is sent one line per
    member, in the order of the member list, each with the username, the
    name and the user id, or is told that nobody has joined. *)
Theorem cb_members_open_session from_user sid w session :
  db_get_session sid (db w) = Some session →
  s_status session = "open" →
  (id from_user ≠ s_creator_id session →
     (cb_members from_user sid w).1 = MembersForbidden
     ∧ sent (cb_members from_user sid w).2
       = sent w ++ [CallbackAnswer None false;
                    CallbackAnswer (Some TOnlyCreatorMembers) true])
  ∧ (id from_user = s_creator_id session → db_get_members sid (db w) = [] →
     (cb_members from_user sid w).1 = MembersNobody)
  ∧ (id from_user = s_creator_id session → db_get_members sid (db w) ≠ [] →
     (cb_members from_user sid w).1 = MembersListed
     ∧ sent (cb_members from_user sid w).2
       = sent w ++ [CallbackAnswer None false;
                    Reply (TMembers (s_title session) sid
                                    (map member_line (db_get_members sid (db w))))
                          None])
  ∧ db (cb_members from_user sid w).2 = db w.
Proof.
  intros Hs Hst. rewrite cb_members_run, Hs.
  destruct (decide (s_status session ≠ "open")); [done|].
  destruct (decide (id from_user ≠ s_creator_id session)) as [Hne|Heq].
  - repeat split; done.
  - destruct (db_get_members sid (db w)) as [|m ms]; repeat split; done.
Qed.

Lemma cb_members_open_session_witness :
  (cb_members bob "s0" world_two).1 = MembersForbidden
  ∧ sent (cb_members ann "s0" world_two).2
    = sent world_two
        ++ [CallbackAnswer None false;
            Reply (TMembers "Task" "s0" [("@ann", "Ann", "1"); ("—", "Bob", "2")]) None].
Proof.
  destruct (cb_members_open_session bob "s0" world_two (session0 "open"))
    as (Hb & _); [vm_compute; reflexivity | reflexivity |].
  destruct (cb_members_open_session ann "s0" world_two (session0 "open"))
    as (_ & _ & Ha & _); [vm_compute; reflexivity | reflexivity |].
  split; [apply Hb; vm_compute; discriminate|].
  destruct Ha as [_ Ha]; [reflexivity | vm_compute; discriminate |].
  rewrite Ha. vm_compute. reflexivity.
Defined.

(** ** The text does not tell who voted what *)

Lemma floor_log2_lt q : (0 < q)%Q → (q < two_pow (floor_log2 q + 1))%Q.
Proof.
  intros Hq. unfold floor_log2.
  destruct (Qle_bool _ q) eqn:Hb.
  - destruct q as [a b]. cbn [Qnum Qden] in *.
    assert (Ha : 0 < a) by (unfold Qlt in Hq; cbn in Hq; lia).
    pose proof (Z.log2_spec a Ha) as [_ Hla].
    pose proof (Z.log2_spec (Zpos b) (Pos2Z.is_pos b)) as [Hlb _].
    pose proof (Z.log2_nonneg a) as Hna.
    pose proof (Z.log2_nonneg (Zpos b)) as Hnb.
    set (la := Z.log2 a) in *. set (lb := Z.log2 (Zpos b)) in *.
    assert (Hsplit : (two_pow (la - lb + 1) * two_pow lb == two_pow (la + 1))%Q).
    { rewrite <- two_pow_add. by replace (la - lb + 1 + lb) with (la + 1) by lia. }
    rewrite (two_pow_Z lb), (two_pow_Z (la + 1)) in Hsplit by lia.
    pose proof (two_pow_pos (la - lb + 1)) as Hp.
    assert (Hbq : (inject_Z (2 ^ lb) <= inject_Z (Zpos b))%Q) by (by rewrite <- Zle_Qle).
    assert (Haq : (inject_Z a < inject_Z (2 ^ (la + 1)))%Q).
    { rewrite <- Zlt_Qlt. replace (la + 1) with (Z.succ la) by lia. exact Hla. }
    assert (Hprod : (inject_Z a < two_pow (la - lb + 1) * inject_Z (Zpos b))%Q).
    { apply Qlt_le_trans with (two_pow (la - lb + 1) * inject_Z (2 ^ lb))%Q.
      - rewrite Hsplit. exact Haq.
      - apply Qmult_le_l; [exact Hp|exact Hbq]. }
    rewrite (Qmake_Qdiv a b). apply Qlt_shift_div_r; [reflexivity|]. exact Hprod.
  - replace (Z.log2 (Qnum q) - Z.log2 (Zpos (Qden q)) - 1 + 1)
      with (Z.log2 (Qnum q) - Z.log2 (Zpos (Qden q))) by lia.
    apply Qnot_le_lt. intros Hle. apply Qle_bool_iff in Hle. congruence.
Qed.

Lemma floor_log2_Qeq q q' : (0 < q)%Q → (q == q')%Q → floor_log2 q = floor_log2 q'.
Proof.
  intros Hq Heq.
  assert (Hq' : (0 < q')%Q) by (by rewrite <- Heq).
  pose proof (floor_log2_le q Hq) as H1. pose proof (floor_log2_lt q Hq) as H2.
  pose proof (floor_log2_le q' Hq') as H1'. pose proof (floor_log2_lt q' Hq') as H2'.
  destruct (Z.lt_trichotomy (floor_log2 q) (floor_log2 q')) as [Hlt|[Heq'|Hgt]];
    [exfalso|done|exfalso].
  - assert (H : (two_pow (floor_log2 q + 1) <= two_pow (floor_log2 q'))%Q)
      by (apply two_pow_le; lia).
    lra.
  - assert (H : (two_pow (floor_log2 q' + 1) <= two_pow (floor_log2 q))%Q)
      by (apply two_pow_le; lia).
    lra.
Qed.

Lemma round_half_even_Qeq q q' : (q == q')%Q → round_half_even q = round_half_even q'.
Proof.
  intros Heq. unfold round_half_even.
  assert (Hf : Qfloor q = Qfloor q') by (by rewrite Heq).
  rewrite Hf.
  assert (Hc : (q - inject_Z (Qfloor q') ?= 1 # 2)%Q
               = (q' - inject_Z (Qfloor q') ?= 1 # 2)%Q) by (by rewrite Heq).
  by rewrite Hc.
Qed.

Lemma b64_pos_Qeq q q' : (0 < q)%Q → (q == q')%Q → b64_pos q = b64_pos q'.
Proof.
  intros Hq Heq. unfold b64_pos. rewrite (floor_log2_Qeq q q' Hq Heq).
  assert (Hr : round_half_even (q / two_pow (floor_log2 q' - 52))
               = round_half_even (q' / two_pow (floor_log2 q' - 52)))
    by (apply round_half_even_Qeq; by rewrite Heq).
  by rewrite Hr.
Qed.

(** Rounding to binary64 does not depend on how the fraction is written. *)
Lemma b64_Qeq q q' : (q == q')%Q → b64 q = b64 q'.
Proof.
  intros Heq. unfold b64.
  assert (Hc : (q ?= 0)%Q = (q' ?= 0)%Q) by (by rewrite Heq).
  rewrite <- Hc. destruct (q ?= 0)%Q eqn:Hq; [done| |].
  - apply Qlt_alt in Hq. f_equal. apply b64_pos_Qeq; [lra|by rewrite Heq].
  - apply Qgt_alt in Hq. by apply b64_pos_Qeq.
Qed.

Lemma canonical_eq q q' : canonical q → canonical q' → (q == q')%Q → q = q'.
Proof.
  unfold canonical. intros Hq Hq' Heq. rewrite <- Hq, <- Hq'. by apply Qred_complete.
Qed.

Lemma Qred_Qred q : Qred (Qred q) = Qred q.
Proof. apply Qred_complete, Qred_correct. Qed.

Lemma b64_canonical q : canonical (b64 q).
Proof.
  unfold canonical, b64. destruct (q ?= 0)%Q; [done| |].
  - unfold b64_pos. by rewrite Qred_opp, Qred_Qred.
  - unfold b64_pos. apply Qred_Qred.
Qed.

Lemma py_value_canonical val x : py_value val = Some x → canonical x.
Proof.
  unfold py_value, py_float. destruct (decide _); [done|].
  destruct (decide _); [by intros [= <-]|].
  destruct (is_empty_string val); [done|].
  destruct (digits_value 0 val); [|done]. cbn. intros [= <-]. apply b64_canonical.
Qed.

Lemma Qsum_perm l l' : l ≡ₚ l' → (Qsum l == Qsum l')%Q.
Proof.
  induction 1 as [|x l l' _ IH|x y l|l l' l'' _ IH _ IH']; cbn [Qsum foldr].
  - reflexivity.
  - fold (Qsum l). fold (Qsum l'). by rewrite IH.
  - fold (Qsum l). ring.
  - by rewrite IH.
Qed.

(** A list of rationals in lowest terms has one sorted arrangement. *)
Lemma sorted_unique l l' :
  Forall canonical l → l ≡ₚ l' →
  StronglySorted Qle l → StronglySorted Qle l' → l = l'.
Proof.
  intros Hcan. revert l'. induction l as [|x l IH]; intros l' Hp Hs Hs'.
  - by apply Permutation_nil in Hp.
  - destruct l' as [|y l'];
      [by apply Permutation_sym, Permutation_nil in Hp|].
    apply Forall_cons in Hcan as [Hx Hcan].
    apply StronglySorted_inv in Hs as [Hs Hxl].
    apply StronglySorted_inv in Hs' as [Hs' Hyl].
    assert (Hcy : canonical y).
    { assert (Hy : y ∈ x :: l) by (rewrite Hp; apply elem_of_cons; by left).
      apply elem_of_cons in Hy as [->|Hy]; [done|].
      by apply (proj1 (Forall_forall _ _) Hcan). }
    assert (Hxy : (x <= y)%Q).
    { assert (Hy : y ∈ x :: l) by (rewrite Hp; apply elem_of_cons; by left).
      apply elem_of_cons in Hy as [->|Hy]; [apply Qle_refl|].
      by apply (proj1 (Forall_forall _ _) Hxl). }
    assert (Hyx : (y <= x)%Q).
    { assert (Hx' : x ∈ y :: l') by (rewrite <- Hp; apply elem_of_cons; by left).
      apply elem_of_cons in Hx' as [->|Hx']; [apply Qle_refl|].
      by apply (proj1 (Forall_forall _ _) Hyl). }
    assert (Heq : x = y) by (apply canonical_eq; [done|done|by apply Qle_antisym]).
    subst y. f_equal. apply IH; [done| |done|done].
    by apply Permutation_cons_inv in Hp.
Qed.

Lemma stats_lines_perm l l' :
  Forall canonical l → l ≡ₚ l' → stats_lines l = stats_lines l'.
Proof.
  intros Hcan Hp.
  assert (Hmean : mean l = mean l').
  { unfold mean. destruct l as [|x l]; [by apply Permutation_nil in Hp as ->|].
    destruct l' as [|y l']; [by apply Permutation_sym, Permutation_nil in Hp|].
    f_equal. apply b64_Qeq.
    by rewrite (Qsum_perm _ _ Hp), (Permutation_length Hp). }
  assert (Hsorted : sorted l = sorted l').
  { apply sorted_unique.
    - rewrite sorted_perm. exact Hcan.
    - by rewrite !sorted_perm.
    - apply sorted_sorted.
    - apply sorted_sorted. }
  assert (Hmedian : median l = median l') by (unfold median; by rewrite Hsorted).
  unfold stats_lines. rewrite Hmean, Hmedian.
  destruct l as [|x l]; [by apply Permutation_nil in Hp as ->|].
  destruct l' as [|y l']; [by apply Permutation_sym, Permutation_nil in Hp|]. done.
Qed.

Lemma votes_for_values opt votes :
  votes_for opt votes = length (filter (λ val, val = opt) (map v_value votes)).
Proof.
  unfold votes_for. induction votes as [|v votes IH]; [done|].
  cbn [map]. rewrite !filter_cons.
  destruct (decide (v_value v = opt)); cbn [length]; by rewrite IH.
Qed.

Lemma tally_numeric_values votes :
  (tally votes).2 = omap py_value (map v_value votes).
Proof. unfold tally. by rewrite foldl_tally_numeric. Qed.

(** X17. The text of the results does not tell who voted what.  For votes
    that hold card tokens it is the same for any two lists of votes with
    the same values, counted with their repetitions, and the same set of
    voters: exchanging the cards between the voters changes nothing.  (The
    statement is kept to card tokens, the values on which [py_float] is
    Python's [float].) *)
Theorem compose_text_anonymous session sid votes votes' members :
  Forall (λ v, v_value v ∈ VOTE_OPTIONS) votes →
  map v_value votes ≡ₚ map v_value votes' →
  (list_to_set (map v_user_id votes) : gset Z) = list_to_set (map v_user_id votes') →
  Forall (λ v, v_value v ∈ VOTE_OPTIONS) votes'
  ∧ compose_text session sid votes members = compose_text session sid votes' members.
Proof.
  intros Hcards Hvalues Hvoters. split.
  { apply Forall_forall. intros v' Hv'.
    assert (Hin : v_value v' ∈ map v_value votes).
    { rewrite Hvalues. to_fmap. by apply list_elem_of_fmap_2. }
    to_fmap. apply list_elem_of_fmap in Hin as (v & -> & Hv).
    rewrite Forall_forall in Hcards. by apply Hcards. }
  revert Hvalues Hvoters. clear Hcards.
  intros Hvalues Hvoters. rewrite !compose_text_eq.
  assert (Hcounts : (tally votes).1 = (tally votes').1).
  { apply map_eq. intros opt. rewrite !tally_counts.
    assert (Hfor : votes_for opt votes = votes_for opt votes').
    { rewrite !votes_for_values. apply Permutation_length. by rewrite Hvalues. }
    by rewrite Hfor. }
  assert (Hlen : length votes = length votes').
  { rewrite <- (length_map v_value votes), <- (length_map v_value votes').
    by apply Permutation_length. }
  assert (Hstats : stats_lines (tally votes).2 = stats_lines (tally votes').2).
  { apply stats_lines_perm.
    - rewrite tally_numeric_values. apply Forall_forall. intros x Hx.
      apply list_elem_of_omap in Hx as (val & _ & Hval).
      by apply (py_value_canonical val).
    - rewrite !tally_numeric_values. by rewrite Hvalues. }
  assert (Hnot : not_voted votes members = not_voted votes' members)
    by (unfold not_voted; by rewrite Hvoters).
  by rewrite Hcounts, Hlen, Hstats, Hnot.
Qed.

Lemma compose_text_anonymous_witness :
  compose_text (session0 "open") "s0"
    [mkVote "s0" 1 "3" "t1"; mkVote "s0" 2 "8" "t2"; mkVote "s0" 3 "½" "t3"]
    (db_get_members "s0" (db world_two))
  = compose_text (session0 "open") "s0"
      [mkVote "s0" 3 "8" "t7"; mkVote "s0" 1 "½" "t8"; mkVote "s0" 2 "3" "t9"]
      (db_get_members "s0" (db world_two)).
Proof.
  apply compose_text_anonymous.
  - apply (bool_decide_unpack _). vm_compute. exact I.
  - cbn [map v_value].
    change ["3"; "8"; "½"] with (["3"] ++ ["8"; "½"]).
    change ["8"; "½"; "3"] with (["8"; "½"] ++ ["3"]).
    apply Permutation_app_comm.
  - vm_compute. reflexivity.
Defined.

(** ** The counts add up *)

Lemma counted_app l l' : counted (l ++ l') = (counted l + counted l')%nat.
Proof.
  unfold counted. induction l as [|x l IH]; [done|].
  cbn [app foldr]. rewrite IH. destruct x; lia.
Qed.

Lemma counted_stats_lines nv : counted (stats_lines nv) = 0%nat.
Proof.
  unfold stats_lines. destruct nv; [done|].
  destruct (mean _); [|done]. by destruct (median _).
Qed.

Lemma counted_not_voted_lines nv : counted (not_voted_lines nv) = 0%nat.
Proof.
  unfold not_voted_lines. destruct nv as [|m nv]; [done|].
  cbn [counted foldr]. fold (counted (map (λ m, LNotVoted (display_name m)) (m :: nv))).
  induction (m :: nv) as [|x l IH]; [done|]. exact IH.
Qed.

Lemma sum_list_cons x l : sum_list (x :: l) = (x + sum_list l)%nat.
Proof. reflexivity. Qed.

Lemma counted_cons_count opt n l : counted (LCount opt n :: l) = (n + counted l)%nat.
Proof. reflexivity. Qed.

Lemma counted_histogram opts votes :
  counted ((λ opt, LCount opt (votes_for opt votes))
             <$> filter (λ opt, (0 < votes_for opt votes)%nat) opts)
  = sum_list (map (λ opt, votes_for opt votes) opts).
Proof.
  induction opts as [|opt opts IH]; [done|].
  rewrite filter_cons. cbn [map]. rewrite sum_list_cons.
  destruct (decide (0 < votes_for opt votes)%nat).
  - rewrite fmap_cons, counted_cons_count, IH. reflexivity.
  - rewrite IH. lia.
Qed.

Lemma sum_votes_for opts votes :
  NoDup opts →
  sum_list (map (λ opt, votes_for opt votes) opts)
  = length (filter (λ v, v_value v ∈ opts) votes).
Proof.
  intros Hnd. induction votes as [|v votes IH].
  - cbn [filter list_filter length]. clear Hnd.
    induction opts as [|o opts IHo]; [done|].
    cbn [map]. rewrite sum_list_cons, IHo. reflexivity.
  - rewrite filter_cons.
    assert (Hstep : sum_list (map (λ opt, votes_for opt (v :: votes)) opts)
                    = ((if decide (v_value v ∈ opts) then 1 else 0)
                       + sum_list (map (λ opt, votes_for opt votes) opts))%nat).
    { clear IH. induction opts as [|o opts IHo].
      - cbn. destruct (decide _) as [H|]; [by apply elem_of_nil in H|done].
      - apply NoDup_cons in Hnd as [Ho Hnd]. cbn [map].
        rewrite !sum_list_cons, (IHo Hnd). unfold votes_for at 1. rewrite filter_cons.
        fold (votes_for o votes).
        destruct (decide (v_value v = o)) as [Hv|Hv].
        + destruct (decide (v_value v ∈ opts)) as [Hin|]; [by rewrite Hv in Hin|].
          destruct (decide (v_value v ∈ o :: opts)) as [|Hn];
            [unfold votes_for; cbn [length]; lia|].
          exfalso. apply Hn. rewrite Hv. apply elem_of_cons. by left.
        + destruct (decide (v_value v ∈ opts)) as [Hin|Hin];
            destruct (decide (v_value v ∈ o :: opts)) as [Hin'|Hin'];
            try (unfold votes_for; lia).
          * exfalso. apply Hin'. apply elem_of_cons. by right.
          * exfalso. apply elem_of_cons in Hin' as [?|?]; done. }
    rewrite Hstep, IH. destruct (decide (v_value v ∈ opts)); cbn [length]; lia.
Qed.

Lemma length_filter_all {A} (P : A → Prop) `{∀ x, Decision (P x)} (l : list A) :
  length (filter P l) = length l ↔ Forall P l.
Proof.
  induction l as [|x l IH]; [by split|].
  rewrite filter_cons, Forall_cons. pose proof (length_filter P l) as Hle.
  destruct (decide (P x)); cbn [length].
  - rewrite <- IH. split; [intros Heq; split; [done|lia] | intros [_ Heq]; lia].
  - split; [lia | intros [Hx _]; done].
Qed.

(** X18. The counts of the count lines add up to the number of votes whose
    value is a card token.  Votes with any other value are in the total
    but on no count line, so the counts add up to the total exactly when
    every vote holds a card token. *)
Theorem compose_text_counts_add_up session sid votes members :
  counted (compose_text session sid votes members)
  = length (filter (λ v, v_value v ∈ VOTE_OPTIONS) votes)
  ∧ (counted (compose_text session sid votes members) ≤ length votes)%nat
  ∧ (counted (compose_text session sid votes members) = length votes
     ↔ Forall (λ v, v_value v ∈ VOTE_OPTIONS) votes).
Proof.
  assert (Hc : counted (compose_text session sid votes members)
               = length (filter (λ v, v_value v ∈ VOTE_OPTIONS) votes)).
  { rewrite compose_text_eq, !counted_app, counted_stats_lines,
            counted_not_voted_lines, histogram_lines_tally, counted_histogram.
    rewrite sum_votes_for; [cbn [counted foldr]; lia|].
    apply (bool_decide_unpack _). vm_compute. exact I. }
  rewrite Hc. split; [done|]. split; [apply length_filter|].
  apply length_filter_all.
Qed.

(** ** Buttons and the callbacks they send *)

Lemma py_split_until_bar k a rest :
  no_bar a = true →
  py_split bar (S k) (a +:+ String bar rest) = a :: py_split bar k rest.
Proof.
  induction a as [|c a IH]; cbn [no_bar]; intros Ha.
  - change ("" +:+ String bar rest) with (String bar rest). cbn [py_split].
    by destruct (decide (bar = bar)).
  - change (String c a +:+ String bar rest) with (String c (a +:+ String bar rest)).
    cbn [py_split].
    apply andb_true_iff in Ha as [Hc Ha].
    apply negb_true_iff, bool_decide_eq_false in Hc.
    destruct (decide (c = bar)); [done|]. by rewrite (IH Ha).
Qed.

Lemma py_split_no_bar k a :
  no_bar a = true → py_split bar k a = [a].
Proof.
  induction a as [|c a IH]; cbn [no_bar py_split]; intros Ha; [done|].
  destruct k; [done|].
  apply andb_true_iff in Ha as [Hc Ha].
  apply negb_true_iff, bool_decide_eq_false in Hc.
  destruct (decide (c = bar)); [done|]. by rewrite (IH Ha).
Qed.

Lemma py_split_0 s : py_split bar 0 s = [s].
Proof. by destruct s. Qed.

Lemma prefix_append p s : String.prefix p (p +:+ s) = true.
Proof.
  induction p as [|c p IH].
  - by destruct s.
  - change (String c p +:+ s) with (String c (p +:+ s)). cbn [String.prefix].
    by destruct (Ascii.ascii_dec c c).
Qed.

Lemma unpack_sid_after_bar to (name sid : string) :
  no_bar name = true →
  unpack_sid to (name +:+ String bar sid) = to sid.
Proof.
  intros Hn. unfold unpack_sid. by rewrite py_split_until_bar, py_split_0.
Qed.

Lemma route_callback_data sid value :
  route_callback (Some ("join|" +:+ sid)) = ToJoin sid
  ∧ route_callback (Some ("reveal|" +:+ sid)) = ToReveal sid
  ∧ route_callback (Some ("revote|" +:+ sid)) = ToRevote sid
  ∧ route_callback (Some ("members|" +:+ sid)) = ToMembers sid
  ∧ route_callback (Some ("info|" +:+ sid)) = ToInfo sid
  ∧ (no_bar sid = true →
     route_callback (Some ("vote|" +:+ sid +:+ "|" +:+ value)) = ToVote sid value
     ∧ route_callback (Some ("vote|" +:+ sid)) = Raises).
Proof.
  unfold route_callback.
  repeat split;
    repeat match goal with
           | |- context [String.prefix ?p ?d] =>
               first [ rewrite (prefix_append p)
                     | change (String.prefix p d) with false ];
               cbv iota
           end.
  - apply (unpack_sid_after_bar ToJoin "join" sid). reflexivity.
  - apply (unpack_sid_after_bar ToReveal "reveal" sid). reflexivity.
  - apply (unpack_sid_after_bar ToRevote "revote" sid). reflexivity.
  - apply (unpack_sid_after_bar ToMembers "members" sid). reflexivity.
  - apply (unpack_sid_after_bar ToInfo "info" sid). reflexivity.
  - change ("vote|" +:+ sid +:+ "|" +:+ value)
      with ("vote" +:+ String bar (sid +:+ String bar value)).
    rewrite (py_split_until_bar 1 "vote") by reflexivity.
    rewrite (py_split_until_bar 0 sid) by done. by rewrite py_split_0.
  - change ("vote|" +:+ sid) with ("vote" +:+ String bar sid).
    rewrite (py_split_until_bar 1 "vote") by reflexivity.
    by rewrite py_split_no_bar.
Qed.

(** X19. What the handlers read back from callback data.  The one-argument
    callbacks take everything after the first bar as the session id, bars
    included.  A vote callback is cut at its first two bars: when the id
    has no bar, as the generated ids have none, the handler gets the id and
    the value as they were put in, whatever the value; data with one bar
    only makes the unpacking raise. *)
Theorem route_callback_reads_back sid value :
  route_callback (Some ("join|" +:+ sid)) = ToJoin sid
  ∧ route_callback (Some ("reveal|" +:+ sid)) = ToReveal sid
  ∧ route_callback (Some ("revote|" +:+ sid)) = ToRevote sid
  ∧ route_callback (Some ("members|" +:+ sid)) = ToMembers sid
  ∧ route_callback (Some ("info|" +:+ sid)) = ToInfo sid
  ∧ (no_bar sid = true →
     route_callback (Some ("vote|" +:+ sid +:+ "|" +:+ value)) = ToVote sid value
     ∧ route_callback (Some ("vote|" +:+ sid)) = Raises).
Proof. apply route_callback_data. Qed.

Lemma route_callback_reads_back_witness :
  route_callback (Some "vote|s0|½") = ToVote "s0" "½"
  ∧ route_callback (Some "vote|s0") = Raises.
Proof.
  apply (route_callback_reads_back "s0" "½"). reflexivity.
Defined.

Lemma enumerate_snoc {A} start (l : list A) x :
  enumerate start (l ++ [x]) = enumerate start l ++ [((start + length l)%nat, x)].
Proof.
  unfold enumerate. rewrite length_app. cbn [length].
  replace (length l + 1)%nat with (S (length l)) by lia.
  rewrite seq_S. rewrite (zip_with_app pair) by (by rewrite length_seq).
  reflexivity.
Qed.

(** The state of the loop of lines 220-226 after any number of options:
    the closed rows have four buttons each, and the open row has the rest. *)
Lemma keyboard_loop_invariant session_id opts :
  let st := foldl (keyboard_step session_id) ([], []) (enumerate 1 opts) in
  concat st.1 ++ st.2 = map (vote_button session_id) opts
  ∧ Forall (λ row, length row = 4%nat) st.1
  ∧ length st.2 = (length opts mod 4)%nat.
Proof.
  induction opts as [|x opts IH] using rev_ind; [by repeat split|].
  rewrite enumerate_snoc, foldl_snoc.
  set (st := foldl (keyboard_step session_id) ([], []) (enumerate 1 opts)) in *.
  cbv zeta in IH. destruct IH as (Hcat & Hfull & Hrow).
  unfold keyboard_step. cbn [fst snd].
  rewrite map_app, length_app. cbn [map length].
  assert (Hlt : (length opts mod 4 < 4)%nat) by (apply Nat.mod_upper_bound; lia).
  destruct ((1 + length opts) mod 4 =? 0)%nat eqn:Hmod.
  - apply Nat.eqb_eq in Hmod. cbn [fst snd].
    assert (Hm : (length opts mod 4 = 3)%nat).
    { pose proof (Nat.div_mod_eq (length opts) 4) as H1.
      pose proof (Nat.div_mod_eq (1 + length opts) 4) as H2. lia. }
    rewrite concat_app, app_nil_r. cbn [concat]. rewrite app_nil_r, app_assoc, Hcat.
    split; [done|]. split.
    + apply Forall_app. split; [done|]. constructor; [|done].
      rewrite length_app. cbn [length]. lia.
    + replace (length opts + 1)%nat with (1 + length opts)%nat by lia.
      by rewrite Hmod.
  - apply Nat.eqb_neq in Hmod. cbn [fst snd]. rewrite app_assoc, Hcat.
    split; [done|]. split; [done|]. rewrite length_app. cbn [length].
    pose proof (Nat.div_mod_eq (length opts) 4) as H1.
    pose proof (Nat.div_mod_eq (length opts + 1) 4) as H2.
    replace (1 + length opts)%nat with (length opts + 1)%nat in Hmod by lia.
    assert (H3 : ((length opts + 1) mod 4 < 4)%nat) by (apply Nat.mod_upper_bound; lia).
    lia.
Qed.

Lemma option_rows_concat session_id opts :
  concat (option_rows session_id opts) = map (vote_button session_id) opts.
Proof.
  pose proof (keyboard_loop_invariant session_id opts) as H. cbv zeta in H.
  unfold option_rows.
  set (st := foldl (keyboard_step session_id) ([], []) (enumerate 1 opts)) in *.
  destruct H as (Hcat & _ & _).
  destruct st.2 as [|b row]; [by rewrite app_nil_r in Hcat|].
  by rewrite concat_app; cbn [concat]; rewrite app_nil_r.
Qed.

(** X20. The option buttons are laid out four to a row, in the order of the
    options, for any list of options: the rows read in order give one
    button per option, every row but the last has four buttons, and the
    last has the one to four that remain. *)
Theorem option_rows_layout session_id opts :
  concat (option_rows session_id opts) = map (vote_button session_id) opts
  ∧ Forall (λ row, (1 ≤ length row ≤ 4)%nat) (option_rows session_id opts)
  ∧ (∀ i row, option_rows session_id opts !! i = Some row →
       (S i < length (option_rows session_id opts))%nat → length row = 4%nat).
Proof.
  pose proof (keyboard_loop_invariant session_id opts) as H. cbv zeta in H.
  unfold option_rows.
  set (st := foldl (keyboard_step session_id) ([], []) (enumerate 1 opts)) in *.
  destruct H as (Hcat & Hfull & Hrow).
  assert (Hfull' : Forall (λ row, (1 ≤ length row ≤ 4)%nat) st.1).
  { eapply Forall_impl; [exact Hfull|]. intros row Hr. cbv beta in Hr. lia. }
  assert (Hlt : (length opts mod 4 < 4)%nat) by (apply Nat.mod_upper_bound; lia).
  destruct st.2 as [|b row] eqn:Hopen.
  - rewrite app_nil_r in Hcat. split; [done|]. split; [done|].
    intros i r Hi _. by apply (proj1 (Forall_lookup _ _) Hfull i r).
  - split; [|split].
    + by rewrite concat_app; cbn [concat]; rewrite app_nil_r.
    + apply Forall_app. split; [done|]. constructor; [|done].
      cbn [length] in *. lia.
    + intros i r Hi Hlast. rewrite length_app in Hlast. cbn [length] in Hlast.
      rewrite lookup_app_l in Hi by lia.
      by apply (proj1 (Forall_lookup _ _) Hfull i r).
Qed.

(** X21. Every button the bot shows leads back to the handler and the
    arguments it stands for: on the voting keyboard of a session whose id
    has no bar the option buttons send, in the order of VOTE_OPTIONS, a
    vote on that session for their option, and the three buttons below send
    reveal, revote and members on it; the two buttons of a session message
    send join and info. *)
Theorem keyboards_reach_handlers session_id :
  no_bar session_id = true →
  map (λ b, route_callback (Some (b_callback_data b)))
      (concat (build_vote_keyboard session_id))
  = map (ToVote session_id) VOTE_OPTIONS
      ++ [ToReveal session_id; ToRevote session_id; ToMembers session_id]
  ∧ map b_text (concat (option_rows session_id VOTE_OPTIONS)) = VOTE_OPTIONS
  ∧ map (λ b, route_callback (Some (b_callback_data b)))
        (concat (build_session_buttons session_id))
    = [ToJoin session_id; ToInfo session_id].
Proof.
  intros Hsid. unfold build_vote_keyboard, build_session_buttons.
  rewrite concat_app, map_app, !option_rows_concat.
  pose proof (λ value, route_callback_data session_id value) as Hr.
  split; [|split].
  - f_equal.
    + rewrite map_map. apply map_ext. intros opt. unfold vote_button.
      cbn [b_callback_data]. by apply (Hr opt).
    + cbn [concat app map b_callback_data].
      destruct (Hr "") as (_ & H1 & H2 & H3 & _). by rewrite H1, H2, H3.
  - rewrite map_map. cbn [vote_button b_text]. apply map_id.
  - cbn [concat app map b_callback_data].
    destruct (Hr "") as (H1 & _ & _ & _ & H5 & _). by rewrite H1, H5.
Qed.

Lemma keyboards_reach_handlers_witness :
  map (λ b, route_callback (Some (b_callback_data b)))
      (concat (build_vote_keyboard "s0"))
  = map (ToVote "s0") VOTE_OPTIONS ++ [ToReveal "s0"; ToRevote "s0"; ToMembers "s0"].
Proof. apply (keyboards_reach_handlers "s0"). reflexivity. Defined.

(** ** The read-only commands *)

Lemma vote_keys_of_session sid (l : list vote_row) :
  map vote_key (filter (λ r, v_session_id r = sid) l)
  = map (λ u, (sid, u)) (map v_user_id (filter (λ r, v_session_id r = sid) l)).
Proof.
  rewrite map_map. induction l as [|v l IH]; [done|].
  rewrite filter_cons. destruct (decide (v_session_id v = sid)) as [Hs|]; [|done].
  cbn [map]. rewrite IH. unfold vote_key. by rewrite Hs.
Qed.

Lemma voter_ids_NoDup sid d :
  db_ok d → NoDup (map v_user_id (db_get_votes sid d)).
Proof.
  intros [_ Hv]. unfold db_get_votes. rewrite by_user_id_map.
  pose proof (NoDup_keys_filter vote_key (λ r, v_session_id r = sid) _ Hv) as Hf.
  rewrite vote_keys_of_session in Hf. to_fmap. by apply NoDup_fmap_1 in Hf.
Qed.

(** X22. [/session] answers anyone, for an open or a closed session alike,
    with the columns of the session and two numbers: on a store with
    unique keys these are the number of distinct members and the number
    of distinct voters of the session, and when the votes are all by
    members the second is at most the first.  An unknown id is answered
    as such. *)
Theorem cmd_session_counts E args d :
  is_empty_string (or_empty args) = false →
  db_ok d →
  let sid := strip E (or_empty args) in
  (db_get_session sid d = None → cmd_session E args d = SessionUnknown)
  ∧ (∀ session, db_get_session sid d = Some session →
     ∃ n_members n_votes,
       cmd_session E args d
       = SessionInfo (s_title session) sid (s_status session) (s_creator_name session)
                     (s_created_at session) n_members n_votes
       ∧ n_members = size (list_to_set (map m_user_id (db_get_members sid d)) : gset Z)
       ∧ n_votes = size (list_to_set (map v_user_id (db_get_votes sid d)) : gset Z)
       ∧ (voters_are_members sid d → (n_votes ≤ n_members)%nat)).
Proof.
  intros Hargs Hok sid. unfold cmd_session. rewrite Hargs. cbv zeta. fold sid.
  split; [by intros ->|]. intros session ->.
  exists (length (db_get_members sid d)), (length (db_get_votes sid d)).
  assert (Hm : size (list_to_set (map m_user_id (db_get_members sid d)) : gset Z)
               = length (db_get_members sid d)).
  { rewrite size_list_to_set by (by apply member_ids_NoDup). apply length_map. }
  assert (Hv : size (list_to_set (map v_user_id (db_get_votes sid d)) : gset Z)
               = length (db_get_votes sid d)).
  { rewrite size_list_to_set by (by apply voter_ids_NoDup). apply length_map. }
  split; [done|]. split; [done|]. split; [done|].
  intros Hsub. rewrite <- Hm, <- Hv. apply subseteq_size.
  intros x Hx. apply elem_of_list_to_set in Hx. apply elem_of_list_to_set.
  to_fmap. apply list_elem_of_fmap in Hx as (v & -> & Hv'). by apply Hsub.
Qed.

Lemma cmd_session_counts_witness :
  cmd_session env0 (Some "s0")
              (db (run env0 [ReqVote bob "s0" "5"; ReqVote bob "s0" "8";
                             ReqCloseSession ann (Some "s0")] world_two).2)
  = SessionInfo "Task" "s0" "closed" "Ann" "t0" 2 1.
Proof.
  destruct (cmd_session_counts env0 (Some "s0")
              (db (run env0 [ReqVote bob "s0" "5"; ReqVote bob "s0" "8";
                             ReqCloseSession ann (Some "s0")] world_two).2))
    as [_ H].
  - reflexivity.
  - apply run_db_ok. split; apply (bool_decide_unpack _); vm_compute; exact I.
  - destruct (H (session0 "closed")) as (n & m & Heq & Hn & Hm & _);
      [vm_compute; reflexivity|].
    rewrite Heq, Hn, Hm. vm_compute. reflexivity.
Defined.

(** X23. [/my_sessions] lists the sessions of the sender and no others: on a
    store with unique session ids a line with an id is in the list exactly
    when [get_session] finds under that id a session created by the
    sender, and the line carries its title, status and creation time; the
    "no sessions yet" reply is given exactly when the sender created
    none. *)
Theorem cmd_my_sessions_lists_own from_user d :
  sessions_ok d →
  (cmd_my_sessions from_user d = None
   ↔ ∀ session, session ∈ sessions d → s_creator_id session ≠ id from_user)
  ∧ (∀ rows title sid status created_at,
       cmd_my_sessions from_user d = Some rows →
       ((title, sid, status, created_at) ∈ rows
        ↔ ∃ session, db_get_session sid d = Some session
                     ∧ s_creator_id session = id from_user
                     ∧ s_title session = title ∧ s_status session = status
                     ∧ s_created_at session = created_at)).
Proof.
  intros Hok. unfold cmd_my_sessions.
  assert (Hget : ∀ session, session ∈ sessions d →
                   db_get_session (s_id session) d = Some session).
  { intros session Hin. unfold sessions_ok in Hok. unfold db_get_session.
    induction (sessions d) as [|x l IH]; [by apply elem_of_nil in Hin|].
    cbn [map] in Hok. apply NoDup_cons in Hok as [Hx Hl].
    rewrite filter_cons. apply elem_of_cons in Hin as [->|Hin].
    - by destruct (decide (s_id x = s_id x)).
    - destruct (decide (s_id x = s_id session)) as [Heq|]; [|by apply IH].
      exfalso. apply Hx. rewrite Heq. to_fmap. by apply list_elem_of_fmap_2. }
  set (own := filter (λ r, s_creator_id r = id from_user) (sessions d)).
  assert (Hown : ∀ session, session ∈ own
                   ↔ s_creator_id session = id from_user ∧ session ∈ sessions d)
    by (intros session; unfold own; by rewrite list_elem_of_filter).
  split.
  - split.
    + intros Hnone session Hin Hc.
      assert (Hs : session ∈ own) by (by apply Hown).
      destruct own; [by apply elem_of_nil in Hs|done].
    + intros Hnone. destruct own as [|x l] eqn:Hx; [done|].
      exfalso. assert (Hs : x ∈ x :: l) by (apply elem_of_cons; by left).
      apply Hown in Hs as [Hc Hin]. by apply (Hnone x).
  - intros rows title sid status created_at Hrows.
    assert (Hr : rows = map (λ r, (s_title r, s_id r, s_status r, s_created_at r)) own)
      by (destruct own; [done|by injection Hrows as <-]).
    rewrite Hr. to_fmap. rewrite list_elem_of_fmap. split.
    + intros (session & [= -> -> -> ->] & Hs). apply Hown in Hs as [Hc Hin].
      exists session. by rewrite (Hget session Hin).
    + intros (session & Hs & Hc & <- & <- & <-).
      pose proof (db_get_session_Some _ _ _ Hs) as [<- Hin].
      exists session. split; [done|]. by apply Hown.
Qed.

Lemma cmd_my_sessions_lists_own_witness :
  cmd_my_sessions bob (db world_two) = None
  ∧ cmd_my_sessions ann (db world_two) = Some [("Task", "s0", "open", "t0")].
Proof.
  destruct (cmd_my_sessions_lists_own bob (db world_two)) as [[_ Hnone] _].
  - apply (bool_decide_unpack _). vm_compute. exact I.
  - split; [|vm_compute; reflexivity].
    apply Hnone. intros session Hin. vm_compute in Hin.
    apply list_elem_of_singleton in Hin as ->. discriminate.
Defined.

(** ** A closed session *)

Lemma db_get_votes_other_session sid r d :
  v_session_id r ≠ sid →
  db_get_votes sid (db_insert_or_replace_vote r d) = db_get_votes sid d.
Proof.
  intros Hr. unfold db_get_votes, db_insert_or_replace_vote. cbn [votes].
  rewrite filter_app, filter_cons, filter_nil.
  destruct (decide (v_session_id r = sid)); [done|]. rewrite app_nil_r.
  f_equal. induction (votes d) as [|v l IH]; [done|].
  rewrite (filter_cons (λ x, vote_key x ≠ vote_key r)).
  destruct (decide (vote_key v ≠ vote_key r)) as [Hk|Hk].
  - rewrite !filter_cons. destruct (decide (v_session_id v = sid)); by rewrite IH.
  - rewrite IH, filter_cons. destruct (decide (v_session_id v = sid)) as [Hv|]; [|done].
    exfalso. apply Hk. unfold vote_key. intros [= Hs _]. congruence.
Qed.

Lemma db_get_members_other_session sid r d :
  m_session_id r ≠ sid →
  db_get_members sid (db_insert_or_ignore_member r d) = db_get_members sid d.
Proof.
  intros Hr. unfold db_get_members, db_insert_or_ignore_member.
  destruct (decide _); [done|]. cbn [session_members].
  rewrite filter_app, filter_cons, filter_nil.
  destruct (decide (m_session_id r = sid)); [done|]. by rewrite app_nil_r.
Qed.

Lemma cmd_close_session_tables E from_user args w :
  session_members (db (cmd_close_session E from_user args w).2) = session_members (db w)
  ∧ votes (db (cmd_close_session E from_user args w).2) = votes (db w).
Proof.
  rewrite cmd_close_session_db. destruct (is_empty_string (or_empty args)); [done|].
  cbv zeta. destruct (db_get_session (strip E (or_empty args)) (db w)); [|done].
  by destruct (decide _).
Qed.

Lemma handle_closed_session E r w sid session :
  db_get_session sid (db w) = Some session →
  s_status session ≠ "open" →
  db_get_members sid (db (handle E r w).2) = db_get_members sid (db w)
  ∧ (db_get_votes sid (db (handle E r w).2) = db_get_votes sid (db w)
     ∨ db_get_votes sid (db (handle E r w).2) = []).
Proof.
  intros Hs Hst. rewrite handle_run.
  destruct r as [u a|u s|u s v|u s|u s|u s|u a].
  - rewrite cmd_new_session_db. destruct (is_empty_string _); [by split; [|left]|].
    cbv zeta. unfold db_insert_session. cbn [s_id].
    destruct (decide _) as [|Hfresh]; [by split; [|left]|].
    assert (Hne : token E (draws w) ≠ sid).
    { intros Heq. subst sid. rewrite db_get_session_fresh in Hs; done. }
    split; [by rewrite db_get_members_other_session|].
    left. unfold db_insert_or_ignore_member. by destruct (decide _).
  - rewrite cb_join_run.
    destruct (db_get_session s (db w)) as [session'|] eqn:Hs'; [|by split; [|left]].
    destruct (decide (s_status session' ≠ "open")) as [|Hopen]; [by split; [|left]|].
    cbn [snd]. rewrite db_log, db_set_db.
    assert (Hne : s ≠ sid).
    { intros Heq. subst s. rewrite Hs in Hs'. injection Hs' as <-. by apply Hopen. }
    split; [by rewrite db_get_members_other_session|].
    left. unfold db_insert_or_ignore_member. by destruct (decide _).
  - rewrite cb_vote_db.
    destruct (db_get_session s (db w)) as [session'|] eqn:Hs'; [|by split; [|left]].
    destruct (decide (s_status session' ≠ "open")) as [|Hopen]; [by split; [|left]|].
    assert (Hne : s ≠ sid).
    { intros Heq. subst s. rewrite Hs in Hs'. injection Hs' as <-. by apply Hopen. }
    split; [done|]. left. by apply db_get_votes_other_session.
  - rewrite cb_reveal_db. by split; [|left].
  - rewrite cb_revote_db.
    destruct (db_get_session s (db w)) as [session'|]; [|by split; [|left]].
    destruct (decide _); [by split; [|left]|]. split; [done|].
    rewrite db_get_votes_clear. destruct (decide (sid = s)); [by right|by left].
  - rewrite cb_members_run.
    destruct (db_get_session s (db w)) as [session'|]; [|by split; [|left]].
    destruct (decide _); [by split; [|left]|]. destruct (decide _); [by split; [|left]|].
    destruct (db_get_members s (db w)); by split; [|left].
  - destruct (cmd_close_session_tables E u a w) as [Hm Hv].
    unfold db_get_members, db_get_votes. rewrite Hm, Hv. by split; [|left].
Qed.

(** X24. A session that is not open is frozen: whatever requests follow,
    from whomever, its members stay exactly those it had, and its votes
    stay exactly those it had unless the creator resets them, after which
    it has none for good. *)
Theorem run_closed_session_frozen E rs w sid session :
  db_get_session sid (db w) = Some session →
  s_status session ≠ "open" →
  db_get_members sid (db (run E rs w).2) = db_get_members sid (db w)
  ∧ (db_get_votes sid (db (run E rs w).2) = db_get_votes sid (db w)
     ∨ db_get_votes sid (db (run E rs w).2) = []).
Proof.
  revert w session. induction rs as [|r rs IH]; intros w session Hs Hst.
  - by split; [|left].
  - rewrite run_cons.
    destruct (handle_closed_session E r w sid session Hs Hst) as [Hm Hv].
    destruct (run_session_kept E [r] w sid session Hs) as (s' & Hs' & _ & Hst').
    rewrite run_cons, run_nil in Hs'. cbn [snd] in Hs'.
    destruct (IH (handle E r w).2 s' Hs' (Hst' Hst)) as [Hm' Hv'].
    split; [by rewrite Hm', Hm|].
    destruct Hv' as [Hv'|Hv']; [|by right].
    rewrite Hv'. exact Hv.
Qed.

Lemma run_closed_session_frozen_witness :
  let w1 := (run env0 [ReqVote ann "s0" "3"; ReqCloseSession ann (Some "s0")]
                 world_two).2 in
  map v_value
      (db_get_votes "s0" (db (run env0 [ReqVote bob "s0" "8"; ReqVote ann "s0" "5";
                                        ReqJoin (mkUser 3 None "Cy") "s0"] w1).2))
  = ["3"].
Proof.
  intros w1.
  destruct (run_closed_session_frozen env0
              [ReqVote bob "s0" "8"; ReqVote ann "s0" "5";
               ReqJoin (mkUser 3 None "Cy") "s0"] w1 "s0" (session0 "closed"))
    as [_ [H|H]]; [vm_compute; reflexivity | vm_compute; discriminate | |].
  - rewrite H. vm_compute. reflexivity.
  - exfalso. vm_compute in H. discriminate.
Defined.
